(** * Sentinel DDoS: a shallow embedding of the mitigation, detection and
      rules code, with the properties of its specification.

    Python strings are modelled as [String.string] over ASCII (so that
    [str.encode()] is the list of character codes), Python floats as exact
    rationals [Q], Python ints as [Z], and the Redis server as an explicit
    key/value store with expiry deadlines that is threaded through every
    coroutine. *)

From Stdlib Require Import ZArith QArith Qabs Qround Qminmax Lia Lqa List String Ascii Bool.
Import ListNotations.
Open Scope string_scope.
Open Scope Z_scope.

(* ------------------------------------------------------------------ *)
(** ** Python string helpers *)

Module Py.

Definition byte_of (c : ascii) : Z := Z.of_N (N_of_ascii c).

(** [s.encode()] for an ASCII string. *)
Definition encode (s : string) : list Z := map byte_of (list_ascii_of_string s).

(** [s.split(sep)] for a one-character separator. *)
Fixpoint split (sep : ascii) (s : string) : list string :=
  match s with
  | EmptyString => [EmptyString]
  | String c rest =>
      if Ascii.eqb c sep then EmptyString :: split sep rest
      else match split sep rest with
           | [] => [String c EmptyString]
           | w :: ws => String c w :: ws
           end
  end.

(** [sep.join(parts)]. *)
Fixpoint join (sep : string) (parts : list string) : string :=
  match parts with
  | [] => EmptyString
  | [p] => p
  | p :: ps => p ++ sep ++ join sep ps
  end.

(** [s.startswith(p)]. *)
Definition startswith (s p : string) : bool := String.prefix p s.

(** [p in s] (substring test). *)
Fixpoint contains (s p : string) : bool :=
  String.prefix p s ||
  match s with
  | EmptyString => false
  | String _ rest => contains rest p
  end.

(** [s[:n]]. *)
Definition take (n : nat) (s : string) : string := substring 0 n s.

Definition rev_string (s : string) : string :=
  string_of_list_ascii (rev (list_ascii_of_string s)).

(** [c.lower()] and [s.lower()] on ASCII. *)
Definition lower_char (c : ascii) : ascii :=
  let n := nat_of_ascii c in
  if (65 <=? n)%nat && (n <=? 90)%nat then ascii_of_nat (n + 32) else c.

Fixpoint lower (s : string) : string :=
  match s with
  | EmptyString => EmptyString
  | String c rest => String (lower_char c) (lower rest)
  end.

(** [c.upper()] and [s.upper()] on ASCII. *)
Definition upper_char (c : ascii) : ascii :=
  let n := nat_of_ascii c in
  if (97 <=? n)%nat && (n <=? 122)%nat then ascii_of_nat (n - 32) else c.

Fixpoint upper (s : string) : string :=
  match s with
  | EmptyString => EmptyString
  | String c rest => String (upper_char c) (upper rest)
  end.

(** [s.endswith(p)]. *)
Definition endswith (s p : string) : bool :=
  String.prefix (rev_string p) (rev_string s).

(** [s[:-1]]. *)
Definition drop_last (s : string) : string := substring 0 (String.length s - 1) s.

(** [c.isspace()] on ASCII: space, [\t\n\v\f\r] and [\x1c]-[\x1f]; these
    are what [str.strip()] and [int()] skip. *)
Definition is_space (c : ascii) : bool :=
  let n := nat_of_ascii c in
  (n =? 32)%nat || ((9 <=? n)%nat && (n <=? 13)%nat) || ((28 <=? n)%nat && (n <=? 31)%nat).

Definition is_digit (c : ascii) : bool :=
  let n := nat_of_ascii c in (48 <=? n)%nat && (n <=? 57)%nat.

Definition digit_val (c : ascii) : Z := Z.of_nat (nat_of_ascii c) - 48.

Fixpoint lstrip (s : string) : string :=
  match s with
  | String c rest => if is_space c then lstrip rest else s
  | EmptyString => EmptyString
  end.

(** [s.strip()]. *)
Definition strip (s : string) : string := rev_string (lstrip (rev_string (lstrip s))).

(** Digits of an integer literal, with single underscores allowed between
    digits, accumulated onto [acc]; [prev_digit] says whether the previous
    character was a digit. *)
Fixpoint digits_val (s : string) (acc : Z) (prev_digit : bool) : option Z :=
  match s with
  | EmptyString => if prev_digit then Some acc else None
  | String c rest =>
      if is_digit c then digits_val rest (10 * acc + digit_val c) true
      else if Ascii.eqb c "_"%char && prev_digit then
        match rest with
        | String d _ => if is_digit d then digits_val rest acc false else None
        | EmptyString => None
        end
      else None
  end.

(** The default [sys.get_int_max_str_digits()]. *)
Definition INT_MAX_STR_DIGITS : nat := 4300.

Definition count_digits (s : string) : nat :=
  List.length (filter is_digit (list_ascii_of_string s)).

(** [int(s)] for an ASCII string: surrounding whitespace, an optional sign,
    then decimal digits (with [_] separators), at most 4300 digits;
    [None] is the [ValueError]. *)
Definition int_of_string (s : string) : option Z :=
  if (INT_MAX_STR_DIGITS <? count_digits s)%nat then None else
  match strip s with
  | String c rest =>
      if Ascii.eqb c "-"%char then option_map Z.opp (digits_val rest 0 false)
      else if Ascii.eqb c "+"%char then digits_val rest 0 false
      else digits_val (String c rest) 0 false
  | EmptyString => None
  end.

(** [str(n)] for an int. *)
Fixpoint digits_of_pos (fuel : nat) (n : Z) (acc : string) : string :=
  match fuel with
  | O => acc
  | S f =>
      let acc := String (ascii_of_nat (Z.to_nat (48 + n mod 10))) acc in
      if n <? 10 then acc else digits_of_pos f (n / 10) acc
  end.

Definition str_Z (n : Z) : string :=
  let m := Z.abs n in
  let ds := digits_of_pos (S (Z.to_nat (Z.log2 m))) m EmptyString in
  if n <? 0 then String "-" ds else ds.

End Py.

(* ------------------------------------------------------------------ *)
(** ** [hashlib.sha256] and [hmac.new(..., hashlib.sha256)] *)

Module SHA256.

Definition w32 (x : Z) : Z := x mod 2 ^ 32.
Definition add32 (x y : Z) : Z := w32 (x + y).
Definition rotr (x : Z) (n : Z) : Z :=
  Z.lor (Z.shiftr x n) (w32 (Z.shiftl x (32 - n))).
Definition not32 (x : Z) : Z := Z.lxor x (2 ^ 32 - 1).

(** The first primes, by trial division. *)
Definition is_prime (n : nat) : bool :=
  (2 <=? n)%nat && forallb (fun d => negb (Nat.eqb (n mod d) 0)) (seq 2 (n - 2)).

Definition primes_upto (n : nat) : list nat := filter is_prime (seq 0 (S n)).

(** Integer cube root by bisection: the largest [x] in [lo, hi) with
    [x^3 <= n], given [lo^3 <= n < hi^3]. *)
Fixpoint icbrt_go (fuel : nat) (n lo hi : Z) : Z :=
  match fuel with
  | O => lo
  | S f =>
      if hi - lo <=? 1 then lo else
      let mid := (lo + hi) / 2 in
      if mid * mid * mid <=? n then icbrt_go f n mid hi else icbrt_go f n lo mid
  end.

Definition icbrt (n : Z) : Z := icbrt_go 128 n 0 (2 ^ (Z.log2 n / 3 + 1)).

(** FIPS 180-4: the round constants are the first 32 bits of the
    fractional parts of the cube roots of the first 64 primes, and the
    initial hash value those of the square roots of the first 8 primes. *)
Definition K : list Z :=
  Eval vm_compute in
  map (fun p => w32 (icbrt (Z.of_nat p * 2 ^ 96))) (firstn 64 (primes_upto 311)).

Definition H0 : list Z :=
  Eval vm_compute in
  map (fun p => w32 (Z.sqrt (Z.of_nat p * 2 ^ 64))) (firstn 8 (primes_upto 19)).

(** Message padding: [0x80], zeros up to 56 mod 64, 64-bit length. *)
Definition pad (msg : list Z) : list Z :=
  let len := Z.of_nat (List.length msg) in
  let zeros := Z.to_nat ((55 - len) mod 64) in
  (msg ++ [0x80] ++ List.repeat 0 zeros ++
   map (fun i => Z.land (Z.shiftr (8 * len) (8 * (7 - Z.of_nat i))) 255) (seq 0 8))%list.

Fixpoint be_words (bs : list Z) : list Z :=
  match bs with
  | a :: b :: c :: d :: rest =>
      (a * 2 ^ 24 + b * 2 ^ 16 + c * 2 ^ 8 + d) :: be_words rest
  | _ => []
  end.

Definition word_bytes (w : Z) : list Z :=
  [Z.shiftr w 24; Z.land (Z.shiftr w 16) 255; Z.land (Z.shiftr w 8) 255; Z.land w 255].

Definition ssig0 (x : Z) : Z := Z.lxor (Z.lxor (rotr x 7) (rotr x 18)) (Z.shiftr x 3).
Definition ssig1 (x : Z) : Z := Z.lxor (Z.lxor (rotr x 17) (rotr x 19)) (Z.shiftr x 10).
Definition bsig0 (x : Z) : Z := Z.lxor (Z.lxor (rotr x 2) (rotr x 13)) (rotr x 22).
Definition bsig1 (x : Z) : Z := Z.lxor (Z.lxor (rotr x 6) (rotr x 11)) (rotr x 25).
Definition ch (x y z : Z) : Z := Z.lxor (Z.land x y) (Z.land (not32 x) z).
Definition maj (x y z : Z) : Z := Z.lxor (Z.lxor (Z.land x y) (Z.land x z)) (Z.land y z).

(** Message schedule: extend 16 words to 64 ([w] holds the words so far,
    most recent first). *)
Fixpoint schedule (n : nat) (w : list Z) : list Z :=
  match n with
  | O => w
  | S n' =>
      let w2 := nth 1 w 0 in let w7 := nth 6 w 0 in
      let w15 := nth 14 w 0 in let w16 := nth 15 w 0 in
      schedule n' (add32 (add32 (ssig1 w2) w7) (add32 (ssig0 w15) w16) :: w)
  end.

Definition round (st : list Z) (kw : Z * Z) : list Z :=
  match st with
  | [a; b; c; d; e; f; g; h] =>
      let t1 := add32 (add32 (add32 h (bsig1 e)) (add32 (ch e f g) (fst kw))) (snd kw) in
      let t2 := add32 (bsig0 a) (maj a b c) in
      [add32 t1 t2; a; b; c; add32 d t1; e; f; g]
  | _ => st
  end.

Definition compress (hs : list Z) (block : list Z) : list Z :=
  let w := rev (schedule 48 (rev (be_words block))) in
  let st := fold_left round (combine K w) hs in
  map (fun p => add32 (fst p) (snd p)) (combine hs st).

Fixpoint blocks (fuel : nat) (bs : list Z) : list (list Z) :=
  match fuel with
  | O => []
  | S f => match bs with
           | [] => []
           | _ => firstn 64 bs :: blocks f (skipn 64 bs)
           end
  end.

(** [hashlib.sha256(msg).digest()]. *)
Definition digest (msg : list Z) : list Z :=
  let p := pad msg in
  flat_map word_bytes (fold_left compress (blocks (List.length p) p) H0).

Definition hex_char (n : Z) : ascii :=
  if n <? 10 then ascii_of_nat (Z.to_nat (48 + n)) else ascii_of_nat (Z.to_nat (87 + n)).

(** [.hexdigest()]: two lowercase hex characters per byte. *)
Definition hex (bs : list Z) : string :=
  string_of_list_ascii
    (flat_map (fun b => [hex_char (Z.shiftr b 4); hex_char (Z.land b 15)]) bs).

Definition sha256_hex (s : string) : string := hex (digest (Py.encode s)).

(** [hmac.new(key, msg, hashlib.sha256).hexdigest()]. *)
Definition hmac_hex (key msg : list Z) : string :=
  let k := if (64 <? List.length key)%nat then digest key else key in
  let k := (k ++ List.repeat 0 (64 - List.length k))%list in
  let inner := digest (map (Z.lxor 0x36) k ++ msg)%list in
  hex (digest (map (Z.lxor 0x5c) k ++ inner)%list).

End SHA256.

(** The embedding agrees with [hashlib] on standard test vectors. *)
Example sha256_abc :
  SHA256.sha256_hex "abc" =
  "ba7816bf8f01cfea414140de5dae2223b00361a396177a9cb410ff61f20015ad".
Proof. vm_compute. reflexivity. Qed.

Example sha256_empty :
  SHA256.sha256_hex "" =
  "e3b0c44298fc1c149afbf4c8996fb92427ae41e4649b934ca495991b7852b855".
Proof. vm_compute. reflexivity. Qed.

Example sha256_two_blocks :
  SHA256.sha256_hex "aaaaaaaaaaaaaaaaaaaaaaaaaaaaaaaaaaaaaaaaaaaaaaaaaaaaaaaaaaaaaaaaaaaaaa" =
  "6bd5e5034855a11241f0dee8fc72850ffd9955b28347a86428b5fa19119f6ad0".
Proof. vm_compute. reflexivity. Qed.

Example hmac_sha256_fox :
  SHA256.hmac_hex (Py.encode "key") (Py.encode "The quick brown fox jumps over the lazy dog") =
  "f7bc83f430538424b13298e6aa6fb143ef4d59a14946175997479dbc2d1a3cd8".
Proof. vm_compute. reflexivity. Qed.

(* ------------------------------------------------------------------ *)
(** ** The Redis server

    A key holds a sorted set (member, score), a string, or a set, and an
    optional expiry deadline; a key whose deadline has passed reads as
    absent.  The keys this program uses are distinguished by prefix
    ([rl:], [block:], [sentinel:]) and each prefix always holds one type,
    so reading a key of another type as empty never arises. *)

Module Redis.

Inductive value :=
| ZSet (ms : list (string * Q))
| Str (s : string)
| SetV (ms : list string).

Record entry := { val : value; expires : option Q }.

Definition store := string -> option entry.

Definition empty : store := fun _ => None.

Definition upd (st : store) (k : string) (e : option entry) : store :=
  fun k' => if String.eqb k' k then e else st k'.

(** The value of [k] at time [now], if the key exists and has not expired. *)
Definition live (st : store) (now : Q) (k : string) : option value :=
  match st k with
  | Some e =>
      match expires e with
      | Some d => if Qle_bool d now then None else Some (val e)
      | None => Some (val e)
      end
  | None => None
  end.

Definition zmembers (st : store) (now : Q) (k : string) : list (string * Q) :=
  match live st now k with Some (ZSet ms) => ms | _ => [] end.

Definition smembers (st : store) (now : Q) (k : string) : list string :=
  match live st now k with Some (SetV ms) => ms | _ => [] end.

(** [ZREMRANGEBYSCORE k -inf hi]: drop the members with score [<= hi]. *)
Definition zremrange_upto (hi : Q) (ms : list (string * Q)) : list (string * Q) :=
  filter (fun p => negb (Qle_bool (snd p) hi)) ms.

(** [ZADD k {m: s}]: update the score of an existing member, else add it. *)
Fixpoint zadd (m : string) (s : Q) (ms : list (string * Q)) : list (string * Q) :=
  match ms with
  | [] => [(m, s)]
  | (m', s') :: rest => if String.eqb m m' then (m, s) :: rest else (m', s') :: zadd m s rest
  end.

(** [ZCOUNT k lo +inf]. *)
Definition zcount (lo : Q) (ms : list (string * Q)) : Z :=
  Z.of_nat (List.length (filter (fun p => Qle_bool lo (snd p)) ms)).

(** [SISMEMBER k m]. *)
Definition sismember (st : store) (now : Q) (k m : string) : bool :=
  existsb (String.eqb m) (smembers st now k).

(** [EXISTS k]. *)
Definition exists_key (st : store) (now : Q) (k : string) : bool :=
  match live st now k with Some _ => true | None => false end.

(** [SET k v EX ttl]. *)
Definition set_ex (st : store) (now : Q) (k v : string) (ttl : Z) : store :=
  upd st k (Some {| val := Str v; expires := Some (now + inject_Z ttl)%Q |}).

(** [SADD k m]: keeps the key's expiry if it exists. *)
Definition sadd (st : store) (now : Q) (k m : string) : store :=
  let ms := smembers st now k in
  let ms' := if existsb (String.eqb m) ms then ms else (ms ++ [m])%list in
  let ttl := match live st now k, st k with
             | Some _, Some e => expires e
             | _, _ => None
             end in
  upd st k (Some {| val := SetV ms'; expires := ttl |}).

(** [SREM k m]: a set left empty is deleted; the expiry is kept. *)
Definition srem (st : store) (now : Q) (k m : string) : store :=
  match live st now k, st k with
  | Some (SetV ms), Some e =>
      match filter (fun x => negb (String.eqb x m)) ms with
      | [] => upd st k None
      | ms' => upd st k (Some {| val := SetV ms'; expires := expires e |})
      end
  | _, _ => st
  end.

(** [DEL k]. *)
Definition del (st : store) (k : string) : store := upd st k None.

(** The pipeline [ZREMRANGEBYSCORE k -inf ws; ZADD k {member: now};
    ZCARD k; EXPIRE k ttl], returning the [ZCARD] result.  (When the
    removal empties the set Redis deletes the key and [ZADD] creates it
    again; the final state is the same.) *)
Definition window_pipeline (k : string) (now ws : Q) (member : string) (ttl : Z)
    (st : store) : Z * store :=
  let ms := zadd member now (zremrange_upto ws (zmembers st now k)) in
  (Z.of_nat (List.length ms),
   upd st k (Some {| val := ZSet ms; expires := Some (now + inject_Z ttl)%Q |})).

End Redis.

(** [redis_manager.client]: [None] when Redis is unavailable, otherwise
    the connected server's state. *)
Definition client := option Redis.store.

(** The settings the code reads. *)
Record Settings := {
  rate_limit_per_ip : Z;
  rate_limit_per_subnet : Z;
  rate_limit_global : Z;
}.

(* ------------------------------------------------------------------ *)
(** ** [RateLimiter] (src/mitigation/rate_limiter.py)

    Each coroutine takes the clock reading [now] ([time.time()]) and the
    fresh member string [f"{now}:{uuid4().hex[:8]}"] as inputs. *)

Module RateLimiter.
Import Redis.

Definition WINDOW_SEC : Z := 60.

(** [IPv4Address] octet parsing: 1 to 3 ASCII digits, no leading zero,
    at most 255. *)
Definition parse_octet (s : string) : option Z :=
  match s with
  | EmptyString => None
  | String c rest =>
      if negb (forallb Py.is_digit (list_ascii_of_string s)) then None
      else if (3 <? String.length s)%nat then None
      else if Ascii.eqb c "0"%char && negb (String.eqb rest "") then None
      else match Py.int_of_string s with
           | Some n => if n <=? 255 then Some n else None
           | None => None
           end
  end.

(** [_ip_to_subnet]: [str(IPv4Network(f"{addr}/24", strict=False))], or
    the input itself on [ValueError].  A valid dotted quad has no leading
    zeros, so [str(addr)]'s octets are the input's octets. *)
Definition _ip_to_subnet (ip : string) : string :=
  match Py.split "." ip with
  | [a; b; c; d] =>
      match parse_octet a, parse_octet b, parse_octet c, parse_octet d with
      | Some _, Some _, Some _, Some _ => a ++ "." ++ b ++ "." ++ c ++ ".0/24"
      | _, _, _, _ => ip
      end
  | _ => ip
  end.

Definition ip_key (ip : string) : string := "rl:ip:" ++ ip.
Definition sub_key (ip : string) : string := "rl:sub:" ++ _ip_to_subnet ip.
Definition global_key : string := "rl:global".

Definition _get_count (key : string) (now ws : Q) (r : client) : Z :=
  match r with
  | None => 0
  | Some st => zcount ws (zmembers st now key)
  end.

Definition _check_key (key : string) (now ws : Q) (member : string) (limit : Z)
    (r : client) : bool * client :=
  match r with
  | None => (true, None)
  | Some st =>
      let '(count, st') := window_pipeline key now ws member (WINDOW_SEC + 10) st in
      (count <=? limit, Some st')
  end.

Definition allow (cfg : Settings) (client_ip : string) (now : Q) (member : string)
    (r : client) : bool * client :=
  match r with
  | None => (true, None)
  | Some _ =>
      let window_start := (now - inject_Z WINDOW_SEC)%Q in
      let '(ok, r) := _check_key (ip_key client_ip) now window_start member
                        (rate_limit_per_ip cfg) r in
      if negb ok then (false, r) else
      let '(ok, r) := _check_key (sub_key client_ip) now window_start member
                        (rate_limit_per_subnet cfg) r in
      if negb ok then (false, r) else
      let '(ok, r) := _check_key global_key now window_start member
                        (rate_limit_global cfg) r in
      if negb ok then (false, r) else (true, r)
  end.

Definition allow_with_count (cfg : Settings) (client_ip : string) (now : Q)
    (member : string) (r : client) : (bool * Z) * client :=
  match r with
  | None => ((true, 0), None)
  | Some _ =>
      let window_start := (now - inject_Z WINDOW_SEC)%Q in
      let ik := ip_key client_ip in
      let '(ok, r) := _check_key ik now window_start member (rate_limit_per_ip cfg) r in
      if negb ok then ((false, _get_count ik now window_start r), r) else
      let '(ok, r) := _check_key (sub_key client_ip) now window_start member
                        (rate_limit_per_subnet cfg) r in
      if negb ok then ((false, _get_count ik now window_start r), r) else
      let '(ok, r) := _check_key global_key now window_start member
                        (rate_limit_global cfg) r in
      if negb ok then ((false, _get_count ik now window_start r), r) else
      ((true, _get_count ik now window_start r), r)
  end.

Definition rule_key (rule_name client_ip : string) : string :=
  "rl:rule:" ++ rule_name ++ ":" ++ client_ip.

Definition check_rule_limit (client_ip rule_name : string) (limit window_sec : Z)
    (now : Q) (member : string) (r : client) : (bool * Z) * client :=
  match r with
  | None => ((true, 0), None)
  | Some st =>
      let window_start := (now - inject_Z window_sec)%Q in
      let '(count, st') := window_pipeline (rule_key rule_name client_ip) now
                             window_start member (window_sec + 10) st in
      ((count <=? limit, count), Some st')
  end.

Definition get_ip_count (client_ip : string) (now : Q) (r : client) : Z :=
  match r with
  | None => 0
  | Some _ => _get_count (ip_key client_ip) now (now - inject_Z WINDOW_SEC)%Q r
  end.

(** The per-IP [ZCARD] seen by each of a sequence of [allow] calls (the
    result of the first pipeline of [allow]), paired with the call's
    result. *)
Fixpoint allow_trace (cfg : Settings) (client_ip : string)
    (calls : list (Q * string)) (r : client) : list (Z * bool) :=
  match calls with
  | [] => []
  | (now, member) :: rest =>
      let count :=
        match r with
        | Some st => fst (window_pipeline (ip_key client_ip) now
                            (now - inject_Z WINDOW_SEC)%Q member (WINDOW_SEC + 10) st)
        | None => 0
        end in
      let '(ok, r') := allow cfg client_ip now member r in
      (count, ok) :: allow_trace cfg client_ip rest r'
  end.

End RateLimiter.

(* ------------------------------------------------------------------ *)
(** ** [IPBlocker] (src/mitigation/blocker.py) *)

Module IPBlocker.
Import Redis.

Definition BLOCKLIST_KEY : string := "sentinel:blocklist".
Definition ALLOWLIST_KEY : string := "sentinel:allowlist".

Definition is_blocked (ip : string) (now : Q) (r : client) : bool :=
  match r with
  | None => false
  | Some st =>
      if sismember st now ALLOWLIST_KEY ip then false
      else if exists_key st now ("block:" ++ ip) then true
      else sismember st now BLOCKLIST_KEY ip
  end.

(** [block]: [duration_sec] falsy ([None] or [0]) means a permanent block. *)
Definition block (ip reason : string) (duration_sec : option Z) (now : Q)
    (r : client) : client :=
  match r with
  | None => None
  | Some st =>
      match duration_sec with
      | Some d => if d =? 0 then Some (sadd st now BLOCKLIST_KEY ip)
                  else Some (set_ex st now ("block:" ++ ip) reason d)
      | None => Some (sadd st now BLOCKLIST_KEY ip)
      end
  end.

(** [unblock]: [DEL block:<ip>], then [SREM] from the blocklist. *)
Definition unblock (ip : string) (now : Q) (r : client) : client :=
  match r with
  | None => None
  | Some st => Some (srem (del st ("block:" ++ ip)) now BLOCKLIST_KEY ip)
  end.

(** [allow]: [SADD] to the allowlist. *)
Definition allow (ip : string) (now : Q) (r : client) : client :=
  match r with
  | None => None
  | Some st => Some (sadd st now ALLOWLIST_KEY ip)
  end.

(** [get_blocked_ips]: the members of the blocklist set. *)
Definition get_blocked_ips (now : Q) (r : client) : list string :=
  match r with
  | None => []
  | Some st => smembers st now BLOCKLIST_KEY
  end.

End IPBlocker.

Example subnet_of_dotted_quad :
  RateLimiter._ip_to_subnet "10.1.2.3" = "10.1.2.0/24".
Proof. reflexivity. Qed.

Example subnet_of_bad_ip :
  RateLimiter._ip_to_subnet "10.01.2.3" = "10.01.2.3".
Proof. reflexivity. Qed.

(* ------------------------------------------------------------------ *)
(** ** HTTP responses *)

Inductive body :=
| Text (s : string)
| ChallengePage (token : string).   (** [_render_challenge_page(token)] *)

Record Response := { status_code : Z; content : body }.

(* ------------------------------------------------------------------ *)
(** ** [ChallengeManager] (src/mitigation/challenge.py)

    [_secret] is [settings.jwt_secret.encode()]. *)

Module Challenge.

Definition CHALLENGE_TTL : Z := 3600.

(** [float(n)] raises [OverflowError] exactly when [n] rounds to a
    magnitude of [2^1024] or more, i.e. when [|n| >= 2^1024 - 2^970]. *)
Definition FLOAT_OVERFLOW : Z := 2 ^ 1024 - 2 ^ 970.

(** [int(x)] for the float [time.time()] (truncation toward zero). *)
Definition trunc (x : Q) : Z :=
  if Qle_bool 0 x then Qfloor x else - Qfloor (- x).

Definition _generate_challenge (secret : list Z) (client_ip : string) (now : Q)
    (nonce : string) : string :=
  let ts := Py.str_Z (trunc now) in
  let data := client_ip ++ ":" ++ nonce ++ ":" ++ ts in
  let sig := SHA256.hmac_hex secret (Py.encode data) in
  data ++ ":" ++ sig.

(** [_verify_token]; every exception inside the [try] ([ValueError] from
    [int], [OverflowError] from the float subtraction) is [False]. *)
Definition _verify_token (secret : list Z) (token client_ip : string) (now : Q) : bool :=
  match Py.split ":" token with
  | [ip; nonce; ts; sig; pow_nonce] =>
      if negb (String.eqb ip client_ip) then false else
      match Py.int_of_string ts with
      | None => false
      | Some n =>
          if FLOAT_OVERFLOW <=? Z.abs n then false else
          if negb (Qle_bool (now - inject_Z n) (inject_Z CHALLENGE_TTL)) then false else
          let original := ip ++ ":" ++ nonce ++ ":" ++ ts in
          let expected := SHA256.hmac_hex secret (Py.encode original) in
          if negb (String.eqb sig expected) then false else
          let full_token := original ++ ":" ++ sig in
          let pow_input := full_token ++ ":" ++ pow_nonce in
          Py.startswith (SHA256.sha256_hex pow_input) "00"
      end
  | _ => false
  end.

(** [maybe_challenge]: [cookie] is [request.cookies.get(CHALLENGE_COOKIE)];
    [nonce] is [secrets.token_hex(16)]. *)
Definition maybe_challenge (secret : list Z) (cookie : option string)
    (client_ip : string) (now : Q) (nonce : string) : option Response :=
  let valid := match cookie with
               | Some c => negb (String.eqb c "") && _verify_token secret c client_ip now
               | None => false
               end in
  if valid then None else
  let token := _generate_challenge secret client_ip now nonce in
  Some {| status_code := 503; content := ChallengePage token |}.

End Challenge.

(* ------------------------------------------------------------------ *)
(** ** [RequestFingerprint] (src/proxy/fingerprint.py) *)

Module Fingerprint.

Record RequestFingerprint := {
  client_ip : string;
  ja3_hash : option string;
  header_order_hash : option string;
  user_agent : option string;
  accept_language : option string;
  accept_encoding : option string;
  connection_type : option string;
  raw_headers : list (string * string);
}.

(** [x or ""] for an optional string. *)
Definition or_empty (o : option string) : string :=
  match o with Some s => s | None => "" end.

Definition composite_id (fp : RequestFingerprint) : string :=
  let parts := [or_empty (ja3_hash fp); or_empty (header_order_hash fp);
                or_empty (user_agent fp); or_empty (accept_language fp)] in
  let digest := Py.take 16 (SHA256.sha256_hex (Py.join "|" parts)) in
  client_ip fp ++ ":" ++ digest.

End Fingerprint.

(* ------------------------------------------------------------------ *)
(** ** Float comparisons on the rational model *)

Definition Qltb (x y : Q) : bool := negb (Qle_bool y x).

(* ------------------------------------------------------------------ *)
(** ** [AttackClassifier] (src/detection/classifier.py) *)

Module Classifier.

Inductive AttackType :=
| HTTP_FLOOD | SLOWLORIS | API_ABUSE | CREDENTIAL_STUFFING | SCRAPING | UNKNOWN.

(** The keys of the [features] dict that [classify] reads; [None] is a
    missing key. *)
Record Features := {
  f_method : option string;
  f_path : option string;
  f_user_agent : option string;
  f_content_length : option Z;
}.

Definition get {A} (o : option A) (default : A) : A :=
  match o with Some x => x | None => default end.

Definition login_paths : list string :=
  ["/login"; "/auth"; "/api/login"; "/api/auth"; "/signin"; "/api/signin"].

Definition mem (s : string) (l : list string) : bool := existsb (String.eqb s) l.

Definition classify (features : Features) (rate_count rate_limit : Z)
    (behavior_score : Q) : option AttackType :=
  let method := get (f_method features) "GET" in
  let path := get (f_path features) "/" in
  let ua := get (f_user_agent features) "" in
  let content_length := get (f_content_length features) 0 in
  let rate_ratio := if 0 <? rate_limit then (inject_Z rate_count / inject_Z rate_limit)%Q
                    else 0%Q in
  if Qltb 0.6 rate_ratio && (String.eqb ua "" || Qltb 0.5 behavior_score) then
    Some HTTP_FLOOD
  else if Qltb 0.85 rate_ratio then Some HTTP_FLOOD
  else if (content_length =? 0) && String.eqb method "POST" && Qltb 0.3 behavior_score then
    Some SLOWLORIS
  else if mem (Py.lower path) login_paths && String.eqb method "POST" && Qltb 0.3 rate_ratio then
    Some CREDENTIAL_STUFFING
  else if Py.contains path "/api/" && mem method ["POST"; "PUT"; "DELETE"] &&
          (Qltb 0.5 rate_ratio || Qltb 0.6 behavior_score) then
    Some API_ABUSE
  else if String.eqb method "GET" && Qltb 0.6 behavior_score && Qltb 0.4 rate_ratio then
    Some SCRAPING
  else None.

(** The classifier as the specification words it: the ratio [r], and the
    label of the first rule of a fixed list whose condition holds. *)
Definition spec_ratio (rate_count rate_limit : Z) : Q :=
  if 0 <? rate_limit then (inject_Z rate_count / inject_Z rate_limit)%Q else 0%Q.

Definition eq_ignore_case (a b : string) : bool := String.eqb (Py.lower a) (Py.lower b).

Definition spec_rules (method path ua : string) (content_length : Z) (r b : Q)
    : list (bool * AttackType) :=
  [ (Qltb 0.6 r && (String.eqb ua "" || Qltb 0.5 b), HTTP_FLOOD);
    (Qltb 0.85 r, HTTP_FLOOD);
    ((content_length =? 0) && String.eqb method "POST" && Qltb 0.3 b, SLOWLORIS);
    (existsb (eq_ignore_case path) login_paths && String.eqb method "POST" && Qltb 0.3 r,
     CREDENTIAL_STUFFING);
    (Py.contains path "/api/" &&
     existsb (String.eqb method) ["POST"; "PUT"; "DELETE"] && (Qltb 0.5 r || Qltb 0.6 b),
     API_ABUSE);
    (String.eqb method "GET" && Qltb 0.6 b && Qltb 0.4 r, SCRAPING) ].

Fixpoint first_match (rules : list (bool * AttackType)) : option AttackType :=
  match rules with
  | [] => None
  | (true, label) :: _ => Some label
  | (false, _) :: rest => first_match rest
  end.

Definition classify_spec (features : Features) (rate_count rate_limit : Z)
    (behavior_score : Q) : option AttackType :=
  first_match
    (spec_rules (get (f_method features) "GET") (get (f_path features) "/")
       (get (f_user_agent features) "") (get (f_content_length features) 0)
       (spec_ratio rate_count rate_limit) behavior_score).

End Classifier.

(* ------------------------------------------------------------------ *)
(** ** [AnomalyScorer._z_to_score] (src/detection/scorer.py) *)

Module Scorer.

(** The three [if z < ...] returns, as a function of [z]. *)
Definition _z_ramp (z : Q) : Q :=
  (if Qltb z 1.5 then 0
   else if Qltb z 3.0 then (z - 1.5) / 1.5
   else 1)%Q.

Definition _z_to_score (value mean std : Q) : Q :=
  _z_ramp (if Qeq_bool std 0 then 0 else Qabs (value - mean) / std)%Q.

(** The [BaselineModel] attributes [score] reads. *)
Record Baseline := {
  is_ready : bool;
  mean_header_count : Q;
  std_header_count : Q;
  mean_content_length : Q;
  std_content_length : Q;
}.

(** The [features] entries [score] reads; [None] is a missing key. *)
Record Features := {
  header_count : option Q;
  content_length : option Q;
  user_agent : option string;
  path : option string;
}.

Definition suspicious : list string :=
  ["python-requests"; "curl"; "wget"; "go-http-client";
   "httpclient"; "java/"; "libwww"; "okhttp"].

Definition _score_user_agent (ua : string) : Q :=
  if String.eqb ua "" then 0.9%Q else
  let ua_lower := Py.lower ua in
  if existsb (fun s => Py.contains ua_lower s) suspicious then 0.5%Q else 0%Q.

(** [len(set(path))] is the number of distinct characters. *)
Definition _score_path (path : string) : Q :=
  if (512 <? String.length path)%nat then 0.8%Q
  else if (40 <? List.length (nodup ascii_dec (list_ascii_of_string path)))%nat then 0.5%Q
  else 0%Q.

(** [min(1.0, max(0.0, x))]. *)
Definition clamp01 (x : Q) : Q := Qmin 1 (Qmax 0 x).

(** [score]: the weighted sum over [WEIGHTS] in its order. *)
Definition score (features : Features) (baseline : Baseline) (rate_ratio behavior_score : Q) : Q :=
  if negb (is_ready baseline) then 0%Q else
  let hc := Classifier.get (header_count features) 0%Q in
  let s_hc := _z_to_score hc (mean_header_count baseline) (std_header_count baseline) in
  let cl := Classifier.get (content_length features) 0%Q in
  let s_cl := _z_to_score cl (mean_content_length baseline) (std_content_length baseline) in
  let s_ua := _score_user_agent (Classifier.get (user_agent features) "") in
  let s_path := _score_path (Classifier.get (path features) "/") in
  let s_rate := clamp01 rate_ratio in
  let s_beh := clamp01 behavior_score in
  let composite := (0 + s_hc * 0.15 + s_cl * 0.10 + s_ua * 0.20 + s_path * 0.10
                    + s_rate * 0.20 + s_beh * 0.25)%Q in
  clamp01 composite.

End Scorer.

(* ------------------------------------------------------------------ *)
(** ** [BehaviorAnalyzer] (src/detection/behavior.py) *)

Module Behavior.

Definition SESSION_TTL : Q := 600.
Definition MAX_TRACKED : Z := 50000.

(** [deque(maxlen=n).append(x)]. *)
Definition dq_append {A} (maxlen : nat) (l : list A) (x : A) : list A :=
  let l' := (l ++ [x])%list in
  if (maxlen <? List.length l')%nat then tl l' else l'.

(** [set.add(x)] on a set kept as a duplicate-free list. *)
Definition set_add (l : list string) (x : string) : list string :=
  if existsb (String.eqb x) l then l else (l ++ [x])%list.

Record IPSession := {
  first_seen : Q;
  last_seen : Q;
  request_count : Z;
  inter_arrival_times : list Q;     (** deque, maxlen 200 *)
  paths_visited : list string;      (** deque, maxlen 100 *)
  methods_used : list string;
  has_referer : bool;
  has_cookies : bool;
  user_agents : list string;
  accept_languages : list string;
  header_order_hashes : list string;
}.

Definition new_session : IPSession :=
  {| first_seen := 0; last_seen := 0; request_count := 0; inter_arrival_times := [];
     paths_visited := []; methods_used := []; has_referer := false; has_cookies := false;
     user_agents := []; accept_languages := []; header_order_hashes := [] |}.

(** Truthiness of a [str | None]. *)
Definition truthy (o : option string) : bool :=
  match o with Some s => negb (String.eqb s "") | None => false end.

Definition record (s : IPSession) (now : Q) (path method user_agent accept_language : string)
    (referer cookie : option string) (header_order_hash : string) : IPSession :=
  let first := if Qeq_bool (first_seen s) 0 then now else first_seen s in
  let iats := if Qltb 0 (last_seen s)
              then dq_append 200 (inter_arrival_times s) (now - last_seen s)%Q
              else inter_arrival_times s in
  {| first_seen := first;
     last_seen := now;
     request_count := request_count s + 1;
     inter_arrival_times := iats;
     paths_visited := dq_append 100 (paths_visited s) path;
     methods_used := set_add (methods_used s) method;
     has_referer := if truthy referer then true else has_referer s;
     has_cookies := if truthy cookie then true else has_cookies s;
     user_agents := if String.eqb user_agent "" then user_agents s
                    else set_add (user_agents s) user_agent;
     accept_languages := if String.eqb accept_language "" then accept_languages s
                         else set_add (accept_languages s) accept_language;
     header_order_hashes := set_add (header_order_hashes s) header_order_hash |}.

Definition Qsum (l : list Q) : Q := fold_left Qplus l 0%Q.

Definition len_Q {A} (l : list A) : Q := inject_Z (Z.of_nat (List.length l)).

(** [std / mean < c] for [c > 0] and [mean <> 0], without the square root:
    a negative mean gives a non-positive ratio; for a positive mean,
    [sqrt(variance) < c * mean] iff [variance < (c * mean)^2]. *)
Definition cv_lt (variance mean c : Q) : bool :=
  if Qltb mean 0 then true else Qltb variance (c * mean * (c * mean))%Q.

Definition _timing_regularity (s : IPSession) : Q :=
  let intervals := inter_arrival_times s in
  if (List.length intervals <? 5)%nat then 0%Q else
  let mean_iat := (Qsum intervals / len_Q intervals)%Q in
  if Qeq_bool mean_iat 0 then 1%Q else
  let variance :=
    (Qsum (map (fun x => (x - mean_iat) * (x - mean_iat)) intervals) / len_Q intervals)%Q in
  if cv_lt variance mean_iat 0.05 then 1%Q
  else if cv_lt variance mean_iat 0.15 then 0.7%Q
  else if cv_lt variance mean_iat 0.3 then 0.3%Q
  else 0%Q.

Definition _path_diversity (s : IPSession) : Q :=
  let paths := paths_visited s in
  match paths with
  | [] => 0%Q
  | _ => (len_Q (nodup string_dec paths) / len_Q paths)%Q
  end.

Definition Qmin1 (score : Q) : Q := if Qltb score 1 then score else 1%Q.

Definition _header_consistency (s : IPSession) : Q :=
  let score := 0%Q in
  let score := if (1 <? List.length (user_agents s))%nat then (score + 0.5)%Q else score in
  let score := if (2 <? List.length (accept_languages s))%nat then (score + 0.3)%Q else score in
  let score := if (2 <? List.length (header_order_hashes s))%nat then (score + 0.2)%Q else score in
  Qmin1 score.

Definition _rate_score (s : IPSession) : Q :=
  let duration := (last_seen s - first_seen s)%Q in
  if Qltb duration 1 then 0%Q else
  let rps := (inject_Z (request_count s) / duration)%Q in
  if Qltb 20 rps then 1%Q
  else if Qltb 10 rps then 0.7%Q
  else if Qltb 5 rps then 0.3%Q
  else 0%Q.

Definition _browser_indicators (s : IPSession) : Q :=
  let score := 0%Q in
  let score := if negb (has_referer s) && (5 <? request_count s) then (score + 0.4)%Q else score in
  let score := if negb (has_cookies s) && (3 <? request_count s) then (score + 0.3)%Q else score in
  let score := match accept_languages s with [] => (score + 0.3)%Q | _ => score end in
  Qmin1 score.

Definition _compute_score (s : IPSession) : Q :=
  if request_count s <? 3 then 0%Q else
  let signals :=
    [(_timing_regularity s, 0.30%Q);
     ((1 - _path_diversity s)%Q, 0.15%Q);
     (_header_consistency s, 0.15%Q);
     (_rate_score s, 0.20%Q);
     (_browser_indicators s, 0.20%Q)] in
  let composite := Qsum (map (fun vw => (fst vw * snd vw)%Q) signals) in
  let m := if Qltb 0 composite then composite else 0%Q in   (* max(0.0, composite) *)
  if Qltb m 1 then m else 1%Q.                               (* min(1.0, ...) *)

(** The analyzer: [_sessions] in dict (insertion) order, and [_last_cleanup]. *)
Record Analyzer := { sessions : list (string * IPSession); last_cleanup : Q }.

Fixpoint lookup (l : list (string * IPSession)) (k : string) : option IPSession :=
  match l with
  | [] => None
  | (k', v) :: rest => if String.eqb k k' then Some v else lookup rest k
  end.

(** [d[k] = v]: in place when present, else appended. *)
Fixpoint assign (l : list (string * IPSession)) (k : string) (v : IPSession)
    : list (string * IPSession) :=
  match l with
  | [] => [(k, v)]
  | (k', v') :: rest => if String.eqb k k' then (k, v) :: rest else (k', v') :: assign rest k v
  end.

Definition remove (l : list (string * IPSession)) (k : string) : list (string * IPSession) :=
  filter (fun kv => negb (String.eqb (fst kv) k)) l.

(** [min(d, key=lambda k: d[k].last_seen)]: the first key of least [last_seen]. *)
Fixpoint oldest_from (l : list (string * IPSession)) (best : string * IPSession) : string :=
  match l with
  | [] => fst best
  | kv :: rest =>
      if Qltb (last_seen (snd kv)) (last_seen (snd best)) then oldest_from rest kv
      else oldest_from rest best
  end.

Definition get_session (a : Analyzer) (client_ip : string) : option IPSession :=
  lookup (sessions a) client_ip.

Definition _maybe_cleanup (a : Analyzer) (now : Q) : Analyzer :=
  if Qltb (now - last_cleanup a) 60 then a else
  let cutoff := (now - SESSION_TTL)%Q in
  {| sessions := filter (fun kv => negb (Qltb (last_seen (snd kv)) cutoff)) (sessions a);
     last_cleanup := now |}.

(** [record_and_score]: the session object stored in the dict is the one
    [record] mutates, so the dict ends up holding the recorded session. *)
Definition record_and_score (a : Analyzer) (now : Q) (client_ip path method user_agent
    accept_language : string) (referer cookie : option string) (header_order_hash : string)
    : Q * Analyzer :=
  let a := _maybe_cleanup a now in
  let '(session, table) :=
    match lookup (sessions a) client_ip with
    | Some s => (s, sessions a)
    | None =>
        let table :=
          match sessions a with
          | first :: rest =>
              if MAX_TRACKED <=? Z.of_nat (List.length (sessions a))
              then remove (sessions a) (oldest_from rest first)
              else sessions a
          | [] => []
          end in
        (new_session, assign table client_ip new_session)
    end in
  let session := record session now path method user_agent accept_language referer cookie
                   header_order_hash in
  (_compute_score session,
   {| sessions := assign table client_ip session; last_cleanup := last_cleanup a |}).

End Behavior.

(* ------------------------------------------------------------------ *)
(** ** [RulesEngine] (src/rules/engine.py) *)

Module Rules.

Record RateLimit := { per_ip : option string; per_subnet : option string }.

Record EscalationStep := { threshold : Q; action : string; duration : option string }.

Record Rule := {
  name : string;
  match_path : option string;
  match_method : option string;
  limits : option RateLimit;
  escalation : list EscalationStep;
  enabled : bool;
}.

Definition truthy (o : option string) : bool :=
  match o with Some s => negb (String.eqb s "") | None => false end.

Definition _path_matches (request_path rule_path : string) : bool :=
  if Py.endswith rule_path "*" then Py.startswith request_path (Py.drop_last rule_path)
  else String.eqb request_path rule_path.

Definition rule_matches (path method : string) (rule : Rule) : bool :=
  if negb (enabled rule) then false
  else if truthy (match_path rule) &&
          negb (_path_matches path (Classifier.get (match_path rule) "")) then false
  else if truthy (match_method rule) &&
          negb (String.eqb (Py.upper (Classifier.get (match_method rule) "")) (Py.upper method))
  then false
  else true.

Definition match_request (rules : list Rule) (path method : string) : list Rule :=
  filter (rule_matches path method) rules.

Definition unit_map (unit : string) : option Z :=
  if String.eqb unit "second" then Some 1
  else if String.eqb unit "minute" then Some 60
  else if String.eqb unit "hour" then Some 3600
  else if String.eqb unit "day" then Some 86400
  else None.

(** [parse_rate_string]; [None] is the [ValueError] raised by [int]. *)
Definition parse_rate_string (rate_str : string) : option (Z * Z) :=
  let parts := Py.split "/" rate_str in
  match Py.int_of_string (nth 0 parts "") with
  | None => None
  | Some count =>
      let unit := match parts with
                  | _ :: u :: _ => Py.lower u
                  | _ => "minute"
                  end in
      let window := match unit_map unit with Some w => w | None => 60 end in
      Some (count, window)
  end.

End Rules.

(* ------------------------------------------------------------------ *)
(** ** [reverse_proxy] up to the per-rule limits (src/proxy/handler.py) *)

Module Handler.
Import Rules.

(** Stable insertion of a step into a list sorted by threshold. *)
Fixpoint insert_step (x : EscalationStep) (l : list EscalationStep) : list EscalationStep :=
  match l with
  | [] => [x]
  | y :: rest => if Qltb (threshold x) (threshold y) then x :: l else y :: insert_step x rest
  end.

(** [sorted(steps, key=lambda s: s.threshold)] (stable). *)
Definition sort_steps (steps : list EscalationStep) : list EscalationStep :=
  fold_left (fun acc x => insert_step x acc) steps [].

Definition _resolve_escalation (steps : list EscalationStep) (usage_pct : Q) : string :=
  fold_left (fun act step => if Qle_bool (threshold step) usage_pct then action step else act)
            (sort_steps steps) "rate_limit".

(** [_duration_to_seconds]; [None] is the [ValueError] raised by [int]. *)
Definition _duration_to_seconds (dur : string) : option Z :=
  let dur := Py.lower (Py.strip dur) in
  let scaled k := option_map (fun n => n * k) (Py.int_of_string (Py.drop_last dur)) in
  if Py.endswith dur "m" then scaled 60
  else if Py.endswith dur "h" then scaled 3600
  else if Py.endswith dur "d" then scaled 86400
  else if Py.endswith dur "s" then scaled 1
  else Py.int_of_string dur.

(** [_parse_duration]: the outer [None] is an exception. *)
Fixpoint first_duration (steps : list EscalationStep) : option (option Z) :=
  match steps with
  | [] => Some None
  | step :: rest =>
      if truthy (duration step)
      then option_map Some (_duration_to_seconds (Classifier.get (duration step) ""))
      else first_duration rest
  end.

Definition _parse_duration (steps : list EscalationStep) : option (option Z) :=
  first_duration (rev (sort_steps steps)).

(** Where the request goes after the checks modelled here: a response, on
    to the global rate limiter, or an exception escaping the handler. *)
Inductive Outcome := Respond (resp : Response) | Continue | Raise.

Definition forbidden : Response := {| status_code := 403; content := Text "Forbidden" |}.
Definition too_many : Response := {| status_code := 429; content := Text "Too Many Requests" |}.
Definition not_found : Response := {| status_code := 404; content := Text "" |}.

(** The per-rule loop (step 2).  The [i]-th call to [check_rule_limit]
    draws the member [fresh i]. *)
Fixpoint rule_limits (secret : list Z) (rules : list Rule) (client_ip : string)
    (cookie : option string) (now : Q) (fresh : nat -> string) (nonce : string)
    (i : nat) (r : client) : Outcome * client :=
  match rules with
  | [] => (Continue, r)
  | rule :: rest =>
      let per_ip := match limits rule with Some l => per_ip l | None => None end in
      if negb (truthy per_ip) then
        rule_limits secret rest client_ip cookie now fresh nonce i r
      else
      match parse_rate_string (Classifier.get per_ip "") with
      | None => (Raise, r)
      | Some (limit_count, limit_window) =>
          let '((allowed, count), r) :=
            RateLimiter.check_rule_limit client_ip (name rule) limit_count limit_window
              now (fresh i) r in
          if allowed then
            rule_limits secret rest client_ip cookie now fresh nonce (S i) r
          else
          let usage_pct := if limit_count =? 0 then 0%Q
                           else (inject_Z count / inject_Z limit_count * 100)%Q in
          let escalation_action := _resolve_escalation (escalation rule) usage_pct in
          if String.eqb escalation_action "block" then
            match _parse_duration (escalation rule) with
            | None => (Raise, r)
            | Some dur =>
                let r := IPBlocker.block client_ip ("Rule escalation: " ++ name rule) dur now r in
                (Respond forbidden, r)
            end
          else if String.eqb escalation_action "js_challenge" then
            match Challenge.maybe_challenge secret cookie client_ip now nonce with
            | Some resp => (Respond resp, r)
            | None => (Respond too_many, r)
            end
          else (Respond too_many, r)
      end
  end.

(** [reverse_proxy] up to the end of step 2: [request_path] is
    [request.url.path] and [path] the route parameter. *)
Definition reverse_proxy_prefix (secret : list Z) (rules : list Rule)
    (request_path path method client_ip : string) (cookie : option string) (now : Q)
    (fresh : nat -> string) (nonce : string) (r : client) : Outcome * client :=
  if Py.startswith request_path "/api/" || Py.startswith request_path "/ws/" ||
     Py.startswith request_path "/openapi.json"
  then (Respond not_found, r) else
  let url_path := if String.eqb path "" then "/" else "/" ++ path in
  if IPBlocker.is_blocked client_ip now r then (Respond forbidden, r) else
  let matched_rules := match_request rules url_path method in
  rule_limits secret matched_rules client_ip cookie now fresh nonce 0 r.

(** Step 5: the behavior score the handler recomputes for classification. *)
Definition handler_behavior_score (a : Behavior.Analyzer) (client_ip : string) : Q :=
  match Behavior.get_session a client_ip with
  | Some s => if 3 <=? Behavior.request_count s then Behavior._compute_score s else 0%Q
  | None => 0%Q
  end.

(** [get_client_ip]: [forwarded] is the [X-Forwarded-For] header, [peer]
    the [request.client.host] of the connection, if any. *)
Definition get_client_ip (forwarded peer : option string) : string :=
  let peer_ip := match peer with Some h => h | None => "0.0.0.0" end in
  match forwarded with
  | Some f => if String.eqb f "" then peer_ip else Py.strip (nth 0 (Py.split "," f) "")
  | None => peer_ip
  end.

Inductive ProtectionLevel := MONITOR | JS_CHALLENGE | RATE_LIMIT | BLOCK | BLACKHOLE.

(** Step 5, graduated mitigation, on the threat score. [Continue] is the
    forward to upstream (step 6). Classification, events, logging and alerts
    do not change the response or the store and are left out; [reason]
    stands for the text [f"threat score {threat_score:.2f}"]. *)
Definition graduated_mitigation (secret : list Z) (protection_level : ProtectionLevel)
    (under_attack_mode : bool) (anomaly_threshold threat_score : Q) (client_ip reason : string)
    (cookie : option string) (now : Q) (nonce : string) (r : client) : Outcome * client :=
  let level := if under_attack_mode then BLOCK else protection_level in
  if Qle_bool anomaly_threshold threat_score then
    match level with
    | MONITOR => (Continue, r)
    | JS_CHALLENGE =>
        match Challenge.maybe_challenge secret cookie client_ip now nonce with
        | Some resp => (Respond resp, r)
        | None => (Continue, r)
        end
    | RATE_LIMIT => (Respond too_many, r)
    | BLOCK | BLACKHOLE => (Respond forbidden, IPBlocker.block client_ip reason None now r)
    end
  else (Continue, r).

End Handler.

(* ------------------------------------------------------------------ *)
(** ** [TrafficCounters] (src/proxy/handler.py) *)

Module Traffic.






End Traffic.

(* ------------------------------------------------------------------ *)
(** ** [DetectionEngine.score_request] (src/detection/engine.py) *)

Module Engine.

Definition ML_BLEND_WEIGHT : Q := 0.4.

(** [score_request] on the features of [_extract_features]. The Isolation
    Forest is outside the model: [ml_ready] is [self.ml.is_ready] and
    [ml_score] the value [self.ml.score] returns. The ML sample buffer and
    the baseline observation it records do not enter the returned score and
    are left out; the behavior analyzer's table is threaded through. *)
Definition score_request (a : Behavior.Analyzer) (baseline : Scorer.Baseline)
    (ml_ready : bool) (ml_score : Q) (now : Q)
    (client_ip path method user_agent accept_language : string)
    (referer cookie : option string) (header_order_hash : string)
    (header_count content_length : Q) (rate_count rate_limit : Z)
    : Q * Behavior.Analyzer :=
  let features := {| Scorer.header_count := Some header_count;
                      Scorer.content_length := Some content_length;
                      Scorer.user_agent := Some user_agent;
                      Scorer.path := Some path |} in
  let rate_ratio := if 0 <? rate_limit then (inject_Z rate_count / inject_Z rate_limit)%Q
                    else 0%Q in
  let '(behavior_score, a') :=
    Behavior.record_and_score a now client_ip path method user_agent accept_language
      referer cookie header_order_hash in
  let heuristic_score := Scorer.score features baseline rate_ratio behavior_score in
  let score := if ml_ready
               then ((1 - ML_BLEND_WEIGHT) * heuristic_score + ML_BLEND_WEIGHT * ml_score)%Q
               else heuristic_score in
  (Scorer.clamp01 score, a').

End Engine.

(* ------------------------------------------------------------------ *)
(** ** Sample inputs *)

Module Samples.

Definition cfg_small : Settings :=
  {| rate_limit_per_ip := 2; rate_limit_per_subnet := 10; rate_limit_global := 10 |}.

Definition calls_small : list (Q * string) := [(0, "a"); (1, "b"); (2, "c")]%Q.

Definition secret0 : list Z := Py.encode "s3cret".

(** A solved challenge token issued at [ts = 1700000000]. *)
Definition token_ok : string :=
  "1.2.3.4:ab:1700000000:9bf1b641f41ab6d95dcd1d62505e144f746a94c3bf51a81a17d7479fddb5f51d:88".

(** A correctly signed and solved token whose [ts] is [2^1024]. *)
Definition ts_huge : string :=
  "179769313486231590772930519078902473361797697894230657273430081157732675805500963132708477322407536021120113879871393357658789768814416622492847430639474124377767893424865485276302219601246094119453082952085005768838150682342462881473913110540827237163350510684586298239947245938479716304835356329624224137216".

Definition sig_huge : string :=
  "8e7965a3bf4722b6087ed481c316b711068206c35bc3490ca51a608c30d7b657".

Definition token_huge : string :=
  "1.2.3.4:ab:" ++ ts_huge ++ ":" ++ sig_huge ++ ":213".

(** Two fingerprints that differ only in their [Accept-Encoding]. *)
Definition fp_gzip : Fingerprint.RequestFingerprint := {|
  Fingerprint.client_ip := "1.2.3.4"; Fingerprint.ja3_hash := None;
  Fingerprint.header_order_hash := Some "3f1c"; Fingerprint.user_agent := Some "Mozilla/5.0";
  Fingerprint.accept_language := Some "en-US"; Fingerprint.accept_encoding := Some "gzip";
  Fingerprint.connection_type := None; Fingerprint.raw_headers := [] |}.

Definition fp_br : Fingerprint.RequestFingerprint := {|
  Fingerprint.client_ip := "1.2.3.4"; Fingerprint.ja3_hash := None;
  Fingerprint.header_order_hash := Some "3f1c"; Fingerprint.user_agent := Some "Mozilla/5.0";
  Fingerprint.accept_language := Some "en-US"; Fingerprint.accept_encoding := Some "br";
  Fingerprint.connection_type := None; Fingerprint.raw_headers := [] |}.

(** An analyzer with no sessions yet. *)
Definition analyzer0 : Behavior.Analyzer :=
  {| Behavior.sessions := []; Behavior.last_cleanup := 0 |}.

(** The "Login Protection" rule of the rules engine's test fixture. *)
Definition login_steps : list Rules.EscalationStep :=
  [ {| Rules.threshold := 80; Rules.action := "js_challenge"; Rules.duration := None |};
    {| Rules.threshold := 95; Rules.action := "block"; Rules.duration := Some "1h" |} ].

Definition login_rule_at (match_path : string) : Rules.Rule := {|
  Rules.name := "Login Protection";
  Rules.match_path := Some match_path;
  Rules.match_method := Some "POST";
  Rules.limits := Some {| Rules.per_ip := Some "5/minute"; Rules.per_subnet := Some "50/minute" |};
  Rules.escalation := login_steps;
  Rules.enabled := true |}.

Definition login_rule : Rules.Rule := login_rule_at "/api/login".

(** Successive POSTs from one client without a cookie, one per time in
    [times], through [reverse_proxy] up to the end of the rule stage; the
    [k]-th request draws the members ["k-i"]. *)
Fixpoint run_posts (secret : list Z) (rules : list Rules.Rule)
    (client_ip request_path path : string) (times : list Q) (k : nat) (r : client)
    : list Handler.Outcome * client :=
  match times with
  | [] => ([], r)
  | now :: rest =>
      let fresh i := Py.str_Z (Z.of_nat k) ++ "-" ++ Py.str_Z (Z.of_nat i) in
      let '(o, r') := Handler.reverse_proxy_prefix secret rules request_path path "POST"
                        client_ip None now fresh "n" r in
      let '(os, r'') := run_posts secret rules client_ip request_path path rest (S k) r' in
      (o :: os, r'')
  end.

Definition six_times : list Q := [0; 1; 2; 3; 4; 5]%Q.

End Samples.

(** Further inputs, for the properties beyond the claims. *)
Module ExtraSamples.

(** Escalation steps given out of threshold order. *)
Definition esc_steps : list Rules.EscalationStep :=
  [ {| Rules.threshold := 95; Rules.action := "block"; Rules.duration := Some "1h" |};
    {| Rules.threshold := 80; Rules.action := "js_challenge"; Rules.duration := None |};
    {| Rules.threshold := 90; Rules.action := "block"; Rules.duration := Some "10m" |} ].

(** A baseline still in learning mode. *)
Definition baseline_learning : Scorer.Baseline :=
  {| Scorer.is_ready := false; Scorer.mean_header_count := 0%Q; Scorer.std_header_count := 1%Q;
     Scorer.mean_content_length := 0%Q; Scorer.std_content_length := 1%Q |}.

End ExtraSamples.

(* ------------------------------------------------------------------ *)
(** ** Facts about the store and the sliding window *)

Module WindowFacts.
Import Redis RateLimiter.

(** Number of members stored under [k], ignoring expiry. *)
Definition raw_len (st : store) (k : string) : nat :=
  match st k with Some {| val := ZSet ms |} => List.length ms | _ => 0%nat end.

(** The sorted-set members added by a sequence of calls [(now, member)]. *)
Definition pairs (cs : list (Q * string)) : list (string * Q) :=
  map (fun c => (snd c, fst c)) cs.

Lemma upd_same st k e : upd st k e k = e.
Proof. unfold upd. now rewrite String.eqb_refl. Qed.

Lemma upd_other st k k' e : k' <> k -> upd st k e k' = st k'.
Proof. intros H. unfold upd. apply String.eqb_neq in H. now rewrite H. Qed.

Lemma zmembers_raw st now k : (List.length (zmembers st now k) <= raw_len st k)%nat.
Proof.
  unfold zmembers, live, raw_len.
  destruct (st k) as [[v [d|]]|]; simpl;
    try destruct (Qle_bool d now); try destruct v; simpl; lia.
Qed.

Lemma zadd_length m s ms : (List.length (zadd m s ms) <= S (List.length ms))%nat.
Proof.
  induction ms as [|[m' s'] ms IH]; simpl; [lia|].
  destruct (String.eqb m m'); simpl; lia.
Qed.

Lemma zadd_fresh m s ms : ~ In m (map fst ms) -> zadd m s ms = (ms ++ [(m, s)])%list.
Proof.
  induction ms as [|[m' s'] ms IH]; simpl; intros H; [reflexivity|].
  destruct (String.eqb_spec m m'); [subst; tauto|].
  f_equal. apply IH. tauto.
Qed.

Lemma zremrange_length hi ms : (List.length (zremrange_upto hi ms) <= List.length ms)%nat.
Proof.
  unfold zremrange_upto. induction ms as [|p ms IH]; simpl; [lia|].
  destruct (negb (Qle_bool (snd p) hi)); simpl; lia.
Qed.

Lemma zremrange_keep hi ms :
  (forall p, In p ms -> (hi < snd p)%Q) -> zremrange_upto hi ms = ms.
Proof.
  unfold zremrange_upto. induction ms as [|p ms IH]; simpl; intros H; [reflexivity|].
  destruct (Qle_bool (snd p) hi) eqn:E; simpl.
  - apply Qle_bool_iff in E. specialize (H p (or_introl eq_refl)). lra.
  - f_equal. apply IH. intros; apply H; right; assumption.
Qed.

Lemma pipeline_count_le k now ws m ttl st :
  (fst (window_pipeline k now ws m ttl st) <= Z.of_nat (raw_len st k) + 1)%Z.
Proof.
  unfold window_pipeline; simpl.
  pose proof (zadd_length m now (zremrange_upto ws (zmembers st now k))).
  pose proof (zremrange_length ws (zmembers st now k)).
  pose proof (zmembers_raw st now k). lia.
Qed.

Lemma pipeline_raw k now ws m ttl st :
  Z.of_nat (raw_len (snd (window_pipeline k now ws m ttl st)) k) =
  fst (window_pipeline k now ws m ttl st).
Proof. unfold window_pipeline, raw_len; simpl. now rewrite upd_same. Qed.

Lemma pipeline_other k k' now ws m ttl st :
  k' <> k -> snd (window_pipeline k now ws m ttl st) k' = st k'.
Proof. intros H. unfold window_pipeline; simpl. now apply upd_other. Qed.

Lemma check_key_some k now ws m lim st :
  _check_key k now ws m lim (Some st) =
  (fst (window_pipeline k now ws m (WINDOW_SEC + 10) st) <=? lim,
   Some (snd (window_pipeline k now ws m (WINDOW_SEC + 10) st))).
Proof. unfold _check_key. now destruct (window_pipeline _ _ _ _ _ _). Qed.

Lemma ip_sub_key_neq ip : sub_key ip <> ip_key ip.
Proof. unfold ip_key, sub_key. simpl. intros H. inversion H. Qed.

Lemma ip_global_key_neq ip : global_key <> ip_key ip.
Proof. unfold ip_key, global_key. simpl. intros H. inversion H. Qed.

Lemma sub_global_key_neq ip : global_key <> sub_key ip.
Proof. unfold sub_key, global_key. simpl. intros H. inversion H. Qed.

(** The per-IP sorted set holds exactly the calls made so far, and its
    deadline lies after every remaining call. *)
Definition ip_inv (st : store) (ip : string) (pre cs : list (Q * string)) : Prop :=
  (pre = [] /\ st (ip_key ip) = None) \/
  (exists d, st (ip_key ip) = Some {| val := ZSet (pairs pre); expires := Some d |} /\
             forall t, In t (map fst cs) -> (t < d)%Q).

Lemma ip_inv_members st ip pre cs t m :
  ip_inv st ip pre ((t, m) :: cs) -> zmembers st t (ip_key ip) = pairs pre.
Proof.
  unfold ip_inv, zmembers, live. intros [[-> ->] | [d [-> Hd]]]; [reflexivity|].
  simpl. assert (Hlt : (t < d)%Q) by (apply Hd; left; reflexivity).
  destruct (Qle_bool d t) eqn:E; [apply Qle_bool_iff in E; lra | reflexivity].
Qed.

Lemma map_fst_pairs pre : map fst (pairs pre) = map snd pre.
Proof. unfold pairs. rewrite map_map. reflexivity. Qed.

Lemma ip_pipeline st ip pre cs t m :
  ~ In m (map snd pre) ->
  (forall t0, In t0 (map fst pre) -> (t - t0 < 60)%Q) ->
  ip_inv st ip pre ((t, m) :: cs) ->
  window_pipeline (ip_key ip) t (t - inject_Z WINDOW_SEC)%Q m (WINDOW_SEC + 10) st =
  (Z.of_nat (S (List.length pre)),
   upd st (ip_key ip)
     (Some {| val := ZSet (pairs (pre ++ [(t, m)])); expires := Some (t + inject_Z 70)%Q |})).
Proof.
  intros Hm Ht Hinv. unfold window_pipeline.
  rewrite (ip_inv_members _ _ _ _ _ _ Hinv).
  rewrite zremrange_keep.
  2:{ intros p Hp. unfold pairs in Hp. apply in_map_iff in Hp as [c [<- Hc]].
      simpl. assert (H := Ht (fst c) (in_map _ _ _ Hc)).
      unfold WINDOW_SEC, inject_Z. lra. }
  rewrite zadd_fresh by (rewrite map_fst_pairs; exact Hm).
  replace ((pairs pre ++ [(m, t)])%list) with (pairs (pre ++ [(t, m)])).
  2:{ unfold pairs. rewrite map_app. reflexivity. }
  f_equal. unfold pairs. rewrite length_map, length_app. simpl. lia.
Qed.

(** One [allow] call inside the window, with the subnet and global limits
    above the number of calls so far. *)
Lemma allow_step cfg ip pre cs t m st :
  (Z.of_nat (S (List.length pre)) <= rate_limit_per_subnet cfg)%Z ->
  (Z.of_nat (S (List.length pre)) <= rate_limit_global cfg)%Z ->
  ~ In m (map snd pre) ->
  (forall t0, In t0 (map fst pre) -> (t - t0 < 60)%Q) ->
  ip_inv st ip pre ((t, m) :: cs) ->
  (raw_len st (sub_key ip) <= List.length pre)%nat ->
  (raw_len st global_key <= List.length pre)%nat ->
  exists st',
    allow cfg ip t m (Some st) =
      (Z.of_nat (S (List.length pre)) <=? rate_limit_per_ip cfg, Some st') /\
    st' (ip_key ip) =
      Some {| val := ZSet (pairs (pre ++ [(t, m)])); expires := Some (t + inject_Z 70)%Q |} /\
    (raw_len st' (sub_key ip) <= S (List.length pre))%nat /\
    (raw_len st' global_key <= S (List.length pre))%nat.
Proof.
  intros Hsub Hglob Hm Ht Hinv Hrs Hrg.
  pose proof (ip_pipeline st ip pre cs t m Hm Ht Hinv) as Hip.
  set (st1 := upd st (ip_key ip)
     (Some {| val := ZSet (pairs (pre ++ [(t, m)])); expires := Some (t + inject_Z 70)%Q |})).
  assert (E1 : st1 (ip_key ip) =
     Some {| val := ZSet (pairs (pre ++ [(t, m)])); expires := Some (t + inject_Z 70)%Q |})
    by (apply upd_same).
  assert (Hrs1 : raw_len st1 (sub_key ip) = raw_len st (sub_key ip))
    by (unfold raw_len, st1; rewrite upd_other by apply ip_sub_key_neq; reflexivity).
  assert (Hrg1 : raw_len st1 global_key = raw_len st global_key)
    by (unfold raw_len, st1; rewrite upd_other by apply ip_global_key_neq; reflexivity).
  unfold allow. rewrite check_key_some, Hip. cbn [fst snd]. fold st1.
  destruct (Z.of_nat (S (List.length pre)) <=? rate_limit_per_ip cfg) eqn:Eok; cbn [negb].
  2:{ exists st1. repeat split; [exact E1| rewrite Hrs1; lia | rewrite Hrg1; lia]. }
  rewrite check_key_some.
  set (w2 := window_pipeline (sub_key ip) t (t - inject_Z WINDOW_SEC)%Q m (WINDOW_SEC + 10) st1).
  assert (Hc2 : (fst w2 <= rate_limit_per_subnet cfg)%Z).
  { pose proof (pipeline_count_le (sub_key ip) t (t - inject_Z WINDOW_SEC)%Q m
                  (WINDOW_SEC + 10) st1). fold w2 in H. lia. }
  apply Z.leb_le in Hc2. rewrite Hc2. cbn [negb].
  rewrite check_key_some.
  set (w3 := window_pipeline global_key t (t - inject_Z WINDOW_SEC)%Q m
               (WINDOW_SEC + 10) (snd w2)).
  assert (Hg2 : raw_len (snd w2) global_key = raw_len st1 global_key)
    by (unfold raw_len, w2; rewrite pipeline_other by apply sub_global_key_neq; reflexivity).
  assert (Hc3 : (fst w3 <= rate_limit_global cfg)%Z).
  { pose proof (pipeline_count_le global_key t (t - inject_Z WINDOW_SEC)%Q m
                  (WINDOW_SEC + 10) (snd w2)). fold w3 in H. lia. }
  apply Z.leb_le in Hc3. rewrite Hc3. cbn [negb].
  exists (snd w3). split; [reflexivity|]. split; [|split].
  - unfold w3. rewrite pipeline_other by (apply not_eq_sym, ip_global_key_neq).
    unfold w2. rewrite pipeline_other by (apply not_eq_sym, ip_sub_key_neq). exact E1.
  - unfold raw_len at 1. unfold w3.
    rewrite pipeline_other by (apply not_eq_sym, sub_global_key_neq).
    fold (raw_len (snd w2) (sub_key ip)).
    pose proof (pipeline_raw (sub_key ip) t (t - inject_Z WINDOW_SEC)%Q m
                  (WINDOW_SEC + 10) st1) as R. fold w2 in R.
    pose proof (pipeline_count_le (sub_key ip) t (t - inject_Z WINDOW_SEC)%Q m
                  (WINDOW_SEC + 10) st1). fold w2 in H. lia.
  - pose proof (pipeline_raw global_key t (t - inject_Z WINDOW_SEC)%Q m
                  (WINDOW_SEC + 10) (snd w2)) as R. fold w3 in R.
    pose proof (pipeline_count_le global_key t (t - inject_Z WINDOW_SEC)%Q m
                  (WINDOW_SEC + 10) (snd w2)). fold w3 in H. lia.
Qed.

Lemma allow_trace_from cfg ip : forall cs pre st,
  (Z.of_nat (List.length pre + List.length cs) <= rate_limit_per_subnet cfg)%Z ->
  (Z.of_nat (List.length pre + List.length cs) <= rate_limit_global cfg)%Z ->
  NoDup (map snd (pre ++ cs)) ->
  (forall t1 t2, In t1 (map fst (pre ++ cs)) -> In t2 (map fst (pre ++ cs)) ->
                 (t2 - t1 < 60)%Q) ->
  ip_inv st ip pre cs ->
  (raw_len st (sub_key ip) <= List.length pre)%nat ->
  (raw_len st global_key <= List.length pre)%nat ->
  allow_trace cfg ip cs (Some st) =
  map (fun k => (Z.of_nat k, Z.of_nat k <=? rate_limit_per_ip cfg))
      (seq (S (List.length pre)) (List.length cs)).
Proof.
  induction cs as [|[t m] cs IH]; intros pre st Hsub Hglob Hnd Hwin Hinv Hrs Hrg;
    [reflexivity|].
  assert (Hm : ~ In m (map snd pre)).
  { rewrite map_app in Hnd. simpl in Hnd. apply NoDup_remove_2 in Hnd.
    intros H. apply Hnd, in_or_app. now left. }
  assert (Ht : forall t0, In t0 (map fst pre) -> (t - t0 < 60)%Q).
  { intros t0 H. apply Hwin; rewrite map_app; apply in_or_app; [now left|].
    right; left; reflexivity. }
  simpl List.length in Hsub, Hglob.
  destruct (allow_step cfg ip pre cs t m st) as [st' [Hallow [Hip [Hrs' Hrg']]]];
    try assumption; try lia.
  cbn [allow_trace]. rewrite (ip_pipeline st ip pre cs t m Hm Ht Hinv), Hallow.
  cbn [fst]. simpl seq. cbn [map]. f_equal.
  replace (S (S (List.length pre))) with (S (List.length (pre ++ [(t, m)]))).
  2:{ rewrite length_app. simpl. lia. }
  apply IH; rewrite ?length_app; simpl List.length; try lia;
    try (rewrite <- app_assoc; assumption).
  right. exists (t + inject_Z 70)%Q. split; [exact Hip|].
  intros t' Ht'. assert (H : (t' - t < 60)%Q).
  { apply Hwin; rewrite map_app; apply in_or_app; right; simpl; [left; reflexivity|].
    right; exact Ht'. }
  unfold inject_Z. lra.
Qed.

Lemma allowed_count_min (L : Z) (N : nat) :
  (0 <= L)%Z ->
  Z.of_nat (List.length (filter (fun ok => ok)
              (map (fun k => Z.of_nat k <=? L) (seq 1 N)))) = Z.min (Z.of_nat N) L.
Proof.
  intros HL. induction N as [|N IH]; [simpl; lia|].
  rewrite seq_S, map_app, filter_app, length_app, Nat2Z.inj_add, IH.
  cbn [map]. destruct (Z.of_nat (1 + N) <=? L) eqn:E; cbn [filter List.length];
    [apply Z.leb_le in E | apply Z.leb_gt in E]; lia.
Qed.

End WindowFacts.

(* ------------------------------------------------------------------ *)
(** ** Facts about strings and challenge tokens *)

Module StringFacts.

Lemma str_app_assoc (a b c : string) : ((a ++ b) ++ c)%string = (a ++ b ++ c)%string.
Proof. induction a as [|ch a IH]; simpl; [reflexivity|]. now rewrite IH. Qed.

Lemma join5 (a b c d e : string) :
  Py.join ":" [a; b; c; d; e] = ((a ++ ":" ++ b ++ ":" ++ c) ++ ":" ++ d) ++ ":" ++ e.
Proof. cbn [Py.join]. now rewrite !str_app_assoc. Qed.

Lemma verify_token_true secret token client_ip now :
  Challenge._verify_token secret token client_ip now = true ->
  exists nonce ts sig pow_nonce n,
    Py.split ":" token = [client_ip; nonce; ts; sig; pow_nonce] /\
    Py.int_of_string ts = Some n /\
    Z.abs n < Challenge.FLOAT_OVERFLOW /\
    (now - inject_Z n <= inject_Z Challenge.CHALLENGE_TTL)%Q /\
    sig = SHA256.hmac_hex secret (Py.encode (client_ip ++ ":" ++ nonce ++ ":" ++ ts)) /\
    Py.startswith (SHA256.sha256_hex (Py.join ":" [client_ip; nonce; ts; sig; pow_nonce]))
      "00" = true.
Proof.
  intros H. unfold Challenge._verify_token in H. cbv zeta in H.
  destruct (Py.split ":" token) as [|ip [|nonce [|ts [|sig [|pow [|x rest]]]]]] eqn:Hs;
    try discriminate.
  destruct (String.eqb_spec ip client_ip) as [<-|]; cbn [negb] in H; [|discriminate].
  destruct (Py.int_of_string ts) as [n|] eqn:Hn; [|discriminate].
  destruct (Challenge.FLOAT_OVERFLOW <=? Z.abs n) eqn:Ho; [discriminate|].
  destruct (Qle_bool (now - inject_Z n) (inject_Z Challenge.CHALLENGE_TTL)) eqn:Ht;
    cbn [negb] in H; [|discriminate].
  destruct (String.eqb_spec sig (SHA256.hmac_hex secret
              (Py.encode (ip ++ ":" ++ nonce ++ ":" ++ ts)))) as [Hsig|];
    cbn [negb] in H; [|discriminate].
  exists nonce, ts, sig, pow, n.
  split; [reflexivity|]. split; [exact Hn|].
  split; [apply Z.leb_gt; exact Ho|]. split; [apply Qle_bool_iff; exact Ht|].
  split; [exact Hsig|]. rewrite join5. exact H.
Qed.

Lemma verify_token_of_conditions secret token client_ip now nonce ts sig pow_nonce n :
  Py.split ":" token = [client_ip; nonce; ts; sig; pow_nonce] ->
  Py.int_of_string ts = Some n ->
  Z.abs n < Challenge.FLOAT_OVERFLOW ->
  (now - inject_Z n <= inject_Z Challenge.CHALLENGE_TTL)%Q ->
  sig = SHA256.hmac_hex secret (Py.encode (client_ip ++ ":" ++ nonce ++ ":" ++ ts)) ->
  Py.startswith (SHA256.sha256_hex (Py.join ":" [client_ip; nonce; ts; sig; pow_nonce]))
    "00" = true ->
  Challenge._verify_token secret token client_ip now = true.
Proof.
  intros Hs Hn Ho Ht Hsig Hpow. unfold Challenge._verify_token. cbv zeta.
  rewrite Hs, String.eqb_refl, Hn. cbn [negb].
  apply Z.leb_gt in Ho. rewrite Ho.
  apply Qle_bool_iff in Ht. rewrite Ht. cbn [negb].
  rewrite <- Hsig, String.eqb_refl. cbn [negb].
  rewrite <- join5. exact Hpow.
Qed.

End StringFacts.

(* ================================================================== *)
(** ** Facts about [_z_to_score] *)

Module ScorerFacts.
Import Scorer.

Lemma Qltb_true x y : Qltb x y = true -> (x < y)%Q.
Proof.
  unfold Qltb. destruct (Qle_bool y x) eqn:E; cbn [negb]; intros H; [discriminate|].
  apply Qnot_le_lt. intros Hle. apply Qle_bool_iff in Hle. congruence.
Qed.

Lemma Qltb_false x y : Qltb x y = false -> (y <= x)%Q.
Proof.
  unfold Qltb. destruct (Qle_bool y x) eqn:E; cbn [negb]; intros H; [|discriminate].
  now apply Qle_bool_iff.
Qed.

Ltac case_qltb :=
  match goal with
  | |- context [Qltb ?a ?b] =>
      let E := fresh "E" in
      destruct (Qltb a b) eqn:E; [apply Qltb_true in E | apply Qltb_false in E]
  end.

Ltac ramp_arith :=
  unfold _z_ramp; repeat case_qltb; unfold Qdiv in *;
  change (/ 1.5)%Q with (10 # 15)%Q in *; lra.

Lemma ramp_low z : (z <= 1.5)%Q -> (_z_ramp z == 0)%Q.
Proof. intros. ramp_arith. Qed.

Lemma ramp_mid z : (1.5 <= z)%Q -> (z <= 3)%Q -> (_z_ramp z == (z - 1.5) / 1.5)%Q.
Proof. intros. ramp_arith. Qed.

Lemma ramp_high z : (3 <= z)%Q -> (_z_ramp z == 1)%Q.
Proof. intros. ramp_arith. Qed.

Lemma ramp_mono z1 z2 : (z1 <= z2)%Q -> (_z_ramp z1 <= _z_ramp z2)%Q.
Proof.
  intros. unfold _z_ramp. repeat case_qltb; unfold Qdiv in *;
    change (/ 1.5)%Q with (10 # 15)%Q in *; lra.
Qed.

Lemma ramp_lipschitz z1 z2 : (Qabs (_z_ramp z1 - _z_ramp z2) <= Qabs (z1 - z2))%Q.
Proof.
  unfold _z_ramp. repeat case_qltb; unfold Qdiv in *;
    change (/ 1.5)%Q with (10 # 15)%Q in *;
    apply Qabs_case; intros; apply Qabs_case; intros; lra.
Qed.

Lemma z_to_score_pos value mean std :
  (0 < std)%Q -> _z_to_score value mean std = _z_ramp (Qabs (value - mean) / std).
Proof.
  intros Hs. unfold _z_to_score.
  destruct (Qeq_bool std 0) eqn:E; [|reflexivity].
  apply Qeq_bool_iff in E. rewrite E in Hs. discriminate Hs.
Qed.

Lemma div_pos_le a b s : (0 < s)%Q -> (a <= b)%Q -> (a / s <= b / s)%Q.
Proof.
  intros Hs Hab. unfold Qdiv. apply Qmult_le_compat_r; [exact Hab|].
  apply Qinv_le_0_compat. lra.
Qed.

Lemma div_pos_abs_lt a b s e :
  (0 < s)%Q -> (Qabs (a - b) < e * s)%Q -> (Qabs (a / s - b / s) < e)%Q.
Proof.
  intros Hs H.
  assert (Heq : (a / s - b / s == (a - b) * / s)%Q) by (unfold Qdiv; ring).
  rewrite Heq, Qabs_Qmult.
  assert (Hinv : (Qabs (/ s) == / s)%Q).
  { apply Qabs_pos, Qinv_le_0_compat. lra. }
  rewrite Hinv. apply Qlt_shift_div_r; assumption.
Qed.

End ScorerFacts.

(* ================================================================== *)
(** ** Facts about the behavior analyzer *)

Module BehaviorFacts.
Import Behavior ScorerFacts.

Lemma lookup_assign_same l k v : lookup (assign l k v) k = Some v.
Proof.
  induction l as [|[k' v'] rest IH]; cbn [assign lookup].
  - now rewrite String.eqb_refl.
  - destruct (String.eqb k k') eqn:E; cbn [lookup].
    + now rewrite String.eqb_refl.
    + now rewrite E.
Qed.

(** The dict holds the session [record] updated, and the score returned is
    [_compute_score] of it. *)
Lemma record_and_score_stored a now client_ip path method ua al referer cookie hoh :
  exists s,
    get_session (snd (record_and_score a now client_ip path method ua al referer cookie hoh))
      client_ip = Some s /\
    fst (record_and_score a now client_ip path method ua al referer cookie hoh) =
      _compute_score s.
Proof.
  unfold record_and_score, get_session.
  destruct (lookup (sessions (_maybe_cleanup a now)) client_ip);
    cbn [fst snd sessions]; eexists; (split; [apply lookup_assign_same | reflexivity]).
Qed.

Lemma compute_score_low s : request_count s < 3 -> _compute_score s = 0%Q.
Proof.
  intros H. unfold _compute_score. destruct (Z.ltb_spec (request_count s) 3); [reflexivity|lia].
Qed.

Lemma compute_score_range s : (0 <= _compute_score s <= 1)%Q.
Proof.
  unfold _compute_score. destruct (request_count s <? 3); [lra|].
  cbv zeta. repeat case_qltb; lra.
Qed.

Lemma compute_score_formula s :
  3 <= request_count s ->
  (_compute_score s ==
   Qmin 1 (Qmax 0 (0.30 * _timing_regularity s + 0.15 * (1 - _path_diversity s) +
                   0.15 * _header_consistency s + 0.20 * _rate_score s +
                   0.20 * _browser_indicators s)))%Q.
Proof.
  intros H. unfold _compute_score.
  destruct (Z.ltb_spec (request_count s) 3); [lia|].
  unfold Qsum. cbn [map fst snd fold_left]. cbv zeta.
  generalize (_timing_regularity s) (_path_diversity s) (_header_consistency s)
    (_rate_score s) (_browser_indicators s). intros t p h r b.
  match goal with
  | |- context [Qltb 0 ?c] =>
      let E := fresh "E" in
      destruct (Qltb 0 c) eqn:E; [apply Qltb_true in E | apply Qltb_false in E]
  end;
  case_qltb;
    first [rewrite Q.max_r by lra | rewrite Q.max_l by lra];
    first [rewrite Q.min_r by lra | rewrite Q.min_l by lra]; lra.
Qed.

End BehaviorFacts.

(* ================================================================== *)
(** ** Facts about rate strings and the rule stage *)

Module RulesFacts.

Lemma contains_slash_cons c s :
  Py.contains (String c s) "/" = false -> c <> "/"%char /\ Py.contains s "/" = false.
Proof.
  cbn [Py.contains String.prefix].
  assert (Hp : String.prefix "" s = true) by (destruct s; reflexivity).
  destruct (ascii_dec "/"%char c) as [E|Hne]; cbn [orb]; intros H;
    [rewrite Hp in H; discriminate H|].
  split; [intros ->; apply Hne; reflexivity | exact H].
Qed.

Lemma split_slash_no_sep u : Py.contains u "/" = false -> Py.split "/" u = [u].
Proof.
  induction u as [|c u IH]; intros H; [reflexivity|].
  apply contains_slash_cons in H as [Hc Hu].
  cbn [Py.split]. rewrite IH by exact Hu.
  destruct (Ascii.eqb_spec c "/") as [->|_]; [contradiction|reflexivity].
Qed.

Lemma split_slash_app d rest :
  Py.contains d "/" = false -> Py.split "/" (d ++ String "/" rest) = d :: Py.split "/" rest.
Proof.
  induction d as [|c d IH]; intros H; [reflexivity|].
  apply contains_slash_cons in H as [Hc Hd].
  cbn [Py.split append]. rewrite IH by exact Hd.
  destruct (Ascii.eqb_spec c "/") as [->|_]; [contradiction|reflexivity].
Qed.

End RulesFacts.

Module HandlerFacts.
Import Rules Handler Samples ScorerFacts.

Lemma sort_login_steps : sort_steps login_steps = login_steps.
Proof. vm_compute. reflexivity. Qed.

Lemma resolve_login_block u : (95 <= u)%Q -> _resolve_escalation login_steps u = "block".
Proof.
  intros Hu. unfold _resolve_escalation. rewrite sort_login_steps.
  cbn [login_steps fold_left threshold action].
  apply Qle_bool_iff in Hu. rewrite Hu. destruct (Qle_bool 80 u); reflexivity.
Qed.

Lemma parse_login_duration : _parse_duration login_steps = Some (Some 3600%Z).
Proof. vm_compute. reflexivity. Qed.

Lemma usage_over (count : Z) :
  5 < count -> (95 <= inject_Z count / inject_Z 5 * 100)%Q.
Proof.
  intros Hc. assert (H6 : (inject_Z 6 <= inject_Z count)%Q) by (rewrite <- Zle_Qle; lia).
  unfold Qdiv. change (/ inject_Z 5)%Q with (1 # 5)%Q.
  unfold inject_Z in H6 |- *. lra.
Qed.

Lemma rule_limits_no_store secret rules client_ip cookie now fresh nonce :
  forall i,
    rule_limits secret rules client_ip cookie now fresh nonce i None = (Continue, None) \/
    rule_limits secret rules client_ip cookie now fresh nonce i None = (Raise, None).
Proof.
  induction rules as [|rule rest IH]; intros i; cbn [rule_limits]; [now left|].
  destruct (negb (truthy _)); [apply IH|].
  destruct (parse_rate_string _) as [[c w]|]; [|now right].
  cbn [RateLimiter.check_rule_limit]. apply IH.
Qed.

(** On a path the proxy serves, the same six POSTs meet the rule: five go
    on, the sixth is blocked. *)
Example login_rule_on_proxied_path :
  fst (run_posts secret0 [login_rule_at "/login"] "1.2.3.4" "/login" "login" six_times 0
         (Some Redis.empty)) =
  [Continue; Continue; Continue; Continue; Continue; Respond forbidden].
Proof. vm_compute. reflexivity. Qed.

End HandlerFacts.

(* ================================================================== *)
(** ** Facts about the blocker's keys *)

Module BlockerFacts.
Import Redis IPBlocker.

Lemma live_upd_other st now k k' e : k' <> k -> live (upd st k e) now k' = live st now k'.
Proof. intros H. unfold live. now rewrite WindowFacts.upd_other. Qed.

Lemma sismember_upd_other st now k k' e m :
  k' <> k -> sismember (upd st k e) now k' m = sismember st now k' m.
Proof. intros H. unfold sismember, smembers. now rewrite live_upd_other. Qed.

Lemma exists_upd_other st now k k' e :
  k' <> k -> exists_key (upd st k e) now k' = exists_key st now k'.
Proof. intros H. unfold exists_key. now rewrite live_upd_other. Qed.

Lemma smembers_upd_other st now k k' e :
  k' <> k -> smembers (upd st k e) now k' = smembers st now k'.
Proof. intros H. unfold smembers. now rewrite live_upd_other. Qed.

Lemma live_same_key st1 st2 now k : st1 k = st2 k -> live st1 now k = live st2 now k.
Proof. intros H. unfold live. now rewrite H. Qed.

Lemma sismember_same_key st1 st2 now k m :
  st1 k = st2 k -> sismember st1 now k m = sismember st2 now k m.
Proof. intros H. unfold sismember, smembers. now rewrite (live_same_key _ _ _ _ H). Qed.

Lemma exists_same_key st1 st2 now k :
  st1 k = st2 k -> exists_key st1 now k = exists_key st2 now k.
Proof. intros H. unfold exists_key. now rewrite (live_same_key _ _ _ _ H). Qed.

Lemma smembers_same_key st1 st2 now k :
  st1 k = st2 k -> smembers st1 now k = smembers st2 now k.
Proof. intros H. unfold smembers. now rewrite (live_same_key _ _ _ _ H). Qed.

Lemma sadd_other_key st now k m k' : k' <> k -> sadd st now k m k' = st k'.
Proof. intros H. unfold sadd. now apply WindowFacts.upd_other. Qed.

Lemma set_ex_other_key st now k v ttl k' : k' <> k -> set_ex st now k v ttl k' = st k'.
Proof. intros H. unfold set_ex. now apply WindowFacts.upd_other. Qed.

Lemma srem_other_key st now k m k' : k' <> k -> srem st now k m k' = st k'.
Proof.
  intros H. unfold srem.
  destruct (live st now k) as [[]|], (st k); try reflexivity;
    destruct (filter _ _); now apply WindowFacts.upd_other.
Qed.

Lemma del_other_key st k k' : k' <> k -> del st k k' = st k'.
Proof. intros H. unfold del. now apply WindowFacts.upd_other. Qed.

Lemma del_gone st now k : exists_key (del st k) now k = false.
Proof. unfold exists_key, live, del. now rewrite WindowFacts.upd_same. Qed.

Lemma app_inj_l (p a b : string) : p ++ a = p ++ b -> a = b.
Proof.
  induction p as [|c p IH]; cbn [append]; [easy|].
  intros H. injection H as H. now apply IH.
Qed.

Lemma allow_neq_block ip : ALLOWLIST_KEY <> "block:" ++ ip.
Proof. cbn. discriminate. Qed.

Lemma blocklist_neq_block ip : BLOCKLIST_KEY <> "block:" ++ ip.
Proof. cbn. discriminate. Qed.

Lemma allow_neq_blocklist : ALLOWLIST_KEY <> BLOCKLIST_KEY.
Proof. discriminate. Qed.

Lemma block_key_neq ip ip' : ip' <> ip -> "block:" ++ ip' <> "block:" ++ ip.
Proof. intros H E. apply H. exact (app_inj_l _ _ _ E). Qed.

(** An entry without expiry that [live] sees at one time is seen at all. *)
Lemma sadd_member st now t k m :
  (forall e, st k = Some e -> expires e = None) ->
  sismember (sadd st now k m) t k m = true.
Proof.
  intros Hk. unfold sadd, sismember, smembers at 1, live at 1.
  rewrite WindowFacts.upd_same. cbn [expires val].
  assert (Httl : match live st now k, st k with
                 | Some _, Some e => expires e | _, _ => None end = None).
  { destruct (live st now k), (st k) eqn:E; auto. }
  rewrite Httl. apply existsb_exists.
  destruct (existsb (String.eqb m) (smembers st now k)) eqn:Ex.
  - apply existsb_exists in Ex. exact Ex.
  - exists m. split; [apply in_or_app; right; now left | apply String.eqb_refl].
Qed.

(** A later time sees a key's value at an earlier time, or nothing. *)
Lemma live_later st now t k :
  (now <= t)%Q -> live st t k = None \/ live st t k = live st now k.
Proof.
  intros Ht. unfold live. destruct (st k) as [e|]; [|now left].
  destruct (expires e) as [d|]; [|now right].
  destruct (Qle_bool d now) eqn:E1.
  - left. apply Qle_bool_iff in E1.
    assert (Qle_bool d t = true) as -> by (apply Qle_bool_iff; lra). reflexivity.
  - destruct (Qle_bool d t); [now left | now right].
Qed.

Lemma existsb_filter_neq (ms : list string) m m' :
  m' <> m ->
  existsb (String.eqb m') (filter (fun x => negb (String.eqb x m)) ms) =
  existsb (String.eqb m') ms.
Proof.
  intros H. induction ms as [|x ms IH]; [reflexivity|].
  cbn [filter existsb]. destruct (String.eqb_spec x m) as [->|Hx]; cbn [negb].
  - rewrite IH. destruct (String.eqb_spec m' m); [contradiction|reflexivity].
  - cbn [existsb]. now rewrite IH.
Qed.

Lemma existsb_filter_same (ms : list string) m :
  existsb (String.eqb m) (filter (fun x => negb (String.eqb x m)) ms) = false.
Proof.
  induction ms as [|x ms IH]; [reflexivity|].
  cbn [filter]. destruct (String.eqb_spec x m) as [->|Hx]; cbn [negb]; [exact IH|].
  cbn [existsb]. rewrite IH, orb_false_r. apply String.eqb_neq. congruence.
Qed.

Lemma live_set_entry st now k ms e :
  live st now k = Some (SetV ms) -> st k = Some e -> val e = SetV ms.
Proof.
  unfold live. intros L E. rewrite E in L.
  destruct (expires e); [destruct (Qle_bool _ _)|]; congruence.
Qed.

Lemma srem_same st now t k m :
  (now <= t)%Q -> sismember (srem st now k m) t k m = false.
Proof.
  intros Ht. unfold srem.
  destruct (live st now k) as [[ms|s|ms]|] eqn:L;
    try (unfold sismember, smembers;
         destruct (live_later st now t k Ht) as [->| ->]; [reflexivity|]; now rewrite L).
  destruct (st k) as [e|] eqn:E.
  2:{ unfold live in L. rewrite E in L. discriminate. }
  destruct (filter _ ms) as [|x xs] eqn:F; unfold sismember, smembers, live;
    rewrite WindowFacts.upd_same; [reflexivity|].
  destruct (expires e) as [d|]; cbn -[existsb filter]; [destruct (Qle_bool d t)|];
    try reflexivity; rewrite <- F; apply existsb_filter_same.
Qed.

Lemma srem_other st now t k m m' :
  m' <> m -> sismember (srem st now k m) t k m' = sismember st t k m'.
Proof.
  intros Hm. unfold srem.
  destruct (live st now k) as [[ms|s|ms]|] eqn:L; try reflexivity.
  destruct (st k) as [e|] eqn:E; [|reflexivity].
  pose proof (live_set_entry _ _ _ _ _ L E) as Hv.
  unfold sismember, smembers, live. rewrite E, Hv.
  destruct (filter _ ms) as [|x xs] eqn:F; rewrite WindowFacts.upd_same.
  - destruct (expires e) as [d|]; [destruct (Qle_bool d t)|]; cbn; try reflexivity;
      rewrite <- (existsb_filter_neq ms m m' Hm), F; reflexivity.
  - destruct (expires e) as [d|]; cbn -[existsb filter]; [destruct (Qle_bool d t)|];
      try reflexivity; rewrite <- F; apply existsb_filter_neq; exact Hm.
Qed.

Lemma srem_smembers_same st now t k m :
  (now <= t)%Q -> ~ In m (smembers (srem st now k m) t k).
Proof.
  intros Ht Hin. pose proof (srem_same st now t k m Ht) as H.
  unfold sismember in H.
  assert (existsb (String.eqb m) (smembers (srem st now k m) t k) = true) as H'
    by (apply existsb_exists; exists m; split; [exact Hin | apply String.eqb_refl]).
  congruence.
Qed.

End BlockerFacts.

(* ================================================================== *)
(** ** Facts about [split] and the rate limiter's keys and counts *)

Module SplitFacts.

Lemma split_no_sep sep u : ~ In sep (list_ascii_of_string u) -> Py.split sep u = [u].
Proof.
  induction u as [|c u IH]; intros H; [reflexivity|].
  cbn [list_ascii_of_string In] in H. cbn [Py.split]. rewrite IH by tauto.
  destruct (Ascii.eqb_spec c sep) as [->|_]; [tauto | reflexivity].
Qed.

Lemma split_app sep d rest :
  ~ In sep (list_ascii_of_string d) ->
  Py.split sep (d ++ String sep rest) = d :: Py.split sep rest.
Proof.
  induction d as [|c d IH]; intros H; cbn [Py.split append].
  - now rewrite Ascii.eqb_refl.
  - cbn [list_ascii_of_string In] in H. rewrite IH by tauto.
    destruct (Ascii.eqb_spec c sep) as [->|_]; [tauto | reflexivity].
Qed.

Lemma digits_not_in c s :
  forallb Py.is_digit (list_ascii_of_string s) = true -> Py.is_digit c = false ->
  ~ In c (list_ascii_of_string s).
Proof.
  intros H Hc Hin. rewrite forallb_forall in H. specialize (H c Hin). congruence.
Qed.

End SplitFacts.

Module RateFacts.
Import Redis RateLimiter SplitFacts.

Lemma parse_octet_digits s n :
  parse_octet s = Some n -> forallb Py.is_digit (list_ascii_of_string s) = true.
Proof.
  unfold parse_octet. destruct s as [|c rest]; [discriminate|].
  destruct (forallb _ _) eqn:E; [reflexivity | discriminate].
Qed.

Lemma octet_no_dot s n : parse_octet s = Some n -> ~ In "."%char (list_ascii_of_string s).
Proof. intros H. apply digits_not_in; [exact (parse_octet_digits _ _ H) | reflexivity]. Qed.

Lemma dot_app x : "." ++ x = String "."%char x.
Proof. reflexivity. Qed.

Lemma split_subnet a b c na nb nc :
  parse_octet a = Some na -> parse_octet b = Some nb -> parse_octet c = Some nc ->
  Py.split "." (a ++ "." ++ b ++ "." ++ c ++ ".0/24") = [a; b; c; "0/24"].
Proof.
  intros Pa Pb Pc. rewrite !dot_app.
  rewrite (split_app _ a) by exact (octet_no_dot _ _ Pa).
  rewrite (split_app _ b) by exact (octet_no_dot _ _ Pb).
  change (String "."%char "0/24") with (String "."%char ("0/24")).
  rewrite (split_app _ c) by exact (octet_no_dot _ _ Pc).
  reflexivity.
Qed.

Lemma subnet_quad a b c d na nb nc nd :
  parse_octet a = Some na -> parse_octet b = Some nb -> parse_octet c = Some nc ->
  parse_octet d = Some nd ->
  _ip_to_subnet (a ++ "." ++ b ++ "." ++ c ++ "." ++ d) = a ++ "." ++ b ++ "." ++ c ++ ".0/24".
Proof.
  intros Pa Pb Pc Pd. unfold _ip_to_subnet. rewrite !dot_app.
  rewrite (split_app _ a) by exact (octet_no_dot _ _ Pa).
  rewrite (split_app _ b) by exact (octet_no_dot _ _ Pb).
  rewrite (split_app _ c) by exact (octet_no_dot _ _ Pc).
  rewrite (split_no_sep _ d) by exact (octet_no_dot _ _ Pd).
  rewrite Pa, Pb, Pc, Pd. reflexivity.
Qed.

Lemma subnet_of_subnet a b c na nb nc :
  parse_octet a = Some na -> parse_octet b = Some nb -> parse_octet c = Some nc ->
  _ip_to_subnet (a ++ "." ++ b ++ "." ++ c ++ ".0/24") = a ++ "." ++ b ++ "." ++ c ++ ".0/24".
Proof.
  intros Pa Pb Pc. unfold _ip_to_subnet at 1.
  rewrite (split_subnet a b c na nb nc Pa Pb Pc), Pa, Pb, Pc. reflexivity.
Qed.

Lemma subnet_shape ip :
  _ip_to_subnet ip = ip \/
  exists a b c na nb nc, parse_octet a = Some na /\ parse_octet b = Some nb /\
    parse_octet c = Some nc /\ _ip_to_subnet ip = a ++ "." ++ b ++ "." ++ c ++ ".0/24".
Proof.
  unfold _ip_to_subnet.
  destruct (Py.split "." ip) as [|a [|b [|c [|d [|e l]]]]]; try (left; reflexivity).
  destruct (parse_octet a) as [na|] eqn:Pa; [|left; reflexivity].
  destruct (parse_octet b) as [nb|] eqn:Pb; [|left; reflexivity].
  destruct (parse_octet c) as [nc|] eqn:Pc; [|left; reflexivity].
  destruct (parse_octet d) as [nd|] eqn:Pd; [|left; reflexivity].
  right. exists a, b, c, na, nb, nc. auto.
Qed.








End RateFacts.

(* ================================================================== *)
(** ** [str] and [int] on integers, and the characters of hex digests *)

Module TokenFacts.
Import SplitFacts.

Lemma list_ascii_app (a b : string) :
  list_ascii_of_string (a ++ b) = (list_ascii_of_string a ++ list_ascii_of_string b)%list.
Proof. induction a as [|c a IH]; cbn; [reflexivity | now rewrite IH]. Qed.

Lemma list_ascii_length s : List.length (list_ascii_of_string s) = String.length s.
Proof. induction s as [|c s IH]; cbn; [reflexivity | now rewrite IH]. Qed.

Lemma digit_char d :
  0 <= d < 10 ->
  Py.is_digit (ascii_of_nat (Z.to_nat (48 + d))) = true /\
  Py.digit_val (ascii_of_nat (Z.to_nat (48 + d))) = d.
Proof.
  intros H. unfold Py.is_digit, Py.digit_val.
  rewrite nat_ascii_embedding by lia.
  split; [apply andb_true_iff; split; apply Nat.leb_le; lia | lia].
Qed.

Lemma digits_last n acc p :
  0 <= n < 10 ->
  Py.digits_val (String (ascii_of_nat (Z.to_nat (48 + n mod 10))) acc) 0 p =
  Py.digits_val acc n true.
Proof.
  intros H. rewrite Z.mod_small by lia.
  destruct (digit_char n H) as [D V]. cbn [Py.digits_val]. rewrite D, V.
  now replace (10 * 0 + n) with n by lia.
Qed.

Lemma digits_of_pos_S f n acc :
  Py.digits_of_pos (S f) n acc =
  if n <? 10 then String (ascii_of_nat (Z.to_nat (48 + n mod 10))) acc
  else Py.digits_of_pos f (n / 10) (String (ascii_of_nat (Z.to_nat (48 + n mod 10))) acc).
Proof. reflexivity. Qed.

(** Reading back the digits [digits_of_pos] writes, given enough fuel. *)
Lemma digits_of_pos_val f : forall n acc p,
  0 <= n < 10 ^ Z.of_nat (S f) ->
  Py.digits_val (Py.digits_of_pos (S f) n acc) 0 p = Py.digits_val acc n true.
Proof.
  induction f as [|f IH]; intros n acc p Hn.
  - replace (10 ^ Z.of_nat 1) with 10 in Hn by reflexivity.
    rewrite digits_of_pos_S. assert ((n <? 10) = true) as -> by (apply Z.ltb_lt; lia).
    now apply digits_last.
  - rewrite digits_of_pos_S. destruct (n <? 10) eqn:E.
    + apply Z.ltb_lt in E. now apply digits_last.
    + apply Z.ltb_ge in E.
      rewrite Nat2Z.inj_succ, Z.pow_succ_r in Hn by lia.
      assert (Hd : 0 <= n / 10 < 10 ^ Z.of_nat (S f)).
      { split; [apply Z.div_pos; lia | apply Z.div_lt_upper_bound; lia]. }
      rewrite IH by exact Hd.
      pose proof (Z.mod_pos_bound n 10 ltac:(lia)) as Hm.
      destruct (digit_char (n mod 10) Hm) as [D V]. cbn [Py.digits_val]. rewrite D, V.
      f_equal. pose proof (Z.div_mod n 10 ltac:(lia)). lia.
Qed.

Lemma digits_of_pos_chars fuel : forall n acc c,
  In c (list_ascii_of_string (Py.digits_of_pos fuel n acc)) ->
  Py.is_digit c = true \/ In c (list_ascii_of_string acc).
Proof.
  induction fuel as [|f IH]; intros n acc c H; [now right|]. rewrite digits_of_pos_S in H.
  pose proof (Z.mod_pos_bound n 10 ltac:(lia)) as Hm.
  destruct (digit_char (n mod 10) Hm) as [D _].
  destruct (n <? 10).
  - cbn [list_ascii_of_string In] in H. destruct H as [<-|H]; [now left | now right].
  - apply IH in H as [H|H]; [now left|].
    cbn [list_ascii_of_string In] in H. destruct H as [<-|H]; [now left | now right].
Qed.

Lemma digits_of_pos_length fuel : forall n acc,
  (String.length (Py.digits_of_pos fuel n acc) <= fuel + String.length acc)%nat.
Proof.
  induction fuel as [|f IH]; intros n acc; [cbn; lia|]. rewrite digits_of_pos_S.
  destruct (n <? 10); cbn [String.length]; [lia|].
  specialize (IH (n / 10) (String (ascii_of_nat (Z.to_nat (48 + n mod 10))) acc)).
  cbn [String.length] in IH. lia.
Qed.

Lemma log2_fuel m : 0 <= m -> m < 10 ^ Z.of_nat (S (Z.to_nat (Z.log2 m))).
Proof.
  intros Hm. pose proof (Z.log2_nonneg m).
  replace (Z.of_nat (S (Z.to_nat (Z.log2 m)))) with (Z.succ (Z.log2 m)) by lia.
  destruct (Z.eq_dec m 0) as [->|Hne]; [reflexivity|].
  apply Z.lt_le_trans with (2 ^ Z.succ (Z.log2 m)).
  - apply Z.log2_spec. lia.
  - apply Z.pow_le_mono_l. lia.
Qed.

Lemma str_Z_chars n c :
  In c (list_ascii_of_string (Py.str_Z n)) -> Py.is_digit c = true \/ c = "-"%char.
Proof.
  unfold Py.str_Z. intros H.
  destruct (n <? 0); [cbn [list_ascii_of_string In] in H; destruct H as [<-|H]; [now right|]|];
    (apply digits_of_pos_chars in H as [H|[]]; now left).
Qed.

Lemma str_Z_length n : Z.abs n < 2 ^ 1024 -> (String.length (Py.str_Z n) <= 1026)%nat.
Proof.
  intros Hn. unfold Py.str_Z.
  assert (Hl : Z.log2 (Z.abs n) < 1024).
  { destruct (Z.eq_dec (Z.abs n) 0) as [E|E]; [rewrite E; reflexivity|].
    apply Z.log2_lt_pow2; lia. }
  pose proof (Z.log2_nonneg (Z.abs n)).
  pose proof (digits_of_pos_length (S (Z.to_nat (Z.log2 (Z.abs n)))) (Z.abs n) "") as L.
  cbn [String.length] in L.
  destruct (n <? 0); cbn [String.length]; lia.
Qed.

Lemma digit_not_space c : Py.is_digit c = true -> Py.is_space c = false.
Proof.
  unfold Py.is_digit, Py.is_space. intros H.
  apply andb_prop in H as [H1 H2]. apply Nat.leb_le in H1. apply Nat.leb_le in H2.
  assert ((nat_of_ascii c =? 32)%nat = false) as -> by (apply Nat.eqb_neq; lia).
  assert ((nat_of_ascii c <=? 13)%nat = false) as -> by (apply Nat.leb_gt; lia).
  assert ((nat_of_ascii c <=? 31)%nat = false) as -> by (apply Nat.leb_gt; lia).
  now rewrite !andb_false_r.
Qed.

Lemma lstrip_id s :
  (forall c, In c (list_ascii_of_string s) -> Py.is_space c = false) -> Py.lstrip s = s.
Proof.
  destruct s as [|c s]; intros H; [reflexivity|]. cbn [Py.lstrip].
  rewrite H; [reflexivity | now left].
Qed.

Lemma rev_string_chars s : list_ascii_of_string (Py.rev_string s) = rev (list_ascii_of_string s).
Proof. unfold Py.rev_string. apply list_ascii_of_string_of_list_ascii. Qed.

Lemma rev_string_involutive s : Py.rev_string (Py.rev_string s) = s.
Proof.
  unfold Py.rev_string at 1. rewrite rev_string_chars, rev_involutive.
  apply string_of_list_ascii_of_string.
Qed.

Lemma strip_id s :
  (forall c, In c (list_ascii_of_string s) -> Py.is_space c = false) -> Py.strip s = s.
Proof.
  intros H. unfold Py.strip. rewrite (lstrip_id s H).
  rewrite lstrip_id; [apply rev_string_involutive|].
  intros c Hc. rewrite rev_string_chars in Hc. apply H, in_rev, Hc.
Qed.

Lemma count_digits_le s : (Py.count_digits s <= String.length s)%nat.
Proof.
  unfold Py.count_digits. rewrite <- list_ascii_length.
  induction (list_ascii_of_string s) as [|c l IH]; cbn [filter List.length]; [lia|].
  destruct (Py.is_digit c); cbn [List.length]; lia.
Qed.

(** [int(str(n)) == n]. *)
Lemma int_of_str_Z n : Z.abs n < 2 ^ 1024 -> Py.int_of_string (Py.str_Z n) = Some n.
Proof.
  intros Hn. unfold Py.int_of_string.
  assert ((Py.INT_MAX_STR_DIGITS <? Py.count_digits (Py.str_Z n))%nat = false) as ->.
  { apply Nat.ltb_ge. pose proof (count_digits_le (Py.str_Z n)).
    pose proof (str_Z_length n Hn). unfold Py.INT_MAX_STR_DIGITS. lia. }
  rewrite strip_id.
  2:{ intros c Hc. apply str_Z_chars in Hc as [Hc| ->]; [now apply digit_not_space | reflexivity]. }
  pose proof (digits_of_pos_val (Z.to_nat (Z.log2 (Z.abs n))) (Z.abs n) "" false
                (conj (Z.abs_nonneg n) (log2_fuel _ (Z.abs_nonneg n)))) as Dv.
  cbn [Py.digits_val] in Dv.
  pose proof (digits_of_pos_chars (S (Z.to_nat (Z.log2 (Z.abs n)))) (Z.abs n) "") as Dc.
  unfold Py.str_Z.
  destruct (Py.digits_of_pos (S (Z.to_nat (Z.log2 (Z.abs n)))) (Z.abs n) "")
    as [|c rest] eqn:Eds; [discriminate Dv|].
  assert (Hc : Py.is_digit c = true) by (destruct (Dc c (or_introl eq_refl)) as [H|[]]; exact H).
  destruct (n <? 0) eqn:Hneg.
  - cbn [Ascii.eqb Bool.eqb]. rewrite Dv. cbn [option_map]. f_equal.
    apply Z.ltb_lt in Hneg. lia.
  - destruct (Ascii.eqb_spec c "-") as [->|_]; [discriminate Hc|].
    destruct (Ascii.eqb_spec c "+") as [->|_]; [discriminate Hc|].
    rewrite Dv. f_equal. apply Z.ltb_ge in Hneg. lia.
Qed.

Lemma H0_range x : In x SHA256.H0 -> 0 <= x < 2 ^ 32.
Proof.
  assert (Hall : forallb (fun y => (0 <=? y) && (y <? 2 ^ 32)) SHA256.H0 = true)
    by (vm_compute; reflexivity).
  intros Hx. rewrite forallb_forall in Hall. specialize (Hall x Hx).
  apply andb_prop in Hall as [H1 H2]. apply Z.leb_le in H1. apply Z.ltb_lt in H2. lia.
Qed.

Lemma compress_range hs b x : In x (SHA256.compress hs b) -> 0 <= x < 2 ^ 32.
Proof.
  unfold SHA256.compress. intros H. apply in_map_iff in H as [p [<- _]].
  unfold SHA256.add32, SHA256.w32. apply Z.mod_pos_bound. lia.
Qed.

Lemma fold_compress_range bl : forall hs,
  (forall x, In x hs -> 0 <= x < 2 ^ 32) ->
  forall x, In x (fold_left SHA256.compress bl hs) -> 0 <= x < 2 ^ 32.
Proof.
  induction bl as [|b bl IH]; intros hs Hhs; cbn [fold_left]; [exact Hhs|].
  apply IH. apply compress_range.
Qed.

Lemma word_bytes_range w b : 0 <= w < 2 ^ 32 -> In b (SHA256.word_bytes w) -> 0 <= b < 256.
Proof.
  intros Hw Hb. unfold SHA256.word_bytes in Hb. cbn [In] in Hb.
  destruct Hb as [<-|[<-|[<-|[<-|[]]]]];
    try (change 255 with (Z.ones 8); rewrite Z.land_ones by lia;
         apply Z.mod_pos_bound; lia).
  rewrite Z.shiftr_div_pow2 by lia.
  split; [apply Z.div_pos; lia | apply Z.div_lt_upper_bound; lia].
Qed.

Lemma digest_range msg b : In b (SHA256.digest msg) -> 0 <= b < 256.
Proof.
  unfold SHA256.digest. intros H. apply in_flat_map in H as [w [Hw Hb]].
  apply (word_bytes_range w); [|exact Hb].
  exact (fold_compress_range _ _ H0_range w Hw).
Qed.

Lemma hex_char_not_colon n : 0 <= n < 16 -> SHA256.hex_char n <> ":"%char.
Proof.
  intros Hn.
  assert (Hin : In n (map Z.of_nat (seq 0 16))).
  { apply in_map_iff. exists (Z.to_nat n). split; [lia | apply in_seq; lia]. }
  cbn in Hin. repeat destruct Hin as [<-|Hin]; try destruct Hin;
    intros E; vm_compute in E; discriminate E.
Qed.

Lemma hex_no_colon bs :
  (forall b, In b bs -> 0 <= b < 256) -> ~ In ":"%char (list_ascii_of_string (SHA256.hex bs)).
Proof.
  intros Hbs H. unfold SHA256.hex in H. rewrite list_ascii_of_string_of_list_ascii in H.
  apply in_flat_map in H as [b [Hb H]]. specialize (Hbs b Hb).
  cbn [In] in H. destruct H as [H|[H|[]]].
  - refine (hex_char_not_colon (Z.shiftr b 4) _ H).
    rewrite Z.shiftr_div_pow2 by lia.
    split; [apply Z.div_pos; lia | apply Z.div_lt_upper_bound; lia].
  - refine (hex_char_not_colon (Z.land b 15) _ H).
    change 15 with (Z.ones 4). rewrite Z.land_ones by lia. apply Z.mod_pos_bound. lia.
Qed.

Lemma hmac_no_colon key msg : ~ In ":"%char (list_ascii_of_string (SHA256.hmac_hex key msg)).
Proof. unfold SHA256.hmac_hex. apply hex_no_colon. intros b. apply digest_range. Qed.

Lemma str_Z_no_colon n : ~ In ":"%char (list_ascii_of_string (Py.str_Z n)).
Proof. intros H. apply str_Z_chars in H as [H|H]; discriminate H. Qed.

Lemma colon_app x : ":" ++ x = String ":"%char x.
Proof. reflexivity. Qed.

Lemma split_parts_no_sep sep s : forall p,
  In p (Py.split sep s) -> ~ In sep (list_ascii_of_string p).
Proof.
  induction s as [|c s IH]; intros p Hp; cbn [Py.split] in Hp.
  - destruct Hp as [<-|[]]. intros [].
  - destruct (Ascii.eqb_spec c sep) as [E|Hc].
    + destruct Hp as [<-|Hp]; [intros []|exact (IH p Hp)].
    + destruct (Py.split sep s) as [|w ws] eqn:Es.
      * destruct Hp as [<-|[]]. cbn. intros [E|[]]. congruence.
      * destruct Hp as [<-|Hp]; [|exact (IH p (or_intror Hp))].
        cbn [list_ascii_of_string In]. intros [E|E]; [congruence|].
        exact (IH w (or_introl eq_refl) E).
Qed.

End TokenFacts.

(* ================================================================== *)
(** ** Sorting escalation steps, and durations *)

Module EscalationFacts.
Import Rules Handler.

(** Sorted by threshold, each step at most every later one. *)
Fixpoint sorted_thr (l : list EscalationStep) : Prop :=
  match l with
  | [] => True
  | a :: l' => (forall x, In x l' -> (threshold a <= threshold x)%Q) /\ sorted_thr l'
  end.

Lemma insert_in x l z : In z (insert_step x l) <-> z = x \/ In z l.
Proof.
  induction l as [|y l IH]; cbn [insert_step]; [cbn; intuition|].
  destruct (Qltb (threshold x) (threshold y)); cbn [In]; [intuition|].
  rewrite IH. intuition.
Qed.

Lemma insert_sorted x l : sorted_thr l -> sorted_thr (insert_step x l).
Proof.
  induction l as [|y l IH]; cbn [insert_step sorted_thr]; [intros; split; [intros _ []|exact I]|].
  intros [Hy Hl]. destruct (Qltb (threshold x) (threshold y)) eqn:E.
  - apply ScorerFacts.Qltb_true in E. cbn [sorted_thr]. split; [|split; assumption].
    intros z [<-|Hz]; [lra|]. specialize (Hy z Hz). lra.
  - apply ScorerFacts.Qltb_false in E. cbn [sorted_thr]. split; [|exact (IH Hl)].
    intros z Hz. apply insert_in in Hz as [->|Hz]; [exact E | exact (Hy z Hz)].
Qed.

Lemma sort_fold_in l : forall acc z,
  In z (fold_left (fun acc x => insert_step x acc) l acc) <-> In z l \/ In z acc.
Proof.
  induction l as [|x l IH]; intros acc z; cbn [fold_left]; [cbn; intuition|].
  rewrite IH, insert_in. cbn [In]. intuition.
Qed.

Lemma sort_fold_sorted l : forall acc,
  sorted_thr acc -> sorted_thr (fold_left (fun acc x => insert_step x acc) l acc).
Proof.
  induction l as [|x l IH]; intros acc H; cbn [fold_left]; [exact H|].
  apply IH, insert_sorted, H.
Qed.

Lemma sort_steps_in steps z : In z (sort_steps steps) <-> In z steps.
Proof. unfold sort_steps. rewrite sort_fold_in. cbn [In]. intuition. Qed.

Lemma sort_steps_sorted steps : sorted_thr (sort_steps steps).
Proof. apply sort_fold_sorted. exact I. Qed.

(** The last step of a list that satisfies [p]. *)
Fixpoint last_match (p : EscalationStep -> bool) (l : list EscalationStep) :
    option EscalationStep :=
  match l with
  | [] => None
  | a :: l' =>
      match last_match p l' with
      | Some y => Some y
      | None => if p a then Some a else None
      end
  end.

Lemma last_match_none p l : last_match p l = None -> forall x, In x l -> p x = false.
Proof.
  induction l as [|a l IH]; cbn [last_match]; [intros _ _ []|].
  destruct (last_match p l); [discriminate|].
  destruct (p a) eqn:E; [discriminate|]. intros _ x [<-|Hx]; [exact E | exact (IH eq_refl x Hx)].
Qed.

Lemma last_match_some p l y :
  sorted_thr l -> last_match p l = Some y ->
  In y l /\ p y = true /\ forall x, In x l -> p x = true -> (threshold x <= threshold y)%Q.
Proof.
  induction l as [|a l IH]; cbn [last_match sorted_thr]; [discriminate|].
  intros [Ha Hl]. destruct (last_match p l) as [y'|] eqn:E.
  - intros [= <-]. destruct (IH Hl eq_refl) as (Hin & Hp & Hmax).
    split; [now right|]. split; [exact Hp|].
    intros x [<-|Hx] Hpx; [exact (Ha y' Hin) | exact (Hmax x Hx Hpx)].
  - destruct (p a) eqn:Ea; [|discriminate]. intros [= <-].
    split; [now left|]. split; [exact Ea|].
    intros x [<-|Hx] Hpx; [apply Qle_refl|].
    rewrite (last_match_none p l E x Hx) in Hpx. discriminate.
Qed.

Lemma last_match_existsb p l : last_match p l = None <-> existsb p l = false.
Proof.
  induction l as [|a l IH]; cbn [last_match existsb]; [tauto|].
  destruct (last_match p l); destruct (existsb p l); destruct (p a);
    cbn; intuition discriminate.
Qed.

Lemma resolve_fold u l : forall d,
  fold_left (fun act step => if Qle_bool (threshold step) u then action step else act) l d =
  match last_match (fun s => Qle_bool (threshold s) u) l with
  | Some y => action y
  | None => d
  end.
Proof.
  induction l as [|a l IH]; intros d; cbn [fold_left last_match]; [reflexivity|].
  rewrite IH. destruct (last_match _ l); [reflexivity|].
  now destruct (Qle_bool (threshold a) u).
Qed.

Lemma first_duration_app l1 l2 :
  first_duration (l1 ++ l2) =
  if existsb (fun s => truthy (duration s)) l1 then first_duration l1 else first_duration l2.
Proof.
  induction l1 as [|a l1 IH]; cbn [app first_duration existsb]; [reflexivity|].
  destruct (truthy (duration a)); [reflexivity | exact IH].
Qed.

Lemma first_duration_rev l :
  first_duration (rev l) =
  match last_match (fun s => truthy (duration s)) l with
  | Some y => option_map Some (_duration_to_seconds (Classifier.get (duration y) ""))
  | None => Some None
  end.
Proof.
  induction l as [|a l IH]; [reflexivity|]. cbn [rev last_match].
  rewrite first_duration_app.
  assert (Hex : existsb (fun s => truthy (duration s)) (rev l) =
                existsb (fun s => truthy (duration s)) l).
  { destruct (existsb _ l) eqn:E.
    - apply existsb_exists in E as [x [Hx Hp]].
      apply existsb_exists. exists x. split; [apply in_rev; rewrite rev_involutive; exact Hx | exact Hp].
    - apply not_true_iff_false. intros Ht. apply existsb_exists in Ht as [x [Hx Hp]].
      apply in_rev in Hx. apply not_true_iff_false in E. apply E.
      apply existsb_exists. exists x. auto. }
  rewrite Hex, IH.
  destruct (last_match _ l) eqn:E.
  - assert (existsb (fun s => truthy (duration s)) l = true) as ->; [|reflexivity].
    destruct (existsb _ l) eqn:E'; [reflexivity|].
    apply last_match_existsb in E'. congruence.
  - assert (existsb (fun s => truthy (duration s)) l = false) as ->
      by (apply last_match_existsb; exact E).
    cbn [first_duration]. destruct (truthy (duration a)); reflexivity.
Qed.

End EscalationFacts.

Module DurationFacts.
Import TokenFacts.

Lemma prefix_empty s : String.prefix "" s = true.
Proof. destruct s; reflexivity. Qed.

Lemma rev_string_snoc s c : Py.rev_string (s ++ String c "") = String c (Py.rev_string s).
Proof.
  unfold Py.rev_string. rewrite list_ascii_app, rev_app_distr. reflexivity.
Qed.

Lemma length_app (s t : string) : String.length (s ++ t) = (String.length s + String.length t)%nat.
Proof. induction s as [|c s IH]; cbn; [reflexivity | now rewrite IH]. Qed.

Lemma substring_app s t : substring 0 (String.length s) (s ++ t) = s.
Proof. induction s as [|c s IH]; cbn; [now destruct t | now rewrite IH]. Qed.

Lemma drop_last_snoc s c : Py.drop_last (s ++ String c "") = s.
Proof.
  unfold Py.drop_last. rewrite length_app. cbn [String.length].
  replace (String.length s + 1 - 1)%nat with (String.length s) by lia.
  apply substring_app.
Qed.

Lemma lower_id s :
  (forall c, In c (list_ascii_of_string s) -> Py.lower_char c = c) -> Py.lower s = s.
Proof.
  induction s as [|c s IH]; intros H; [reflexivity|]. cbn [Py.lower].
  rewrite H by now left. rewrite IH; [reflexivity|]. intros x Hx. apply H. now right.
Qed.

Lemma digit_lower c : Py.is_digit c = true -> Py.lower_char c = c.
Proof.
  intros H. unfold Py.is_digit in H. apply andb_prop in H as [H1 H2].
  apply Nat.leb_le in H1. apply Nat.leb_le in H2.
  unfold Py.lower_char.
  destruct ((65 <=? nat_of_ascii c)%nat && (nat_of_ascii c <=? 90)%nat) eqn:E; [|reflexivity].
  apply andb_prop in E as [E _]. apply Nat.leb_le in E. lia.
Qed.

Lemma unit_chars n u c :
  In u ["m"; "h"; "d"; "s"]%char ->
  In c (list_ascii_of_string (Py.str_Z n ++ String u "")) ->
  Py.is_digit c = true \/ c = "-"%char \/ In c ["m"; "h"; "d"; "s"]%char.
Proof.
  intros Hu Hc. rewrite list_ascii_app in Hc. apply in_app_or in Hc as [Hc|[<-|[]]].
  - apply str_Z_chars in Hc. tauto.
  - tauto.
Qed.

Lemma clean_char c :
  Py.is_digit c = true \/ c = "-"%char \/ In c ["m"; "h"; "d"; "s"]%char ->
  Py.lower_char c = c /\ Py.is_space c = false.
Proof.
  intros [H|[->|H]].
  - split; [now apply digit_lower | now apply digit_not_space].
  - split; reflexivity.
  - cbn [In] in H. destruct H as [<-|[<-|[<-|[<-|[]]]]]; split; reflexivity.
Qed.

Lemma str_Z_clean n : Py.lower (Py.strip (Py.str_Z n)) = Py.str_Z n.
Proof.
  assert (Hc : forall c, In c (list_ascii_of_string (Py.str_Z n)) ->
                 Py.lower_char c = c /\ Py.is_space c = false).
  { intros c Hc. apply clean_char. apply str_Z_chars in Hc. tauto. }
  rewrite strip_id by (intros c Hin; exact (proj2 (Hc c Hin))).
  apply lower_id. intros c Hin. exact (proj1 (Hc c Hin)).
Qed.

Lemma str_Z_unit_clean n u :
  In u ["m"; "h"; "d"; "s"]%char ->
  Py.lower (Py.strip (Py.str_Z n ++ String u "")) = Py.str_Z n ++ String u "".
Proof.
  intros Hu.
  assert (Hc : forall c, In c (list_ascii_of_string (Py.str_Z n ++ String u "")) ->
                 Py.lower_char c = c /\ Py.is_space c = false)
    by (intros c Hin; exact (clean_char c (unit_chars n u c Hu Hin))).
  rewrite strip_id by (intros c Hin; exact (proj2 (Hc c Hin))).
  apply lower_id. intros c Hin. exact (proj1 (Hc c Hin)).
Qed.

(** [str(n)] does not end with a unit letter. *)
Lemma str_Z_endswith_unit n u :
  In u ["m"; "h"; "d"; "s"]%char -> Py.endswith (Py.str_Z n) (String u "") = false.
Proof.
  intros Hu. unfold Py.endswith.
  assert (Hr : forall c, In c (list_ascii_of_string (Py.rev_string (Py.str_Z n))) ->
                 Py.is_digit c = true \/ c = "-"%char).
  { intros c Hc. rewrite rev_string_chars in Hc.
    apply (str_Z_chars n). apply in_rev. exact Hc. }
  destruct (Py.rev_string (Py.str_Z n)) as [|c rest]; [reflexivity|].
  destruct (Hr c (or_introl eq_refl)) as [Hd| ->].
  - cbn [Py.rev_string list_ascii_of_string rev app string_of_list_ascii String.prefix].
    destruct (ascii_dec u c) as [<-|_]; [|reflexivity].
    cbn in Hu. destruct Hu as [<-|[<-|[<-|[<-|[]]]]]; discriminate Hd.
  - cbn in Hu. destruct Hu as [<-|[<-|[<-|[<-|[]]]]]; reflexivity.
Qed.

End DurationFacts.

(* ================================================================== *)
(** ** Bounds of the scorer's signals *)

Module ScoreFacts.
Import Scorer.

Lemma ramp_range z : (0 <= _z_ramp z <= 1)%Q.
Proof. split; ScorerFacts.ramp_arith. Qed.

Lemma z_to_score_range v m s : (0 <= _z_to_score v m s <= 1)%Q.
Proof. apply ramp_range. Qed.

Lemma ua_range ua : (0 <= _score_user_agent ua <= 0.9)%Q.
Proof.
  unfold _score_user_agent. destruct (String.eqb ua ""); [split; lra|].
  destruct (existsb _ _); split; lra.
Qed.

Lemma path_range p : (0 <= _score_path p <= 0.8)%Q.
Proof.
  unfold _score_path. destruct (512 <? _)%nat; [split; lra|].
  destruct (40 <? _)%nat; split; lra.
Qed.

Ltac clamp_cases :=
  unfold clamp01 in *;
  repeat match goal with
  | |- context [Qmax ?a ?b] =>
      let H := fresh "H" in let E := fresh "E" in
      destruct (Q.max_spec a b) as [[H E]|[H E]]; rewrite E in *; clear E
  end;
  repeat match goal with
  | |- context [Qmin ?a ?b] =>
      let H := fresh "H" in let E := fresh "E" in
      destruct (Q.min_spec a b) as [[H E]|[H E]]; rewrite E in *; clear E
  end.

Lemma clamp_range x : (0 <= clamp01 x <= 1)%Q.
Proof. clamp_cases; split; lra. Qed.

Lemma clamp_le_bound x b : (x <= b)%Q -> (0 <= b)%Q -> (clamp01 x <= b)%Q.
Proof. intros. clamp_cases; lra. Qed.

Lemma clamp_mono x y : (x <= y)%Q -> (clamp01 x <= clamp01 y)%Q.
Proof. intros. clamp_cases; lra. Qed.

Lemma score_upper f b rr bs :
  (Scorer.score f b rr bs <= 0.51 + 0.20 * clamp01 rr + 0.25 * clamp01 bs)%Q.
Proof.
  pose proof (clamp_range rr) as Hr. pose proof (clamp_range bs) as Hb.
  unfold Scorer.score. destruct (is_ready b); cbn [negb]; [|lra].
  cbv zeta. apply clamp_le_bound; [|lra].
  pose proof (z_to_score_range (Classifier.get (header_count f) 0%Q)
                (mean_header_count b) (std_header_count b)).
  pose proof (z_to_score_range (Classifier.get (content_length f) 0%Q)
                (mean_content_length b) (std_content_length b)).
  pose proof (ua_range (Classifier.get (user_agent f) "")).
  pose proof (path_range (Classifier.get (path f) "/")).
  lra.
Qed.

Lemma clamp_zero : clamp01 0 = 0%Q.
Proof. reflexivity. Qed.

End ScoreFacts.

(* ================================================================== *)
(** ** Facts about the behavior analyzer's session table *)

Module SessionFacts.
Import Behavior ScorerFacts.

Definition keys (l : list (string * IPSession)) : list string := map fst l.

Lemma lookup_none l k : lookup l k = None <-> ~ In k (keys l).
Proof.
  induction l as [|[k' v'] rest IH]; cbn [lookup keys map fst In]; [tauto|].
  fold (keys rest). destruct (String.eqb_spec k k') as [E|E].
  - subst. split; [discriminate|]. intros H. exfalso. apply H. now left.
  - rewrite IH. split; intros H; [intros [H'|H']; [congruence|tauto] | tauto].
Qed.

Lemma lookup_some_in l k s : lookup l k = Some s -> In (k, s) l.
Proof.
  induction l as [|[k' v'] rest IH]; cbn [lookup In]; [discriminate|].
  destruct (String.eqb_spec k k') as [E|E]; intros H.
  - inversion H; subst. now left.
  - right. now apply IH.
Qed.

Lemma in_lookup l k s : NoDup (keys l) -> In (k, s) l -> lookup l k = Some s.
Proof.
  induction l as [|[k' v'] rest IH]; cbn [lookup In keys map fst]; [contradiction|].
  fold (keys rest). intros Hn Hin. inversion Hn as [|? ? Hnot Hn']; subst.
  destruct Hin as [Heq|Hin].
  - inversion Heq; subst. now rewrite String.eqb_refl.
  - destruct (String.eqb_spec k k') as [E|E]; [|now apply IH].
    subst. exfalso. apply Hnot. apply (in_map fst) in Hin. exact Hin.
Qed.

Lemma lookup_assign_other l k k' v : k' <> k -> lookup (assign l k v) k' = lookup l k'.
Proof.
  intros Hne. induction l as [|[k1 v1] rest IH]; cbn [assign lookup].
  - destruct (String.eqb_spec k' k); [congruence|reflexivity].
  - destruct (String.eqb_spec k k1) as [E|E]; cbn [lookup].
    + subst. destruct (String.eqb_spec k' k1); [congruence|reflexivity].
    + rewrite IH. reflexivity.
Qed.

Lemma keys_assign_in l k v : In k (keys l) -> keys (assign l k v) = keys l.
Proof.
  induction l as [|[k1 v1] rest IH]; cbn [assign keys map fst In]; [contradiction|].
  fold (keys rest). intros H.
  destruct (String.eqb_spec k k1) as [E|E]; cbn [map fst].
  - now subst.
  - fold (keys (assign rest k v)). rewrite IH; [reflexivity|]. destruct H; [congruence|exact H].
Qed.

Lemma keys_assign_new l k v : ~ In k (keys l) -> keys (assign l k v) = (keys l ++ [k])%list.
Proof.
  induction l as [|[k1 v1] rest IH]; cbn [assign keys map fst In]; [reflexivity|].
  fold (keys rest). intros H.
  destruct (String.eqb_spec k k1) as [E|E]; [exfalso; apply H; now left|].
  cbn [map fst app]. fold (keys (assign rest k v)). rewrite IH; [reflexivity|tauto].
Qed.

Lemma keys_remove l k : keys (remove l k) = filter (fun x => negb (String.eqb x k)) (keys l).
Proof.
  induction l as [|[k1 v1] rest IH]; [reflexivity|].
  unfold remove in *. cbn [filter keys map fst]. fold (keys rest).
  destruct (negb (String.eqb k1 k)); cbn [map fst]; fold (keys (filter (fun kv => negb (String.eqb (fst kv) k)) rest));
    rewrite <- IH; reflexivity.
Qed.

Lemma lookup_remove l k0 k : lookup (remove l k0) k = if String.eqb k k0 then None else lookup l k.
Proof.
  induction l as [|[k1 v1] rest IH]; cbn [remove filter lookup].
  - destruct (String.eqb k k0); reflexivity.
  - unfold remove in IH. cbn [fst].
    destruct (String.eqb_spec k1 k0) as [E|E]; cbn [negb lookup].
    + subst. rewrite IH. destruct (String.eqb_spec k k0); [reflexivity|].
      destruct (String.eqb_spec k k0); [congruence|reflexivity].
    + rewrite IH. destruct (String.eqb_spec k k0) as [E'|E']; [|reflexivity].
      subst. destruct (String.eqb_spec k0 k1); [congruence|reflexivity].
Qed.

Lemma filter_length_lt {A} (f : A -> bool) l x :
  In x l -> f x = false -> (List.length (filter f l) < List.length l)%nat.
Proof.
  induction l as [|y l IH]; cbn [In]; [contradiction|].
  intros [<-|H] Hf; cbn [filter List.length].
  - rewrite Hf. pose proof (List.filter_length_le f l). lia.
  - destruct (f y); cbn [List.length]; [pose proof (IH H Hf)|pose proof (List.filter_length_le f l)]; lia.
Qed.

Lemma length_keys l : List.length (keys l) = List.length l.
Proof. apply length_map. Qed.

(** [oldest_from] names an entry of least [last_seen]. *)
Lemma oldest_from_min l best :
  exists s0, In (oldest_from l best, s0) (best :: l) /\
    forall kv, In kv (best :: l) -> (last_seen s0 <= last_seen (snd kv))%Q.
Proof.
  revert best. induction l as [|kv rest IH]; intros best; cbn [oldest_from].
  - exists (snd best). destruct best as [k s]. split; [now left|].
    intros kv [<-|[]]. apply Qle_refl.
  - destruct (Qltb (last_seen (snd kv)) (last_seen (snd best))) eqn:E.
    + apply Qltb_true in E. destruct (IH kv) as [s0 [Hin Hmin]]. exists s0. split.
      * right. exact Hin.
      * intros kv' [<-|Hkv']; [|apply Hmin; exact Hkv'].
        pose proof (Hmin kv (or_introl eq_refl)). lra.
    + apply Qltb_false in E. destruct (IH best) as [s0 [Hin Hmin]]. exists s0. split.
      * destruct Hin as [Hin|Hin]; [now left | right; right; exact Hin].
      * intros kv' [<-|[<-|Hkv']].
        -- apply Hmin. now left.
        -- pose proof (Hmin best (or_introl eq_refl)). lra.
        -- apply Hmin. right. exact Hkv'.
Qed.

Lemma cleanup_keys a now :
  NoDup (keys (sessions a)) -> NoDup (keys (sessions (_maybe_cleanup a now))) /\
  (List.length (sessions (_maybe_cleanup a now)) <= List.length (sessions a))%nat.
Proof.
  intros H. unfold _maybe_cleanup. destruct (Qltb (now - last_cleanup a) 60); [split; [exact H | lia]|].
  cbn [sessions]. split; [|apply List.filter_length_le].
  induction (sessions a) as [|[k s] rest IH]; cbn [filter]; [exact H|].
  cbn [keys map fst] in H. inversion H as [|? ? Hnot Hn]; subst. fold (keys rest) in Hn.
  destruct (negb _); cbn [keys map fst]; fold (keys (filter (fun kv => negb (Qltb (last_seen (snd kv)) (now - SESSION_TTL))) rest)); [|now apply IH].
  constructor; [|now apply IH].
  intros Hin. apply Hnot. apply in_map_iff in Hin as [[k' s'] [Hk Hin]]. cbn [fst] in Hk. subst k'.
  apply filter_In in Hin as [Hin _]. apply (in_map fst) in Hin. exact Hin.
Qed.

Lemma cleanup_keeps a now k s :
  In (k, s) (sessions a) -> (now - SESSION_TTL <= last_seen s)%Q ->
  In (k, s) (sessions (_maybe_cleanup a now)).
Proof.
  intros Hin Hl. unfold _maybe_cleanup. destruct (Qltb (now - last_cleanup a) 60); [exact Hin|].
  cbn [sessions]. apply filter_In. split; [exact Hin|]. cbn [snd].
  destruct (Qltb (last_seen s) (now - SESSION_TTL)) eqn:E; [|reflexivity].
  apply Qltb_true in E. lra.
Qed.

Lemma record_and_score_fresh a now client_ip path method ua al referer cookie hoh :
  (forall s, get_session (_maybe_cleanup a now) client_ip = Some s -> request_count s < 2) ->
  fst (record_and_score a now client_ip path method ua al referer cookie hoh) = 0%Q.
Proof.
  intros H. unfold record_and_score. unfold get_session in H.
  destruct (lookup (sessions (_maybe_cleanup a now)) client_ip) as [s|] eqn:L;
    cbn [fst]; apply BehaviorFacts.compute_score_low; cbn [record request_count new_session].
  - specialize (H s eq_refl). lia.
  - lia.
Qed.

End SessionFacts.

(* ================================================================== *)
(** ** Facts about the traffic counters *)

Module TrafficFacts.
Import Traffic.



End TrafficFacts.

(* ================================================================== *)
(** ** Facts about the keys the rate limiter reads *)

Module RuleLimitFacts.
Import Redis RateLimiter.

(** The keys [allow] reads and writes for [client_ip]. *)
Definition allow_key (client_ip k : string) : Prop :=
  k = ip_key client_ip \/ k = sub_key client_ip \/ k = global_key.

Lemma pipeline_agree (P : string -> Prop) k now ws m ttl st1 st2 :
  P k -> (forall k', P k' -> st1 k' = st2 k') ->
  fst (window_pipeline k now ws m ttl st1) = fst (window_pipeline k now ws m ttl st2) /\
  (forall k', P k' ->
     snd (window_pipeline k now ws m ttl st1) k' = snd (window_pipeline k now ws m ttl st2) k').
Proof.
  intros Hk H. unfold window_pipeline, zmembers. cbn [fst snd].
  rewrite (BlockerFacts.live_same_key st1 st2 now k (H k Hk)).
  split; [reflexivity|]. intros k' Hk'. unfold upd.
  destruct (String.eqb k' k); [reflexivity|]. apply H, Hk'.
Qed.

Ltac step_agree P k :=
  match goal with
  | H : forall k', P k' -> ?s1 k' = ?s2 k' |- context [window_pipeline k ?now ?ws ?m ?ttl ?s1] =>
      let Hc := fresh "Hc" in let Ha := fresh "Ha" in
      let c1 := fresh "c" in let t1 := fresh "t" in
      let c2 := fresh "c" in let t2 := fresh "t" in
      destruct (pipeline_agree P k now ws m ttl s1 s2 ltac:(unfold allow_key; tauto) H) as [Hc Ha];
      destruct (window_pipeline k now ws m ttl s1) as [c1 t1];
      destruct (window_pipeline k now ws m ttl s2) as [c2 t2];
      cbn [fst snd] in Hc, Ha; subst c2; clear H
  end.

(** [allow] decides from the three keys it touches alone. *)
Lemma allow_agree cfg client_ip now m st1 st2 :
  (forall k, allow_key client_ip k -> st1 k = st2 k) ->
  fst (allow cfg client_ip now m (Some st1)) = fst (allow cfg client_ip now m (Some st2)).
Proof.
  intros H. unfold allow, _check_key. cbv beta iota zeta.
  step_agree (allow_key client_ip) (ip_key client_ip).
  destruct (_ <=? rate_limit_per_ip cfg); cbn [negb]; [|reflexivity].
  step_agree (allow_key client_ip) (sub_key client_ip).
  destruct (_ <=? rate_limit_per_subnet cfg); cbn [negb]; [|reflexivity].
  step_agree (allow_key client_ip) global_key.
  destruct (_ <=? rate_limit_global cfg); reflexivity.
Qed.

Lemma rule_key_not_allow_key r ip ip' : ~ allow_key ip' (rule_key r ip).
Proof.
  unfold allow_key, rule_key, ip_key, sub_key, global_key.
  intros [H|[H|H]]; cbn [append] in H; discriminate H.
Qed.

Lemma rule_key_inj r1 ip1 r2 ip2 :
  ~ In ":"%char (list_ascii_of_string r1) -> ~ In ":"%char (list_ascii_of_string r2) ->
  rule_key r1 ip1 = rule_key r2 ip2 -> r1 = r2 /\ ip1 = ip2.
Proof.
  unfold rule_key. intros H1 H2 E. apply BlockerFacts.app_inj_l in E.
  assert (Es := f_equal (Py.split ":") E).
  rewrite !TokenFacts.colon_app, !SplitFacts.split_app in Es by assumption.
  injection Es as Er _. subst r2. split; [reflexivity|].
  apply BlockerFacts.app_inj_l in E. rewrite !TokenFacts.colon_app in E.
  injection E as E. exact E.
Qed.

Lemma check_rule_limit_store client_ip rule_name limit window_sec now member st :
  snd (check_rule_limit client_ip rule_name limit window_sec now member (Some st)) =
  Some (snd (window_pipeline (rule_key rule_name client_ip) now
               (now - inject_Z window_sec)%Q member (window_sec + 10) st)).
Proof.
  unfold check_rule_limit. cbv zeta.
  destruct (window_pipeline _ _ _ _ _ _); reflexivity.
Qed.

Lemma check_rule_limit_result client_ip rule_name limit window_sec now member st :
  fst (check_rule_limit client_ip rule_name limit window_sec now member (Some st)) =
  (fst (window_pipeline (rule_key rule_name client_ip) now
          (now - inject_Z window_sec)%Q member (window_sec + 10) st) <=? limit,
   fst (window_pipeline (rule_key rule_name client_ip) now
          (now - inject_Z window_sec)%Q member (window_sec + 10) st)).
Proof.
  unfold check_rule_limit. cbv zeta.
  destruct (window_pipeline _ _ _ _ _ _); reflexivity.
Qed.

End RuleLimitFacts.

(* ================================================================== *)
(** * The specification's claims *)

Module Claims.
Import Redis RateLimiter WindowFacts StringFacts Samples.

(** ** C1 *)

(** C1: N calls of [allow] from one IP inside one 60-second window (all
    timestamps less than 60 s apart, fresh members, the three keys empty
    at the start, subnet and global limits at least N): the k-th call's
    per-IP [ZCARD] is k (it counts the member just added), the call is
    allowed iff that count is at most the per-IP limit L, and exactly
    min(N, L) calls are allowed. *)
Theorem allow_window_min_count (cfg : Settings) (client_ip : string)
    (calls : list (Q * string)) (st : store) :
  (0 <= rate_limit_per_ip cfg)%Z ->
  (Z.of_nat (List.length calls) <= rate_limit_per_subnet cfg)%Z ->
  (Z.of_nat (List.length calls) <= rate_limit_global cfg)%Z ->
  st (ip_key client_ip) = None ->
  st (sub_key client_ip) = None ->
  st global_key = None ->
  NoDup (map snd calls) ->
  (forall t1 t2, In t1 (map fst calls) -> In t2 (map fst calls) -> (t2 - t1 < 60)%Q) ->
  map fst (allow_trace cfg client_ip calls (Some st)) =
    map Z.of_nat (seq 1 (List.length calls)) /\
  map snd (allow_trace cfg client_ip calls (Some st)) =
    map (fun count => count <=? rate_limit_per_ip cfg)
        (map fst (allow_trace cfg client_ip calls (Some st))) /\
  Z.of_nat (List.length (filter (fun ok => ok) (map snd (allow_trace cfg client_ip calls (Some st))))) =
    Z.min (Z.of_nat (List.length calls)) (rate_limit_per_ip cfg).
Proof.
  intros HL Hsub Hglob Hip Hs Hg Hnd Hwin.
  assert (Htr : allow_trace cfg client_ip calls (Some st) =
    map (fun k => (Z.of_nat k, Z.of_nat k <=? rate_limit_per_ip cfg))
        (seq 1 (List.length calls))).
  { apply (allow_trace_from cfg client_ip calls [] st); simpl; try assumption.
    - left. split; [reflexivity | exact Hip].
    - unfold raw_len. rewrite Hs. lia.
    - unfold raw_len. rewrite Hg. lia. }
  rewrite Htr, !map_map. split; [reflexivity|]. split; [reflexivity|].
  cbn [snd]. now apply allowed_count_min.
Qed.

Lemma allow_window_min_count_witness :
  map snd (allow_trace cfg_small "10.0.0.1" calls_small (Some empty)) = [true; true; false] /\
  Z.of_nat (List.length (filter (fun ok => ok)
    (map snd (allow_trace cfg_small "10.0.0.1" calls_small (Some empty))))) = 2%Z.
Proof.
  destruct (allow_window_min_count cfg_small "10.0.0.1" calls_small empty)
    as [H1 [H2 H3]];
    [simpl; lia | simpl; lia | simpl; lia | reflexivity | reflexivity | reflexivity
    | repeat constructor; simpl; intuition discriminate
    | intros t1 t2 Ht1 Ht2; simpl in Ht1, Ht2;
      intuition (subst; vm_compute; reflexivity) |].
  split; [rewrite H2, H1; reflexivity | rewrite H3; reflexivity].
Defined.

(** ** C2 *)

(** C2 (as stated, refuted): a token meeting (a) to (d), with [ts] the
    integer [2^1024], is rejected: [time.time() - int(ts)] raises
    [OverflowError], which the [except] turns into [False]. *)
Lemma verify_token_overflow_counterexample :
  (exists nonce ts sig pow_nonce n,
     Py.split ":" token_huge = ["1.2.3.4"; nonce; ts; sig; pow_nonce] /\
     Py.int_of_string ts = Some n /\
     (1700000100 - inject_Z n <= 3600)%Q /\
     sig = SHA256.hmac_hex secret0 (Py.encode ("1.2.3.4" ++ ":" ++ nonce ++ ":" ++ ts)) /\
     Py.startswith (SHA256.sha256_hex (Py.join ":" ["1.2.3.4"; nonce; ts; sig; pow_nonce]))
       "00" = true) /\
  Challenge._verify_token secret0 token_huge "1.2.3.4" 1700000100 = false.
Proof.
  split; [|vm_compute; reflexivity].
  exists "ab", ts_huge, sig_huge, "213", (2 ^ 1024)%Z.
  split; [vm_compute; reflexivity|]. split; [vm_compute; reflexivity|].
  split; [apply Qle_bool_iff; vm_compute; reflexivity|].
  split; vm_compute; reflexivity.
Qed.

(** C2 (amended): [_verify_token] accepts a cookie exactly when it splits
    on [:] into five parts [ip:nonce:ts:sig:pow_nonce] with (a) [sig] the
    HMAC-SHA256 hex of [ip:nonce:ts] under the secret, (b) [ip] the
    client IP, (c) [ts] an integer literal of magnitude below the float
    overflow bound [2^1024 - 2^970] with [now - ts <= 3600], and (d) the
    SHA-256 hex of [ip:nonce:ts:sig:pow_nonce] starting with [00];
    [maybe_challenge] lets the request through exactly for such a cookie,
    and answers any other cookie as it answers no cookie. *)
Theorem verify_token_exact_conditions (secret : list Z) (client_ip : string) (now : Q) :
  (forall token,
     Challenge._verify_token secret token client_ip now = true <->
     exists nonce ts sig pow_nonce n,
       Py.split ":" token = [client_ip; nonce; ts; sig; pow_nonce] /\
       Py.int_of_string ts = Some n /\
       Z.abs n < Challenge.FLOAT_OVERFLOW /\
       (now - inject_Z n <= inject_Z Challenge.CHALLENGE_TTL)%Q /\
       sig = SHA256.hmac_hex secret (Py.encode (client_ip ++ ":" ++ nonce ++ ":" ++ ts)) /\
       Py.startswith (SHA256.sha256_hex (Py.join ":" [client_ip; nonce; ts; sig; pow_nonce]))
         "00" = true) /\
  (forall cookie nonce,
     Challenge.maybe_challenge secret (Some cookie) client_ip now nonce = None <->
     Challenge._verify_token secret cookie client_ip now = true) /\
  (forall cookie nonce,
     Challenge._verify_token secret cookie client_ip now = false ->
     Challenge.maybe_challenge secret (Some cookie) client_ip now nonce =
     Challenge.maybe_challenge secret None client_ip now nonce).
Proof.
  split; [|split].
  - intros token. split; [apply verify_token_true|].
    intros (nonce & ts & sig & pow & n & Hs & Hn & Ho & Ht & Hsig & Hpow).
    eapply verify_token_of_conditions; eassumption.
  - intros cookie nonce. unfold Challenge.maybe_challenge.
    destruct (String.eqb_spec cookie "") as [->|Hne]; cbn [negb andb].
    + split; [discriminate | intros H; vm_compute in H; discriminate H].
    + destruct (Challenge._verify_token secret cookie client_ip now); split;
        first [reflexivity | discriminate].
  - intros cookie nonce Hv. unfold Challenge.maybe_challenge.
    rewrite Hv, andb_false_r. reflexivity.
Qed.

Lemma verify_token_exact_conditions_witness :
  Challenge._verify_token secret0 token_ok "1.2.3.4" 1700000100 = true.
Proof.
  apply (proj2 (proj1 (verify_token_exact_conditions secret0 "1.2.3.4" 1700000100)
                  token_ok)).
  exists "ab", "1700000000",
    "9bf1b641f41ab6d95dcd1d62505e144f746a94c3bf51a81a17d7479fddb5f51d", "88",
    1700000000%Z.
  split; [vm_compute; reflexivity|]. split; [vm_compute; reflexivity|].
  split; [vm_compute; reflexivity|].
  split; [apply Qle_bool_iff; vm_compute; reflexivity|].
  split; vm_compute; reflexivity.
Defined.

(** ** C4 *)

(** C4 (as stated, refuted): two fingerprints that differ only in
    [accept_encoding] get the same composite id. *)
Lemma composite_id_encoding_counterexample :
  Fingerprint.accept_encoding fp_gzip <> Fingerprint.accept_encoding fp_br /\
  Fingerprint.composite_id fp_gzip = Fingerprint.composite_id fp_br.
Proof. split; [discriminate | vm_compute; reflexivity]. Qed.

(** C4 (amended): the composite id is the client IP, [:], and the first 16
    hex characters of the SHA-256 of the JA3 hash, header-order hash,
    User-Agent and Accept-Language joined with [|] (a missing field as the
    empty string); accept-encoding, connection type and raw headers do not
    enter it. *)
Theorem composite_id_formula (fp : Fingerprint.RequestFingerprint) :
  Fingerprint.composite_id fp =
    Fingerprint.client_ip fp ++ ":" ++
    Py.take 16 (SHA256.sha256_hex
      (Fingerprint.or_empty (Fingerprint.ja3_hash fp) ++ "|" ++
       Fingerprint.or_empty (Fingerprint.header_order_hash fp) ++ "|" ++
       Fingerprint.or_empty (Fingerprint.user_agent fp) ++ "|" ++
       Fingerprint.or_empty (Fingerprint.accept_language fp))) /\
  (forall ae ct rh,
     Fingerprint.composite_id {|
       Fingerprint.client_ip := Fingerprint.client_ip fp;
       Fingerprint.ja3_hash := Fingerprint.ja3_hash fp;
       Fingerprint.header_order_hash := Fingerprint.header_order_hash fp;
       Fingerprint.user_agent := Fingerprint.user_agent fp;
       Fingerprint.accept_language := Fingerprint.accept_language fp;
       Fingerprint.accept_encoding := ae;
       Fingerprint.connection_type := ct;
       Fingerprint.raw_headers := rh |} = Fingerprint.composite_id fp).
Proof. split; [reflexivity | intros; reflexivity]. Qed.

(** ** C5 *)

(** C5: [classify] is the function of (features, rate_count, rate_limit,
    behavior_score) that returns the label of the first rule, in the fixed
    order HTTP_FLOOD, HTTP_FLOOD, SLOWLORIS, CREDENTIAL_STUFFING,
    API_ABUSE, SCRAPING, whose condition holds for [r = rate_count /
    rate_limit] ([r = 0] when [rate_limit <= 0]), and [None] when none
    holds. *)
Theorem classify_first_match (features : Classifier.Features) (rate_count rate_limit : Z)
    (behavior_score : Q) :
  Classifier.classify features rate_count rate_limit behavior_score =
  Classifier.classify_spec features rate_count rate_limit behavior_score.
Proof. reflexivity. Qed.

(** ** C7 *)

(** C7: for [std > 0], with [z = |x - mean| / std], [_z_to_score] is [0]
    for [z <= 1.5], [(z - 1.5) / 1.5] for [1.5 <= z <= 3] and [1] for
    [z >= 3]; it is monotone non-decreasing in [|x - mean|]; and it is
    continuous in [|x - mean|] (for every [eps > 0], [delta = eps * std]
    works). *)
Theorem z_to_score_piecewise_monotone_continuous (mean std : Q) :
  (0 < std)%Q ->
  (forall x,
     ((Qabs (x - mean) / std <= 1.5)%Q -> (Scorer._z_to_score x mean std == 0)%Q) /\
     ((1.5 <= Qabs (x - mean) / std)%Q -> (Qabs (x - mean) / std <= 3)%Q ->
      (Scorer._z_to_score x mean std == (Qabs (x - mean) / std - 1.5) / 1.5)%Q) /\
     ((3 <= Qabs (x - mean) / std)%Q -> (Scorer._z_to_score x mean std == 1)%Q)) /\
  (forall x y, (Qabs (x - mean) <= Qabs (y - mean))%Q ->
     (Scorer._z_to_score x mean std <= Scorer._z_to_score y mean std)%Q) /\
  (forall eps, (0 < eps)%Q -> exists delta, (0 < delta)%Q /\
     forall x y, (Qabs (Qabs (x - mean) - Qabs (y - mean)) < delta)%Q ->
       (Qabs (Scorer._z_to_score x mean std - Scorer._z_to_score y mean std) < eps)%Q).
Proof.
  intros Hs. split; [|split].
  - intros x. rewrite (ScorerFacts.z_to_score_pos x mean std Hs).
    split; [|split].
    + apply ScorerFacts.ramp_low.
    + apply ScorerFacts.ramp_mid.
    + apply ScorerFacts.ramp_high.
  - intros x y Hxy.
    rewrite (ScorerFacts.z_to_score_pos x mean std Hs),
            (ScorerFacts.z_to_score_pos y mean std Hs).
    apply ScorerFacts.ramp_mono, ScorerFacts.div_pos_le; assumption.
  - intros eps He. exists (eps * std)%Q. split; [now apply Qmult_lt_0_compat|].
    intros x y Hxy.
    rewrite (ScorerFacts.z_to_score_pos x mean std Hs),
            (ScorerFacts.z_to_score_pos y mean std Hs).
    eapply Qle_lt_trans; [apply ScorerFacts.ramp_lipschitz|].
    apply ScorerFacts.div_pos_abs_lt; assumption.
Qed.

Lemma z_to_score_piecewise_monotone_continuous_witness :
  (Scorer._z_to_score 2 0 1 == (Qabs (2 - 0) / 1 - 1.5) / 1.5)%Q /\
  (Scorer._z_to_score 1 0 1 <= Scorer._z_to_score (-4) 0 1)%Q.
Proof.
  destruct (z_to_score_piecewise_monotone_continuous 0 1 ltac:(vm_compute; reflexivity))
    as [Hp [Hm _]].
  split.
  - apply (Hp 2%Q); apply Qle_bool_iff; vm_compute; reflexivity.
  - apply Hm. apply Qle_bool_iff; vm_compute; reflexivity.
Defined.

(** ** C6 *)

(** C6: the score [record_and_score] returns lies in [[0, 1]]; the dict
    then holds the recorded session for the IP; the score is [0] when that
    session's [request_count] is below 3, and otherwise it is
    [min(1, max(0, 0.30 t + 0.15 (1 - d) + 0.15 h + 0.20 r + 0.20 b))] for
    the five signals of that session. *)
Theorem record_and_score_bounds (a : Behavior.Analyzer) (now : Q)
    (client_ip path method ua al : string) (referer cookie : option string) (hoh : string) :
  (0 <= fst (Behavior.record_and_score a now client_ip path method ua al referer cookie hoh)
     <= 1)%Q /\
  exists s,
    Behavior.get_session
      (snd (Behavior.record_and_score a now client_ip path method ua al referer cookie hoh))
      client_ip = Some s /\
    (Behavior.request_count s < 3 ->
     fst (Behavior.record_and_score a now client_ip path method ua al referer cookie hoh)
       = 0%Q) /\
    (3 <= Behavior.request_count s ->
     (fst (Behavior.record_and_score a now client_ip path method ua al referer cookie hoh) ==
      Qmin 1 (Qmax 0 (0.30 * Behavior._timing_regularity s +
                      0.15 * (1 - Behavior._path_diversity s) +
                      0.15 * Behavior._header_consistency s +
                      0.20 * Behavior._rate_score s +
                      0.20 * Behavior._browser_indicators s)))%Q).
Proof.
  destruct (BehaviorFacts.record_and_score_stored a now client_ip path method ua al
              referer cookie hoh) as [s [Hs Hf]].
  rewrite Hf. split; [apply BehaviorFacts.compute_score_range|].
  exists s. split; [exact Hs|]. split.
  - apply BehaviorFacts.compute_score_low.
  - apply BehaviorFacts.compute_score_formula.
Qed.

Lemma record_and_score_bounds_witness :
  fst (Behavior.record_and_score analyzer0 100 "1.2.3.4" "/" "GET" "curl/8" ""
         None None "h") = 0%Q.
Proof.
  destruct (record_and_score_bounds analyzer0 100 "1.2.3.4" "/" "GET" "curl/8" ""
              None None "h") as [_ [s [Hs [Hlow _]]]].
  apply Hlow. vm_compute in Hs. injection Hs as <-. vm_compute. reflexivity.
Defined.

(** ** C10 *)

(** C10: after [record_and_score] has scored a request, the score the
    handler recomputes from the IP's stored session ([_compute_score] when
    its [request_count] is at least 3, else [0]) equals the score
    [record_and_score] returned; both are [0] when the stored session's
    [request_count] is below 3. *)
Theorem handler_score_matches_detection (a : Behavior.Analyzer) (now : Q)
    (client_ip path method ua al : string) (referer cookie : option string) (hoh : string) :
  Handler.handler_behavior_score
    (snd (Behavior.record_and_score a now client_ip path method ua al referer cookie hoh))
    client_ip =
  fst (Behavior.record_and_score a now client_ip path method ua al referer cookie hoh) /\
  forall s,
    Behavior.get_session
      (snd (Behavior.record_and_score a now client_ip path method ua al referer cookie hoh))
      client_ip = Some s ->
    Behavior.request_count s < 3 ->
    Handler.handler_behavior_score
      (snd (Behavior.record_and_score a now client_ip path method ua al referer cookie hoh))
      client_ip = 0%Q /\
    fst (Behavior.record_and_score a now client_ip path method ua al referer cookie hoh) = 0%Q.
Proof.
  destruct (BehaviorFacts.record_and_score_stored a now client_ip path method ua al
              referer cookie hoh) as [s [Hs Hf]].
  unfold Handler.handler_behavior_score. rewrite Hs, Hf. split.
  - destruct (Z.leb_spec 3 (Behavior.request_count s)); [reflexivity|].
    symmetry. now apply BehaviorFacts.compute_score_low.
  - intros s' Hs' Hlt. injection Hs' as <-.
    destruct (Z.leb_spec 3 (Behavior.request_count s)); [lia|].
    split; [reflexivity | now apply BehaviorFacts.compute_score_low].
Qed.

Lemma handler_score_matches_detection_witness :
  Handler.handler_behavior_score
    (snd (Behavior.record_and_score analyzer0 100 "1.2.3.4" "/" "GET" "curl/8" ""
            None None "h")) "1.2.3.4" = 0%Q.
Proof.
  destruct (handler_score_matches_detection analyzer0 100 "1.2.3.4" "/" "GET" "curl/8" ""
              None None "h") as [_ Hz].
  apply (Hz _ eq_refl); vm_compute; reflexivity.
Defined.

(** ** C3 *)

(** C3 (as stated, refuted): six POSTs from one IP to [/api/login], which
    the login rule matches, all get 404; the per-rule limit is never
    evaluated and the store is left untouched. *)
Lemma login_api_path_counterexample :
  Rules.match_request [login_rule] "/api/login" "POST" = [login_rule] /\
  run_posts secret0 [login_rule] "1.2.3.4" "/api/login" "api/login" six_times 0
    (Some Redis.empty) =
  (List.repeat (Handler.Respond Handler.not_found) 6, Some Redis.empty).
Proof. split; vm_compute; reflexivity. Qed.

(** C3 (amended): a request whose path starts with [/api/] gets 404 before
    the rule stage, whatever the store holds.  Where the login rule is
    reached, the per-rule pipeline counts the request; up to 5 the request
    goes on, and above 5 the usage is over 100%, so the 95% step wins:
    [block:<ip>] is set to ["Rule escalation: Login Protection"] with TTL
    3600 s and the answer is 403; the 80% JS challenge is never the
    outcome. *)
Theorem login_rule_outcomes (secret : list Z) (client_ip : string) (cookie : option string)
    (now : Q) (fresh : nat -> string) (nonce : string) (r : client)
    (request_path path method : string) (st : store) :
  (Py.startswith request_path "/api/" = true ->
   Handler.reverse_proxy_prefix secret [login_rule] request_path path method client_ip
     cookie now fresh nonce r = (Handler.Respond Handler.not_found, r)) /\
  Handler.rule_limits secret [login_rule] client_ip cookie now fresh nonce 0 (Some st) =
    (let '(count, st') := window_pipeline (rule_key "Login Protection" client_ip) now
                            (now - inject_Z 60) (fresh 0%nat) 70 st in
     if count <=? 5 then (Handler.Continue, Some st')
     else (Handler.Respond Handler.forbidden,
           Some (set_ex st' now ("block:" ++ client_ip)
                   "Rule escalation: Login Protection" 3600))).
Proof.
  split.
  - intros H. unfold Handler.reverse_proxy_prefix. rewrite H. reflexivity.
  - unfold Handler.rule_limits, login_rule, login_rule_at.
    cbn [Rules.limits Rules.per_ip Rules.name Rules.escalation].
    change (negb (Rules.truthy (Some "5/minute"))) with false. cbv iota.
    change (Rules.parse_rate_string (Classifier.get (Some "5/minute") ""))
      with (Some (5%Z, 60%Z)).
    cbv iota beta. unfold RateLimiter.check_rule_limit.
    change (60 + 10)%Z with 70%Z.
    destruct (window_pipeline (rule_key "Login Protection" client_ip) now
                (now - inject_Z 60) (fresh 0%nat) 70 st) as [count st'].
    cbv iota beta.
    destruct (Z.leb_spec count 5) as [Hle|Hgt]; [reflexivity|].
    change (5 =? 0)%Z with false. cbv iota beta.
    rewrite (HandlerFacts.resolve_login_block _ (HandlerFacts.usage_over count Hgt)).
    rewrite String.eqb_refl, HandlerFacts.parse_login_duration. reflexivity.
Qed.

Lemma login_rule_outcomes_witness :
  Handler.reverse_proxy_prefix secret0 [login_rule] "/api/login" "api/login" "POST"
    "1.2.3.4" None 100 (fun _ => "m") "n" (Some Redis.empty) =
  (Handler.Respond Handler.not_found, Some Redis.empty).
Proof.
  apply (proj1 (login_rule_outcomes secret0 "1.2.3.4" None 100 (fun _ => "m") "n"
                  (Some Redis.empty) "/api/login" "api/login" "POST" Redis.empty)).
  reflexivity.
Defined.

(** ** C8 *)

(** C8: with no Redis client, [allow] returns [True], [allow_with_count]
    and [check_rule_limit] return [(True, 0)], [get_ip_count] returns 0 and
    [is_blocked] returns [False], none of them touching a store; so the
    handler's blocklist check and rule stage never answer the request
    (the rule stage goes on, or raises on a malformed rate string). *)
Theorem fail_open_without_store (cfg : Settings) (client_ip rule_name : string)
    (limit window_sec : Z) (now : Q) (member : string) (secret : list Z)
    (rules : list Rules.Rule) (cookie : option string) (fresh : nat -> string)
    (nonce : string) (i : nat) :
  RateLimiter.allow cfg client_ip now member None = (true, None) /\
  RateLimiter.allow_with_count cfg client_ip now member None = ((true, 0), None) /\
  RateLimiter.check_rule_limit client_ip rule_name limit window_sec now member None =
    ((true, 0), None) /\
  RateLimiter.get_ip_count client_ip now None = 0 /\
  IPBlocker.is_blocked client_ip now None = false /\
  (Handler.rule_limits secret rules client_ip cookie now fresh nonce i None =
     (Handler.Continue, None) \/
   Handler.rule_limits secret rules client_ip cookie now fresh nonce i None =
     (Handler.Raise, None)).
Proof.
  repeat split. apply HandlerFacts.rule_limits_no_store.
Qed.

(** ** C9 *)

(** C9 (as stated, refuted): a rate string with no unit, and one with an
    unknown unit, are both accepted, with a 60-second window. *)
Lemma parse_rate_string_counterexample :
  Rules.parse_rate_string "5" = Some (5, 60) /\
  Rules.parse_rate_string "5/fortnight" = Some (5, 60).
Proof. split; vm_compute; reflexivity. Qed.

(** C9 (amended): [parse_rate_string] splits on [/]; the count is [int()]
    of the first part (the parse fails exactly when that fails); the unit
    is the lower-cased second part, [minute] when there is none; second,
    minute, hour and day give 1, 60, 3600 and 86400 s and any other unit
    60 s; parts after the second are ignored. *)
Theorem parse_rate_string_lenient (count_str unit rest : string) :
  Py.contains count_str "/" = false ->
  Py.contains unit "/" = false ->
  Rules.parse_rate_string count_str =
    option_map (fun n => (n, 60)) (Py.int_of_string count_str) /\
  Rules.parse_rate_string (count_str ++ "/" ++ unit) =
    option_map (fun n => (n, match Rules.unit_map (Py.lower unit) with
                              | Some w => w | None => 60 end))
      (Py.int_of_string count_str) /\
  Rules.parse_rate_string (count_str ++ "/" ++ unit ++ "/" ++ rest) =
    Rules.parse_rate_string (count_str ++ "/" ++ unit) /\
  (forall u w, In (u, w) [("second", 1); ("minute", 60); ("hour", 3600); ("day", 86400)] ->
     Rules.parse_rate_string (count_str ++ "/" ++ u) =
       option_map (fun n => (n, w)) (Py.int_of_string count_str)).
Proof.
  intros Hc Hu.
  assert (Hgen : forall u, Py.contains u "/" = false ->
            Rules.parse_rate_string (count_str ++ "/" ++ u) =
            option_map (fun n => (n, match Rules.unit_map (Py.lower u) with
                                      | Some w => w | None => 60 end))
              (Py.int_of_string count_str)).
  { intros u Hu'. unfold Rules.parse_rate_string. cbn [append].
    rewrite (RulesFacts.split_slash_app _ _ Hc), (RulesFacts.split_slash_no_sep _ Hu').
    cbn [nth]. destruct (Py.int_of_string count_str); reflexivity. }
  split; [|split; [|split]].
  - unfold Rules.parse_rate_string. rewrite (RulesFacts.split_slash_no_sep _ Hc).
    cbn [nth]. destruct (Py.int_of_string count_str); reflexivity.
  - exact (Hgen unit Hu).
  - rewrite (Hgen unit Hu). unfold Rules.parse_rate_string. cbn [append].
    rewrite (RulesFacts.split_slash_app _ _ Hc), (RulesFacts.split_slash_app _ _ Hu).
    cbn [nth]. destruct (Py.int_of_string count_str); reflexivity.
  - intros u w Hin.
    destruct Hin as [E|[E|[E|[E|[]]]]]; injection E as <- <-;
      rewrite Hgen by reflexivity; reflexivity.
Qed.

Lemma parse_rate_string_lenient_witness :
  Rules.parse_rate_string ("5" ++ "/" ++ "fortnight" ++ "/" ++ "x") = Some (5, 60).
Proof.
  destruct (parse_rate_string_lenient "5" "fortnight" "x" eq_refl eq_refl)
    as [_ [H2 [H3 _]]].
  rewrite H3, H2. reflexivity.
Defined.

End Claims.

(* ================================================================== *)
(** * Further properties of the code *)

Module Extras.
Import Redis IPBlocker BlockerFacts.



(** X2: a permanent block ([duration_sec] absent or [0]) puts the IP on the
    blocklist set; if that set has no expiry, the IP is then blocked at every
    later check at which it is not allowlisted, and [get_blocked_ips] lists
    it. *)
Theorem block_permanent (ip reason : string) (dur : option Z) (now t : Q)
    (st : store) :
  (dur = None \/ dur = Some 0%Z) ->
  (forall e, st BLOCKLIST_KEY = Some e -> expires e = None) ->
  (sismember st t ALLOWLIST_KEY ip = false ->
   is_blocked ip t (block ip reason dur now (Some st)) = true) /\
  In ip (get_blocked_ips t (block ip reason dur now (Some st))).
Proof.
  intros Hdur Hk.
  assert (block ip reason dur now (Some st) = Some (sadd st now BLOCKLIST_KEY ip)) as ->
    by (destruct Hdur as [-> | ->]; reflexivity).
  pose proof (sadd_member st now t BLOCKLIST_KEY ip Hk) as Hm.
  split.
  - intros Ha. cbn [is_blocked].
    rewrite (sismember_same_key _ st _ ALLOWLIST_KEY)
      by (apply sadd_other_key, allow_neq_blocklist).
    rewrite Ha, Hm. now destruct (exists_key _ _ _).
  - cbn [get_blocked_ips]. unfold sismember in Hm.
    apply existsb_exists in Hm as [x [Hx Ex]].
    apply String.eqb_eq in Ex. now subst x.
Qed.

Lemma block_permanent_witness :
  is_blocked "10.0.0.2" 1000000 (block "10.0.0.2" "abuse" None 0 (Some empty)) = true /\
  In "10.0.0.2" (get_blocked_ips 5 (block "10.0.0.2" "abuse" (Some 0%Z) 0 (Some empty))).
Proof.
  split.
  - apply (proj1 (block_permanent "10.0.0.2" "abuse" None 0 1000000 empty
                    (or_introl eq_refl) (fun e H => ltac:(discriminate H)))).
    reflexivity.
  - exact (proj2 (block_permanent "10.0.0.2" "abuse" (Some 0%Z) 0 5 empty
                    (or_intror eq_refl) (fun e H => ltac:(discriminate H)))).
Defined.

(** X3: once an IP is allowlisted (the allowlist set having no expiry), it is
    never reported blocked, even if it is blocked afterwards, for a time or
    permanently. *)
Theorem allowlisted_never_blocked (ip reason : string) (dur : option Z)
    (now now' t : Q) (st : store) :
  (forall e, st ALLOWLIST_KEY = Some e -> expires e = None) ->
  is_blocked ip t (IPBlocker.allow ip now (Some st)) = false /\
  is_blocked ip t (block ip reason dur now' (IPBlocker.allow ip now (Some st))) = false.
Proof.
  intros Hk. pose proof (sadd_member st now t ALLOWLIST_KEY ip Hk) as Hm.
  split.
  - cbn [IPBlocker.allow is_blocked]. now rewrite Hm.
  - cbn [IPBlocker.allow block].
    destruct dur as [d|]; [destruct (d =? 0)|]; cbn [is_blocked].
    + rewrite (sismember_same_key _ (sadd st now ALLOWLIST_KEY ip) _ ALLOWLIST_KEY)
        by (apply sadd_other_key, allow_neq_blocklist). now rewrite Hm.
    + rewrite (sismember_same_key _ (sadd st now ALLOWLIST_KEY ip) _ ALLOWLIST_KEY)
        by (apply set_ex_other_key, allow_neq_block). now rewrite Hm.
    + rewrite (sismember_same_key _ (sadd st now ALLOWLIST_KEY ip) _ ALLOWLIST_KEY)
        by (apply sadd_other_key, allow_neq_blocklist). now rewrite Hm.
Qed.

Lemma allowlisted_never_blocked_witness :
  is_blocked "10.0.0.3" 7 (block "10.0.0.3" "x" None 5
     (IPBlocker.allow "10.0.0.3" 0 (Some empty))) = false.
Proof.
  exact (proj2 (allowlisted_never_blocked "10.0.0.3" "x" None 0 5 7 empty
                  (fun e H => ltac:(discriminate H)))).
Defined.

(** X4: after [unblock ip], the IP is no longer blocked at any later check,
    and whether any other IP is blocked is unchanged. *)
Theorem unblock_effect (ip ip' : string) (now t : Q) (st : store) :
  (now <= t)%Q ->
  is_blocked ip t (unblock ip now (Some st)) = false /\
  (ip' <> ip -> is_blocked ip' t (unblock ip now (Some st)) = is_blocked ip' t (Some st)).
Proof.
  intros Ht. cbn [unblock is_blocked]. split.
  - destruct (sismember _ _ ALLOWLIST_KEY ip); [reflexivity|].
    rewrite (exists_same_key _ (del st ("block:" ++ ip)))
      by (apply srem_other_key; intros E; exact (blocklist_neq_block ip (eq_sym E))).
    rewrite del_gone. now apply srem_same.
  - intros Hne.
    rewrite (sismember_same_key _ st _ ALLOWLIST_KEY).
    2:{ rewrite srem_other_key by exact allow_neq_blocklist.
        apply del_other_key, allow_neq_block. }
    rewrite (exists_same_key _ st _ ("block:" ++ ip')).
    2:{ rewrite srem_other_key
          by (intros E; exact (blocklist_neq_block ip' (eq_sym E))).
        apply del_other_key, block_key_neq, Hne. }
    rewrite srem_other by exact Hne.
    rewrite (sismember_same_key _ st _ BLOCKLIST_KEY)
      by (apply del_other_key, blocklist_neq_block).
    reflexivity.
Qed.

Lemma unblock_effect_witness :
  is_blocked "10.0.0.4" 1 (unblock "10.0.0.4" 1
     (block "10.0.0.4" "x" None 0 (Some empty))) = false.
Proof.
  destruct (block "10.0.0.4" "x" None 0 (Some empty)) as [st|] eqn:E;
    [| discriminate E].
  exact (proj1 (unblock_effect "10.0.0.4" "" 1 1 st (Qle_refl 1))).
Defined.

(** X5: [get_blocked_ips] lists only the permanent blocklist: a timed block
    leaves it unchanged, and after [unblock ip] it no longer contains [ip]. *)
Theorem get_blocked_ips_effect (ip reason : string) (d : Z) (now t : Q)
    (st : store) :
  d <> 0 ->
  get_blocked_ips t (block ip reason (Some d) now (Some st)) = get_blocked_ips t (Some st) /\
  ((now <= t)%Q -> ~ In ip (get_blocked_ips t (unblock ip now (Some st)))).
Proof.
  intros Hd. split.
  - cbn [block]. assert ((d =? 0) = false) as -> by (apply Z.eqb_neq; lia).
    cbn [get_blocked_ips]. apply smembers_same_key, set_ex_other_key, blocklist_neq_block.
  - intros Ht. cbn [unblock get_blocked_ips]. now apply srem_smembers_same.
Qed.

Lemma get_blocked_ips_effect_witness :
  get_blocked_ips 3 (block "10.0.0.5" "x" (Some 60%Z) 0
     (block "10.0.0.6" "y" None 0 (Some empty))) = ["10.0.0.6"].
Proof.
  destruct (block "10.0.0.6" "y" None 0 (Some empty)) as [st|] eqn:E;
    [| discriminate E].
  rewrite (proj1 (get_blocked_ips_effect "10.0.0.5" "x" 60 0 3 st ltac:(lia))).
  injection E as <-. reflexivity.
Defined.

Import RateLimiter RateFacts.

(** X6: [RateLimiter.allow] writes only the per-IP, per-subnet and global
    window keys of the request's IP; and when the per-IP count exceeds the
    per-IP limit it rejects the request having written only the per-IP
    key, so a rejected request is not counted against its subnet or the
    global window. *)
Theorem allow_touches_only_its_keys (cfg : Settings) (ip : string) (now : Q)
    (m : string) (st : store) :
  exists st', snd (allow cfg ip now m (Some st)) = Some st' /\
    (forall k, k <> ip_key ip -> k <> sub_key ip -> k <> global_key -> st' k = st k) /\
    (rate_limit_per_ip cfg <
       fst (window_pipeline (ip_key ip) now (now - inject_Z WINDOW_SEC)%Q m
              (WINDOW_SEC + 10) st) ->
     fst (allow cfg ip now m (Some st)) = false /\
     forall k, k <> ip_key ip -> st' k = st k).
Proof.
  unfold allow. rewrite WindowFacts.check_key_some.
  set (w1 := window_pipeline (ip_key ip) now (now - inject_Z WINDOW_SEC)%Q m
               (WINDOW_SEC + 10) st).
  destruct (fst w1 <=? rate_limit_per_ip cfg) eqn:E1; cbn [negb fst snd].
  2:{ exists (snd w1). split; [reflexivity|]. split.
      - intros k Hk _ _. now apply WindowFacts.pipeline_other.
      - intros _. split; [reflexivity|]. intros k Hk. now apply WindowFacts.pipeline_other. }
  apply Z.leb_le in E1.
  rewrite WindowFacts.check_key_some.
  set (w2 := window_pipeline (sub_key ip) now (now - inject_Z WINDOW_SEC)%Q m
               (WINDOW_SEC + 10) (snd w1)).
  assert (F2 : forall k, k <> ip_key ip -> k <> sub_key ip -> snd w2 k = st k).
  { intros k H1 H2. unfold w2. rewrite WindowFacts.pipeline_other by exact H2.
    now apply WindowFacts.pipeline_other. }
  destruct (fst w2 <=? rate_limit_per_subnet cfg); cbn [negb fst snd].
  2:{ exists (snd w2). split; [reflexivity|]. split; [intros k H1 H2 _; now apply F2 | lia]. }
  rewrite WindowFacts.check_key_some.
  set (w3 := window_pipeline global_key now (now - inject_Z WINDOW_SEC)%Q m
               (WINDOW_SEC + 10) (snd w2)).
  exists (snd w3). split; [destruct (fst w3 <=? _); reflexivity|]. split; [|lia].
  intros k H1 H2 H3. unfold w3. rewrite WindowFacts.pipeline_other by exact H3.
  now apply F2.
Qed.

Lemma allow_touches_only_its_keys_witness :
  fst (allow {| rate_limit_per_ip := 0; rate_limit_per_subnet := 10;
                rate_limit_global := 10 |} "10.0.0.7" 0 "0:ab" (Some empty)) = false.
Proof.
  destruct (allow_touches_only_its_keys
              {| rate_limit_per_ip := 0; rate_limit_per_subnet := 10;
                 rate_limit_global := 10 |} "10.0.0.7" 0 "0:ab" empty)
    as [st' [_ [_ H]]].
  apply H. vm_compute. reflexivity.
Defined.



(** X8: [_ip_to_subnet] is idempotent: the subnet it returns for a valid
    address (["a.b.c.0/24"]) is not itself a valid address, so mapping it
    again returns it unchanged, as it does any other input it returns as is. *)
Theorem ip_to_subnet_idempotent (ip : string) :
  _ip_to_subnet (_ip_to_subnet ip) = _ip_to_subnet ip.
Proof.
  destruct (subnet_shape ip) as [H | (a & b & c & na & nb & nc & Pa & Pb & Pc & H)];
    rewrite H; [exact H | exact (subnet_of_subnet a b c na nb nc Pa Pb Pc)].
Qed.

(** X9: two valid dotted quads get the same subnet (so share one [rl:sub:]
    counter) exactly when their first three octets are equal. *)
Theorem ip_to_subnet_same_24 (a b c d a' b' c' d' : string) :
  parse_octet a <> None -> parse_octet b <> None -> parse_octet c <> None ->
  parse_octet d <> None -> parse_octet a' <> None -> parse_octet b' <> None ->
  parse_octet c' <> None -> parse_octet d' <> None ->
  _ip_to_subnet (a ++ "." ++ b ++ "." ++ c ++ "." ++ d) =
  _ip_to_subnet (a' ++ "." ++ b' ++ "." ++ c' ++ "." ++ d') <->
  a = a' /\ b = b' /\ c = c'.
Proof.
  destruct (parse_octet a) as [na|] eqn:Pa; [intros _|congruence].
  destruct (parse_octet b) as [nb|] eqn:Pb; [intros _|congruence].
  destruct (parse_octet c) as [nc|] eqn:Pc; [intros _|congruence].
  destruct (parse_octet d) as [nd|] eqn:Pd; [intros _|congruence].
  destruct (parse_octet a') as [na'|] eqn:Pa'; [intros _|congruence].
  destruct (parse_octet b') as [nb'|] eqn:Pb'; [intros _|congruence].
  destruct (parse_octet c') as [nc'|] eqn:Pc'; [intros _|congruence].
  destruct (parse_octet d') as [nd'|] eqn:Pd'; [intros _|congruence].
  rewrite (subnet_quad a b c d na nb nc nd Pa Pb Pc Pd).
  rewrite (subnet_quad a' b' c' d' na' nb' nc' nd' Pa' Pb' Pc' Pd').
  split.
  - intros E. apply (f_equal (Py.split ".")) in E.
    rewrite (split_subnet a b c na nb nc Pa Pb Pc),
            (split_subnet a' b' c' na' nb' nc' Pa' Pb' Pc') in E.
    injection E as -> -> ->. auto.
  - intros (-> & -> & ->). reflexivity.
Qed.

Lemma ip_to_subnet_same_24_witness :
  _ip_to_subnet ("192" ++ "." ++ "168" ++ "." ++ "1" ++ "." ++ "7") =
  _ip_to_subnet ("192" ++ "." ++ "168" ++ "." ++ "1" ++ "." ++ "200") /\
  _ip_to_subnet ("192" ++ "." ++ "168" ++ "." ++ "1" ++ "." ++ "7") <>
  _ip_to_subnet ("192" ++ "." ++ "168" ++ "." ++ "2" ++ "." ++ "7").
Proof.
  split.
  - apply (proj2 (ip_to_subnet_same_24 "192" "168" "1" "7" "192" "168" "1" "200"
      ltac:(vm_compute; discriminate) ltac:(vm_compute; discriminate)
      ltac:(vm_compute; discriminate) ltac:(vm_compute; discriminate)
      ltac:(vm_compute; discriminate) ltac:(vm_compute; discriminate)
      ltac:(vm_compute; discriminate) ltac:(vm_compute; discriminate))).
    auto.
  - intros E.
    apply (proj1 (ip_to_subnet_same_24 "192" "168" "1" "7" "192" "168" "2" "7"
      ltac:(vm_compute; discriminate) ltac:(vm_compute; discriminate)
      ltac:(vm_compute; discriminate) ltac:(vm_compute; discriminate)
      ltac:(vm_compute; discriminate) ltac:(vm_compute; discriminate)
      ltac:(vm_compute; discriminate) ltac:(vm_compute; discriminate))) in E.
    destruct E as (_ & _ & E). discriminate E.
Defined.

Import Challenge TokenFacts SplitFacts.

(** X10: a token issued by [_generate_challenge] for [ip], extended with a
    proof-of-work suffix, passes [_verify_token] for the same [ip] within
    [CHALLENGE_TTL] seconds of its timestamp exactly when its proof of work
    holds: the field split, timestamp parse and signature check always
    succeed (the IP, nonce and suffix having no [':']). *)
Theorem issued_token_verifies (secret : list Z) (ip nonce pow : string) (issued now : Q) :
  ~ In ":"%char (list_ascii_of_string ip) ->
  ~ In ":"%char (list_ascii_of_string nonce) ->
  ~ In ":"%char (list_ascii_of_string pow) ->
  Z.abs (trunc issued) < FLOAT_OVERFLOW ->
  (now - inject_Z (trunc issued) <= inject_Z CHALLENGE_TTL)%Q ->
  _verify_token secret (_generate_challenge secret ip issued nonce ++ ":" ++ pow) ip now =
  Py.startswith
    (SHA256.sha256_hex (_generate_challenge secret ip issued nonce ++ ":" ++ pow)) "00".
Proof.
  intros Hip Hnonce Hpow Ho Ht.
  set (ts := Py.str_Z (trunc issued)).
  set (sig := SHA256.hmac_hex secret (Py.encode (ip ++ ":" ++ nonce ++ ":" ++ ts))).
  assert (Hgen : _generate_challenge secret ip issued nonce =
                 (ip ++ ":" ++ nonce ++ ":" ++ ts) ++ ":" ++ sig) by reflexivity.
  assert (Hsplit : Py.split ":" (_generate_challenge secret ip issued nonce ++ ":" ++ pow) =
                   [ip; nonce; ts; sig; pow]).
  { rewrite Hgen, !StringFacts.str_app_assoc, !colon_app.
    rewrite (split_app _ ip) by exact Hip.
    rewrite (split_app _ nonce) by exact Hnonce.
    rewrite (split_app _ ts) by apply str_Z_no_colon.
    rewrite (split_app _ sig) by apply hmac_no_colon.
    rewrite (split_no_sep _ pow) by exact Hpow. reflexivity. }
  assert (Hbig : FLOAT_OVERFLOW < 2 ^ 1024) by (vm_compute; reflexivity).
  unfold _verify_token. rewrite Hsplit, String.eqb_refl. cbn [negb].
  change (Py.int_of_string ts) with (Py.int_of_string (Py.str_Z (trunc issued))).
  rewrite int_of_str_Z by lia.
  assert ((FLOAT_OVERFLOW <=? Z.abs (trunc issued)) = false) as -> by (apply Z.leb_gt; lia).
  apply Qle_bool_iff in Ht. rewrite Ht. cbn [negb].
  fold sig. rewrite String.eqb_refl. cbn [negb].
  rewrite Hgen. reflexivity.
Qed.

Lemma issued_token_verifies_witness :
  _verify_token Samples.secret0
    (_generate_challenge Samples.secret0 "1.2.3.4" 1700000000 "ab" ++ ":" ++ "88")
    "1.2.3.4" 1700000100 = true.
Proof.
  rewrite (issued_token_verifies Samples.secret0 "1.2.3.4" "ab" "88" 1700000000 1700000100
    ltac:(cbv; intuition discriminate) ltac:(cbv; intuition discriminate)
    ltac:(cbv; intuition discriminate) ltac:(vm_compute; reflexivity)
    ltac:(apply Qle_bool_iff; vm_compute; reflexivity)).
  vm_compute. reflexivity.
Defined.

(** X11: a client whose address contains [':'] (any IPv6 address) never
    passes [_verify_token], whatever the token: the token's first
    [':']-separated field cannot equal the address.  So [maybe_challenge]
    always answers such a client with a challenge page. *)
Theorem colon_ip_never_verifies (secret : list Z) (token ip : string) (now : Q)
    (cookie : option string) (nonce : string) :
  In ":"%char (list_ascii_of_string ip) ->
  _verify_token secret token ip now = false /\
  maybe_challenge secret cookie ip now nonce =
    Some {| status_code := 503;
            content := ChallengePage (_generate_challenge secret ip now nonce) |}.
Proof.
  intros Hip.
  assert (Hv : forall token, _verify_token secret token ip now = false).
  { intros tok. unfold _verify_token.
    pose proof (split_parts_no_sep ":" tok) as Hparts.
    destruct (Py.split ":" tok) as [|a [|b [|c [|d [|e [|x l]]]]]]; try reflexivity.
    destruct (String.eqb_spec a ip) as [->|_]; [|reflexivity].
    exfalso. exact (Hparts ip (or_introl eq_refl) Hip). }
  split; [apply Hv|].
  unfold maybe_challenge. destruct cookie as [c|]; [rewrite Hv, andb_false_r|]; reflexivity.
Qed.

Lemma colon_ip_never_verifies_witness :
  _verify_token Samples.secret0 Samples.token_ok "::1" 1700000100 = false.
Proof.
  exact (proj1 (colon_ip_never_verifies Samples.secret0 Samples.token_ok "::1" 1700000100
                  None "" ltac:(cbv; auto))).
Defined.

Import Rules Handler EscalationFacts DurationFacts.

Lemma endswith_snoc s c u :
  Py.endswith (s ++ String c "") (String u "") = Ascii.eqb u c.
Proof.
  unfold Py.endswith. rewrite rev_string_snoc.
  change (Py.rev_string (String u "")) with (String u "").
  cbn [String.prefix]. destruct (ascii_dec u c) as [<-|Hne].
  - rewrite prefix_empty, Ascii.eqb_refl. reflexivity.
  - symmetry. apply Ascii.eqb_neq, Hne.
Qed.

(** X12: [_duration_to_seconds] reads back an integer written by [str]
    followed by a unit: [n] with ["m"], ["h"], ["d"] or ["s"] gives [n]
    minutes, hours, days or seconds in seconds, and a bare [n] gives [n]
    seconds. *)
Theorem duration_to_seconds_units (n : Z) :
  Z.abs n < 2 ^ 1024 ->
  _duration_to_seconds (Py.str_Z n ++ "m") = Some (n * 60) /\
  _duration_to_seconds (Py.str_Z n ++ "h") = Some (n * 3600) /\
  _duration_to_seconds (Py.str_Z n ++ "d") = Some (n * 86400) /\
  _duration_to_seconds (Py.str_Z n ++ "s") = Some n /\
  _duration_to_seconds (Py.str_Z n) = Some n.
Proof.
  intros Hn.
  assert (Hunit : forall u, In u ["m"; "h"; "d"; "s"]%char ->
    _duration_to_seconds (Py.str_Z n ++ String u "") =
    let scaled k := option_map (fun m => m * k) (Some n) in
    if Ascii.eqb u "m" then scaled 60
    else if Ascii.eqb u "h" then scaled 3600
    else if Ascii.eqb u "d" then scaled 86400
    else scaled 1).
  { intros u Hu. unfold _duration_to_seconds. cbv zeta.
    rewrite (str_Z_unit_clean n u Hu), !endswith_snoc, drop_last_snoc, int_of_str_Z by exact Hn.
    cbn in Hu. destruct Hu as [<-|[<-|[<-|[<-|[]]]]]; reflexivity. }
  split; [rewrite (Hunit "m"%char) by (cbn; tauto); reflexivity|].
  split; [rewrite (Hunit "h"%char) by (cbn; tauto); reflexivity|].
  split; [rewrite (Hunit "d"%char) by (cbn; tauto); reflexivity|].
  split; [rewrite (Hunit "s"%char) by (cbn; tauto); cbn; f_equal; lia|].
  unfold _duration_to_seconds. cbv zeta. rewrite str_Z_clean.
  rewrite !str_Z_endswith_unit by (cbn; tauto).
  exact (int_of_str_Z n Hn).
Qed.

Lemma duration_to_seconds_units_witness :
  _duration_to_seconds (Py.str_Z 10 ++ "m") = Some 600 /\
  _duration_to_seconds (Py.str_Z (-2) ++ "d") = Some (-172800).
Proof.
  split.
  - exact (proj1 (duration_to_seconds_units 10 ltac:(vm_compute; reflexivity))).
  - exact (proj1 (proj2 (proj2 (duration_to_seconds_units (-2)
                                   ltac:(vm_compute; reflexivity))))).
Defined.

(** X13: [_resolve_escalation] returns ["rate_limit"] when no step's
    threshold is reached, and otherwise the action of a reached step whose
    threshold is the highest among the reached ones, whatever order the
    steps are given in. *)
Theorem resolve_escalation_highest (steps : list EscalationStep) (u : Q) :
  ((forall s, In s steps -> (u < threshold s)%Q) -> _resolve_escalation steps u = "rate_limit") /\
  (forall s, In s steps -> (threshold s <= u)%Q ->
   exists y, In y steps /\ (threshold y <= u)%Q /\ _resolve_escalation steps u = action y /\
     forall x, In x steps -> (threshold x <= u)%Q -> (threshold x <= threshold y)%Q).
Proof.
  unfold _resolve_escalation. rewrite resolve_fold.
  destruct (last_match _ (sort_steps steps)) as [y|] eqn:E.
  - destruct (last_match_some _ _ _ (sort_steps_sorted steps) E) as (Hin & Hp & Hmax).
    rewrite sort_steps_in in Hin. apply Qle_bool_iff in Hp.
    split.
    + intros Hall. specialize (Hall y Hin). lra.
    + intros _ _ _. exists y. split; [exact Hin|]. split; [exact Hp|]. split; [reflexivity|].
      intros x Hx Hxu. apply Hmax; [apply (proj2 (sort_steps_in steps x)), Hx | apply Qle_bool_iff, Hxu].
  - split; [reflexivity|]. intros s Hs Hsu. exfalso.
    pose proof (last_match_none _ _ E s (proj2 (sort_steps_in steps s) Hs)) as F.
    apply Qle_bool_iff in Hsu. congruence.
Qed.

Lemma resolve_escalation_highest_witness :
  _resolve_escalation ExtraSamples.esc_steps 50 = "rate_limit" /\
  exists y, In y ExtraSamples.esc_steps /\ (threshold y <= 92)%Q /\
    _resolve_escalation ExtraSamples.esc_steps 92 = action y.
Proof.
  split.
  - apply (proj1 (resolve_escalation_highest ExtraSamples.esc_steps 50)).
    intros s Hs. cbn in Hs.
    destruct Hs as [<-|[<-|[<-|[]]]]; apply Qlt_alt; vm_compute; reflexivity.
  - destruct (proj2 (resolve_escalation_highest ExtraSamples.esc_steps 92)
      {| threshold := 90; action := "block"; duration := Some "10m" |}
      ltac:(cbn; tauto) ltac:(apply Qle_bool_iff; vm_compute; reflexivity))
      as (y & Hy & Hyu & Hr & _).
    exists y. auto.
Defined.

(** X14: [_parse_duration] returns [None] when no step has a (non-empty)
    duration, and otherwise parses the duration of a step that has one and
    the highest threshold among those that have one. *)
Theorem parse_duration_highest (steps : list EscalationStep) :
  ((forall s, In s steps -> truthy (duration s) = false) -> _parse_duration steps = Some None) /\
  (forall s, In s steps -> truthy (duration s) = true ->
   exists y, In y steps /\ truthy (duration y) = true /\
     _parse_duration steps =
       option_map Some (_duration_to_seconds (Classifier.get (duration y) "")) /\
     forall x, In x steps -> truthy (duration x) = true -> (threshold x <= threshold y)%Q).
Proof.
  unfold _parse_duration. rewrite first_duration_rev.
  destruct (last_match _ (sort_steps steps)) as [y|] eqn:E.
  - destruct (last_match_some _ _ _ (sort_steps_sorted steps) E) as (Hin & Hp & Hmax).
    rewrite sort_steps_in in Hin.
    split.
    + intros Hall. rewrite (Hall y Hin) in Hp. discriminate.
    + intros _ _ _. exists y. split; [exact Hin|]. split; [exact Hp|]. split; [reflexivity|].
      intros x Hx Hxd. apply Hmax; [apply (proj2 (sort_steps_in steps x)), Hx | exact Hxd].
  - split; [reflexivity|]. intros s Hs Hsd. exfalso.
    pose proof (last_match_none _ _ E s (proj2 (sort_steps_in steps s) Hs)) as F.
    cbn beta in F. congruence.
Qed.

Lemma parse_duration_highest_witness :
  exists y, In y ExtraSamples.esc_steps /\
    _parse_duration ExtraSamples.esc_steps =
      option_map Some (_duration_to_seconds (Classifier.get (duration y) "")).
Proof.
  destruct (proj2 (parse_duration_highest ExtraSamples.esc_steps)
      {| threshold := 90; action := "block"; duration := Some "10m" |}
      ltac:(cbn; tauto) eq_refl) as (y & Hy & _ & Hr & _).
  exists y. auto.
Defined.

Import Scorer ScoreFacts.

(** X15: [AnomalyScorer.score] is [0] while the baseline is not ready and
    always lies in [[0, 1]]; its per-request signals (header count, content
    length, user agent, path) contribute at most [0.51], so it never exceeds
    [0.51 + 0.20 * rate + 0.25 * behavior] with both inputs clamped to
    [[0, 1]]. *)
Theorem score_bounds (f : Features) (b : Baseline) (rate_ratio behavior_score : Q) :
  (is_ready b = false -> score f b rate_ratio behavior_score = 0%Q) /\
  (0 <= score f b rate_ratio behavior_score <= 1)%Q /\
  (score f b rate_ratio behavior_score <=
     0.51 + 0.20 * clamp01 rate_ratio + 0.25 * clamp01 behavior_score)%Q.
Proof.
  pose proof (clamp_range rate_ratio) as Hr. pose proof (clamp_range behavior_score) as Hb.
  unfold score. destruct (is_ready b); cbn [negb].
  2:{ split; [reflexivity|]. split; [split; lra | lra]. }
  split; [discriminate|]. cbv zeta.
  match goal with
  | |- context [clamp01 ?c] =>
      match c with
      | (0 + _ * 0.15 + _ * 0.10 + _ * 0.20 + _ * 0.10 + _ * 0.20 + _ * 0.25)%Q =>
          set (composite := c)
      end
  end.
  split; [apply clamp_range|].
  apply clamp_le_bound; [|lra].
  unfold composite.
  pose proof (z_to_score_range (Classifier.get (header_count f) 0%Q)
                (mean_header_count b) (std_header_count b)).
  pose proof (z_to_score_range (Classifier.get (content_length f) 0%Q)
                (mean_content_length b) (std_content_length b)).
  pose proof (ua_range (Classifier.get (user_agent f) "")).
  pose proof (path_range (Classifier.get (path f) "/")).
  lra.
Qed.

Lemma score_bounds_witness :
  score {| header_count := Some 100%Q; content_length := None; user_agent := Some "";
           path := None |} ExtraSamples.baseline_learning 1%Q 1%Q = 0%Q.
Proof.
  exact (proj1 (score_bounds {| header_count := Some 100%Q; content_length := None;
                                user_agent := Some ""; path := None |}
                             ExtraSamples.baseline_learning 1%Q 1%Q) eq_refl).
Defined.

(** X16: [AnomalyScorer.score] never decreases when the rate ratio or the
    behavior score it is given grows. *)
Theorem score_monotone (f : Features) (b : Baseline) (r1 r2 s1 s2 : Q) :
  (r1 <= r2)%Q -> (s1 <= s2)%Q -> (score f b r1 s1 <= score f b r2 s2)%Q.
Proof.
  intros Hr Hs. unfold score. destruct (is_ready b); cbn [negb]; [|lra].
  cbv zeta. apply clamp_mono.
  pose proof (clamp_mono _ _ Hr). pose proof (clamp_mono _ _ Hs). lra.
Qed.

Lemma score_monotone_witness :
  (score {| header_count := Some 12%Q; content_length := Some 0%Q; user_agent := Some "curl/8";
            path := Some "/" |}
         {| is_ready := true; mean_header_count := 10%Q; std_header_count := 1%Q;
            mean_content_length := 0%Q; std_content_length := 1%Q |} 0%Q 0%Q <=
   score {| header_count := Some 12%Q; content_length := Some 0%Q; user_agent := Some "curl/8";
            path := Some "/" |}
         {| is_ready := true; mean_header_count := 10%Q; std_header_count := 1%Q;
            mean_content_length := 0%Q; std_content_length := 1%Q |} 2%Q (1/2)%Q)%Q.
Proof.
  apply score_monotone; apply Qle_bool_iff; vm_compute; reflexivity.
Defined.

Lemma lower_empty s : Py.lower s = "" <-> s = "".
Proof. destruct s; cbn; split; congruence. Qed.

(** X17: [_score_user_agent] ignores letter case (user agents equal up to
    case score the same), gives [0.9] exactly for the empty user agent, and
    otherwise [0.5] or [0]. *)
Theorem score_user_agent_case (ua1 ua2 : string) :
  Py.lower ua1 = Py.lower ua2 ->
  _score_user_agent ua1 = _score_user_agent ua2 /\
  (_score_user_agent ua1 = 0.9%Q <-> ua1 = "") /\
  (ua1 <> "" -> _score_user_agent ua1 = 0.5%Q \/ _score_user_agent ua1 = 0%Q).
Proof.
  intros Hl. unfold _score_user_agent. cbv zeta.
  assert (He : String.eqb ua1 "" = String.eqb ua2 "").
  { destruct (String.eqb_spec ua1 "") as [E1|E1], (String.eqb_spec ua2 "") as [E2|E2];
      try reflexivity; exfalso.
    - apply E2, lower_empty. rewrite <- Hl, E1. reflexivity.
    - apply E1, lower_empty. rewrite Hl, E2. reflexivity. }
  rewrite <- He, <- Hl.
  split; [reflexivity|].
  destruct (String.eqb_spec ua1 "") as [E|E].
  - split; [split; [intros _; exact E | reflexivity] | intros H; contradiction].
  - split.
    + split; [|intros H; contradiction].
      destruct (existsb _ _); discriminate.
    + intros _. destruct (existsb _ _); [left|right]; reflexivity.
Qed.

Lemma score_user_agent_case_witness :
  _score_user_agent "CURL/8.4" = _score_user_agent "curl/8.4" /\
  _score_user_agent "curl/8.4" = 0.5%Q.
Proof.
  split; [exact (proj1 (score_user_agent_case "CURL/8.4" "curl/8.4" eq_refl)) | reflexivity].
Defined.

Lemma nodup_length {A} (d : forall x y : A, {x = y} + {x <> y}) (l : list A) :
  (List.length (nodup d l) <= List.length l)%nat.
Proof.
  induction l as [|x l IH]; cbn [nodup List.length]; [lia|].
  destruct (in_dec d x l); cbn [List.length]; lia.
Qed.

(** X18: [_score_path] gives [0] to any path of at most 40 characters and
    [0.8] to any path longer than 512; in between it gives [0.5] exactly when
    the path has more than 40 distinct characters, else [0]. *)
Theorem score_path_cases (p : string) :
  ((String.length p <= 40)%nat -> _score_path p = 0%Q) /\
  ((512 < String.length p)%nat -> _score_path p = 0.8%Q) /\
  (_score_path p = 0.5%Q <->
     (String.length p <= 512)%nat /\
     (40 < List.length (nodup ascii_dec (list_ascii_of_string p)))%nat).
Proof.
  pose proof (nodup_length ascii_dec (list_ascii_of_string p)) as Hn.
  rewrite TokenFacts.list_ascii_length in Hn.
  unfold _score_path.
  destruct (512 <? String.length p)%nat eqn:E1;
    [apply Nat.ltb_lt in E1 | apply Nat.ltb_ge in E1];
  destruct (40 <? List.length (nodup ascii_dec (list_ascii_of_string p)))%nat eqn:E2;
    [apply Nat.ltb_lt in E2 | apply Nat.ltb_ge in E2 | apply Nat.ltb_lt in E2 | apply Nat.ltb_ge in E2];
  (split; [intros H; try lia; reflexivity|]);
  (split; [intros H; try lia; reflexivity|]);
  split; intros H; try discriminate H; try reflexivity; lia.
Qed.

Lemma score_path_cases_witness :
  _score_path "/index.html" = 0%Q /\
  _score_path "/abcdefghijklmnopqrstuvwxyzABCDEFGHIJKLMNOP" = 0.5%Q.
Proof.
  split.
  - apply (proj1 (score_path_cases "/index.html")). cbn. lia.
  - apply (proj2 (proj2 (score_path_cases "/abcdefghijklmnopqrstuvwxyzABCDEFGHIJKLMNOP"))).
    split; vm_compute; lia.
Defined.

Import Behavior SessionFacts.

(** X19: [record_and_score] keeps the session table within
    [MAX_TRACKED] entries with one entry per IP: if the table had distinct
    IPs and at most [MAX_TRACKED] entries before the call, it still does
    after it. *)
Theorem record_and_score_capacity a now client_ip path method ua al referer cookie hoh :
  NoDup (keys (sessions a)) -> Z.of_nat (List.length (sessions a)) <= MAX_TRACKED ->
  NoDup (keys (sessions (snd (record_and_score a now client_ip path method ua al referer cookie hoh)))) /\
  Z.of_nat (List.length (sessions (snd (record_and_score a now client_ip path method ua al referer cookie hoh))))
    <= MAX_TRACKED.
Proof.
  intros Hn Hl. destruct (cleanup_keys a now Hn) as [Hn1 Hl1].
  unfold record_and_score. set (a1 := _maybe_cleanup a now) in *.
  rewrite <- (length_keys (sessions a)) in Hl.
  destruct (lookup (sessions a1) client_ip) as [s|] eqn:L; cbn [sessions snd].
  - assert (Hin : In client_ip (keys (sessions a1))).
    { apply lookup_some_in in L. apply (in_map fst) in L. exact L. }
    rewrite keys_assign_in by exact Hin. split; [exact Hn1|].
    rewrite <- length_keys, keys_assign_in, length_keys by exact Hin.
    rewrite length_keys in Hl. lia.
  - apply lookup_none in L.
    (* the table before inserting the new session *)
    assert (Ht : forall table : list (string * IPSession),
               NoDup (keys table) -> ~ In client_ip (keys table) ->
               Z.of_nat (List.length table) < MAX_TRACKED ->
               NoDup (keys (assign (assign table client_ip new_session) client_ip
                  (record new_session now path method ua al referer cookie hoh))) /\
               Z.of_nat (List.length (assign (assign table client_ip new_session) client_ip
                  (record new_session now path method ua al referer cookie hoh))) <= MAX_TRACKED).
    { intros table Htn Hti Htl.
      assert (Hk : keys (assign (assign table client_ip new_session) client_ip
                     (record new_session now path method ua al referer cookie hoh)) =
                   (keys table ++ [client_ip])%list).
      { rewrite keys_assign_in; rewrite keys_assign_new by exact Hti; [reflexivity|].
        apply in_or_app. right. now left. }
      split.
      - rewrite Hk. apply NoDup_app; [exact Htn | constructor; [intros []|constructor] |].
        intros x Hx [<-|[]]. exact (Hti Hx).
      - rewrite <- length_keys, Hk, List.length_app, length_keys. cbn [List.length]. lia. }
    destruct (sessions a1) as [|first rest] eqn:E1.
    + apply Ht; [constructor | intros [] | unfold MAX_TRACKED; cbn; lia].
    + destruct (MAX_TRACKED <=? Z.of_nat (List.length (first :: rest))) eqn:Ecap.
      * apply Ht.
        -- rewrite keys_remove. apply NoDup_filter. exact Hn1.
        -- rewrite keys_remove. intros Hin. apply filter_In in Hin as [Hin _]. exact (L Hin).
        -- destruct (oldest_from_min rest first) as [s0 [Hin0 _]].
           apply (in_map fst) in Hin0. cbn [fst] in Hin0.
           rewrite <- length_keys, keys_remove.
           pose proof (filter_length_lt (fun x => negb (String.eqb x (oldest_from rest first)))
                         (keys (first :: rest)) _ Hin0) as Hlt.
           specialize (Hlt ltac:(cbv beta; rewrite String.eqb_refl; reflexivity)).
           rewrite length_keys in Hlt, Hl. try rewrite E1 in Hl1. lia.
      * apply Ht; [exact Hn1 | exact L | apply Z.leb_gt in Ecap; exact Ecap].
Qed.

Lemma record_and_score_capacity_witness :
  NoDup (keys (sessions (snd (record_and_score
    {| sessions := [("10.0.0.1", new_session)]; last_cleanup := 0 |} 100
    "10.0.0.2" "/" "GET" "curl/8" "" None None "h")))).
Proof.
  apply (record_and_score_capacity
    {| sessions := [("10.0.0.1", new_session)]; last_cleanup := 0 |} 100
    "10.0.0.2" "/" "GET" "curl/8" "" None None "h").
  - repeat constructor. intros [].
  - cbn. unfold MAX_TRACKED. lia.
Defined.

(** X20: apart from the requesting IP's own session, [record_and_score]
    keeps every session that the periodic cleanup keeps, unchanged, and in
    particular every session seen within the last [SESSION_TTL] seconds. The
    one exception is a new IP arriving when the cleaned table already holds
    [MAX_TRACKED] sessions: then exactly one other session is dropped, and it
    is one with the least [last_seen]. *)
Theorem record_and_score_keeps_others a now client_ip path method ua al referer cookie hoh :
  NoDup (keys (sessions a)) ->
  (forall k s, In (k, s) (sessions a) -> (now - SESSION_TTL <= last_seen s)%Q ->
     In (k, s) (sessions (_maybe_cleanup a now))) /\
  ((forall k s, In (k, s) (sessions (_maybe_cleanup a now)) -> k <> client_ip ->
      get_session (snd (record_and_score a now client_ip path method ua al referer cookie hoh)) k
        = Some s) \/
   (get_session (_maybe_cleanup a now) client_ip = None /\
    MAX_TRACKED <= Z.of_nat (List.length (sessions (_maybe_cleanup a now))) /\
    exists k0 s0, k0 <> client_ip /\ get_session (_maybe_cleanup a now) k0 = Some s0 /\
      get_session (snd (record_and_score a now client_ip path method ua al referer cookie hoh)) k0
        = None /\
      (forall k s, In (k, s) (sessions (_maybe_cleanup a now)) -> (last_seen s0 <= last_seen s)%Q) /\
      (forall k s, In (k, s) (sessions (_maybe_cleanup a now)) -> k <> client_ip -> k <> k0 ->
         get_session (snd (record_and_score a now client_ip path method ua al referer cookie hoh)) k
           = Some s))).
Proof.
  intros Hn. split; [intros k s; apply cleanup_keeps|].
  destruct (cleanup_keys a now Hn) as [Hn1 _].
  unfold record_and_score, get_session. set (a1 := _maybe_cleanup a now) in *.
  destruct (lookup (sessions a1) client_ip) as [s'|] eqn:L; cbn [sessions snd].
  - left. intros k s Hin Hne. rewrite lookup_assign_other by exact Hne.
    apply in_lookup; assumption.
  - destruct (sessions a1) as [|first rest] eqn:E1.
    + left. intros k s [].
    + destruct (MAX_TRACKED <=? Z.of_nat (List.length (first :: rest))) eqn:Ecap.
      * right. apply Z.leb_le in Ecap. split; [reflexivity|]. split; [exact Ecap|].
        destruct (oldest_from_min rest first) as [s0 [Hin0 Hmin]].
        set (k0 := oldest_from rest first) in *.
        assert (Hne0 : k0 <> client_ip).
        { intros ->. apply lookup_none in L. apply L. apply (in_map fst) in Hin0. exact Hin0. }
        exists k0, s0. split; [exact Hne0|]. split; [apply in_lookup; assumption|].
        split; [|split].
        -- rewrite !lookup_assign_other by exact Hne0. rewrite lookup_remove, String.eqb_refl.
           reflexivity.
        -- intros k s Hin. exact (Hmin (k, s) Hin).
        -- intros k s Hin Hne Hne'. rewrite !lookup_assign_other by exact Hne.
           rewrite lookup_remove. destruct (String.eqb_spec k k0) as [E|E]; [contradiction|].
           apply in_lookup; assumption.
      * left. intros k s Hin Hne. rewrite !lookup_assign_other by exact Hne.
        apply in_lookup; assumption.
Qed.

Lemma record_and_score_keeps_others_witness :
  get_session (snd (record_and_score
    {| sessions := [("10.0.0.1", new_session)]; last_cleanup := 0 |} 100
    "10.0.0.2" "/" "GET" "curl/8" "" None None "h")) "10.0.0.1" = Some new_session.
Proof.
  destruct (record_and_score_keeps_others
    {| sessions := [("10.0.0.1", new_session)]; last_cleanup := 0 |} 100
    "10.0.0.2" "/" "GET" "curl/8" "" None None "h") as [_ [H|[_ [Hcap _]]]].
  - repeat constructor. intros [].
  - apply H; [cbn; left; reflexivity | discriminate].
  - exfalso. apply Hcap. vm_compute. reflexivity.
Defined.

Import Traffic TrafficFacts.



Import RuleLimitFacts.

(** X22: a per-rule check ([check_rule_limit]) never changes what [allow]
    decides, for any IP: the rule counters live under [rl:rule:] keys,
    apart from the [rl:ip:], [rl:sub:] and [rl:global] keys. For rule names
    without [:], it does not change what [check_rule_limit] returns for any
    other (rule, IP) pair either. *)
Theorem check_rule_limit_isolated (cfg : Settings) (ip1 r1 ip2 r2 : string)
    (l1 w1 l2 w2 : Z) (t1 t2 now : Q) (m1 m2 m : string) (st : store) :
  fst (allow cfg ip2 now m (snd (check_rule_limit ip1 r1 l1 w1 t1 m1 (Some st)))) =
    fst (allow cfg ip2 now m (Some st)) /\
  (~ In ":"%char (list_ascii_of_string r1) -> ~ In ":"%char (list_ascii_of_string r2) ->
   (r1, ip1) <> (r2, ip2) ->
   fst (check_rule_limit ip2 r2 l2 w2 t2 m2 (snd (check_rule_limit ip1 r1 l1 w1 t1 m1 (Some st)))) =
   fst (check_rule_limit ip2 r2 l2 w2 t2 m2 (Some st))).
Proof.
  rewrite check_rule_limit_store. split.
  - apply allow_agree. intros k Hk. apply WindowFacts.pipeline_other.
    intros ->. exact (rule_key_not_allow_key _ _ _ Hk).
  - intros H1 H2 Hne. rewrite !check_rule_limit_result.
    rewrite (proj1 (pipeline_agree (fun k => k = rule_key r2 ip2) (rule_key r2 ip2) t2
                      (t2 - inject_Z w2)%Q m2 (w2 + 10) _ st eq_refl
                      ltac:(intros k' ->; apply WindowFacts.pipeline_other; intros E;
                            destruct (rule_key_inj r2 ip2 r1 ip1 H2 H1 E) as [E1 E2];
                            apply Hne; rewrite E1, E2; reflexivity))).
    reflexivity.
Qed.

Lemma check_rule_limit_isolated_witness :
  fst (check_rule_limit "10.0.0.1" "search" 5 60 10 "m2"
         (snd (check_rule_limit "10.0.0.1" "login" 5 60 10 "m1" (Some empty))))
  = fst (check_rule_limit "10.0.0.1" "search" 5 60 10 "m2" (Some empty)).
Proof.
  refine (proj2 (check_rule_limit_isolated Samples.cfg_small "10.0.0.1" "login" "10.0.0.1" "search"
            5 60 5 60 10 10 10 "m1" "m2" "m1" empty) _ _ _).
  - cbn. intuition discriminate.
  - cbn. intuition discriminate.
  - intros E. discriminate E.
Defined.

Import Rules.

(** X23: [match_request] compares methods without regard to case, never
    returns a disabled rule, lets a rule path ending in [*] match only
    paths that start with the text before the [*], and lets any other
    non-empty rule path match only that exact path. *)
Theorem match_request_paths (rules : list Rule) (r : Rule) (path m1 m2 : string) :
  (Py.upper m1 = Py.upper m2 -> match_request rules path m1 = match_request rules path m2) /\
  (enabled r = false -> ~ In r (match_request rules path m1)) /\
  (forall p, match_path r = Some (p ++ "*") ->
     In r (match_request rules path m1) -> Py.startswith path p = true) /\
  (forall p, match_path r = Some p -> p <> "" -> Py.endswith p "*" = false ->
     In r (match_request rules path m1) -> path = p).
Proof.
  split; [|split; [|split]].
  - intros Hm. unfold match_request. apply filter_ext. intros x.
    unfold rule_matches. rewrite Hm. reflexivity.
  - intros He Hin. unfold match_request in Hin. apply filter_In in Hin as [_ Hin].
    unfold rule_matches in Hin. rewrite He in Hin. discriminate Hin.
  - intros p Hp Hin. unfold match_request in Hin. apply filter_In in Hin as [_ Hin].
    unfold rule_matches in Hin. rewrite Hp in Hin. cbn [Classifier.get] in Hin.
    assert (Ht : truthy (Some (p ++ "*")) = true).
    { unfold truthy. destruct p; reflexivity. }
    rewrite Ht in Hin. cbn [andb] in Hin.
    destruct (negb (enabled r)); [discriminate|].
    unfold _path_matches in Hin. rewrite endswith_snoc, DurationFacts.drop_last_snoc in Hin.
    cbn [Ascii.eqb] in Hin.
    destruct (Py.startswith path p); [reflexivity|]. discriminate Hin.
  - intros p Hp Hne Hend Hin. unfold match_request in Hin. apply filter_In in Hin as [_ Hin].
    unfold rule_matches in Hin. rewrite Hp in Hin. cbn [Classifier.get] in Hin.
    assert (Ht : truthy (Some p) = true).
    { unfold truthy. destruct (String.eqb_spec p ""); [contradiction|reflexivity]. }
    rewrite Ht in Hin. cbn [andb] in Hin.
    destruct (negb (enabled r)); [discriminate|].
    unfold _path_matches in Hin. rewrite Hend in Hin.
    destruct (String.eqb_spec path p); [assumption|]. discriminate Hin.
Qed.

Lemma match_request_paths_witness :
  Py.startswith "/admin/users" "/admin/" = true /\
  match_request [ {| name := "admin"; match_path := Some "/admin/*"; match_method := Some "post";
                     limits := None; escalation := []; enabled := true |} ] "/admin/users" "POST" =
  match_request [ {| name := "admin"; match_path := Some "/admin/*"; match_method := Some "post";
                     limits := None; escalation := []; enabled := true |} ] "/admin/users" "Post".
Proof.
  destruct (match_request_paths
    [ {| name := "admin"; match_path := Some "/admin/*"; match_method := Some "post";
         limits := None; escalation := []; enabled := true |} ]
    {| name := "admin"; match_path := Some "/admin/*"; match_method := Some "post";
       limits := None; escalation := []; enabled := true |} "/admin/users" "POST" "Post")
    as [Hm [_ [Hp _]]].
  split.
  - apply (Hp "/admin/" eq_refl). vm_compute. left. reflexivity.
  - apply Hm. reflexivity.
Defined.

(** X24: [get_client_ip] takes the client IP from the [X-Forwarded-For]
    header whenever the header is non-empty, whatever the connection's peer
    address: the first comma-separated entry, stripped of white space. A
    header holding one entry without white space becomes the client IP as
    it is. *)
Theorem get_client_ip_forwarded (x rest : string) (peer : option string) :
  ~ In ","%char (list_ascii_of_string x) ->
  Handler.get_client_ip (Some (x ++ String "," rest)) peer = Py.strip x /\
  (x <> "" -> (forall c, In c (list_ascii_of_string x) -> Py.is_space c = false) ->
   Handler.get_client_ip (Some x) peer = x).
Proof.
  intros Hx. unfold Handler.get_client_ip. split.
  - assert (Hne : String.eqb (x ++ String "," rest) "" = false).
    { destruct x; reflexivity. }
    rewrite Hne, SplitFacts.split_app by exact Hx. reflexivity.
  - intros Hne Hs. destruct (String.eqb_spec x "") as [E|_]; [contradiction|].
    rewrite SplitFacts.split_no_sep by exact Hx. cbn [nth].
    apply TokenFacts.strip_id, Hs.
Qed.

Lemma get_client_ip_forwarded_witness :
  Handler.get_client_ip (Some "203.0.113.9, 10.0.0.1") (Some "198.51.100.7") = "203.0.113.9" /\
  Handler.get_client_ip (Some "1.2.3.4") (Some "198.51.100.7") = "1.2.3.4".
Proof.
  destruct (get_client_ip_forwarded "203.0.113.9" " 10.0.0.1" (Some "198.51.100.7"))
    as [H1 _]; [vm_compute; intuition discriminate|].
  destruct (get_client_ip_forwarded "1.2.3.4" "" (Some "198.51.100.7")) as [_ H2];
    [vm_compute; intuition discriminate|].
  split.
  - exact H1.
  - apply H2; [discriminate|]. intros c Hc. vm_compute in Hc.
    repeat (destruct Hc as [<-|Hc]; [reflexivity|]). contradiction.
Defined.

(** X25: while the ML model is not ready, [score_request] returns at most
    [0.71] for a request whose IP has fewer than two requests in its
    behavior session (after the periodic cleanup), whatever the features,
    the baseline and the rate count. This is below the default
    [anomaly_threshold] of [0.75], so such a request is never mitigated on
    its threat score. *)
Theorem score_request_new_session_ceiling a baseline ml_score now client_ip path method
    user_agent accept_language referer cookie header_order_hash header_count content_length
    rate_count rate_limit :
  (forall s, Behavior.get_session (Behavior._maybe_cleanup a now) client_ip = Some s ->
     Behavior.request_count s < 2) ->
  (fst (Engine.score_request a baseline false ml_score now client_ip path method user_agent
          accept_language referer cookie header_order_hash header_count content_length
          rate_count rate_limit) <= 0.71)%Q /\
  (fst (Engine.score_request a baseline false ml_score now client_ip path method user_agent
          accept_language referer cookie header_order_hash header_count content_length
          rate_count rate_limit) < 0.75)%Q.
Proof.
  intros H.
  pose proof (SessionFacts.record_and_score_fresh a now client_ip path method user_agent
                accept_language referer cookie header_order_hash H) as H0.
  unfold Engine.score_request. cbv zeta.
  destruct (Behavior.record_and_score a now client_ip path method user_agent accept_language
              referer cookie header_order_hash) as [bs a'].
  cbn [fst] in H0 |- *. subst bs.
  match goal with
  | |- context [Scorer.score ?f baseline ?rr 0%Q] =>
      pose proof (ScoreFacts.score_upper f baseline rr 0%Q) as Hu;
      pose proof (ScoreFacts.clamp_range rr) as Hr;
      set (h := Scorer.score f baseline rr 0%Q) in *
  end.
  rewrite ScoreFacts.clamp_zero in Hu.
  assert (Hle : (clamp01 h <= 0.71)%Q) by (apply ScoreFacts.clamp_le_bound; lra).
  split; [exact Hle | lra].
Qed.

Lemma score_request_new_session_ceiling_witness :
  (fst (Engine.score_request {| Behavior.sessions := []; Behavior.last_cleanup := 0 |}
          {| is_ready := true; mean_header_count := 10%Q; std_header_count := 1%Q;
             mean_content_length := 0%Q; std_content_length := 1%Q |}
          false 1%Q 100 "10.0.0.9" "/login" "POST" "" "" None None "h" 30%Q 5000%Q 100 100)
   <= 0.71)%Q.
Proof.
  apply (score_request_new_session_ceiling {| Behavior.sessions := []; Behavior.last_cleanup := 0 |}
          {| is_ready := true; mean_header_count := 10%Q; std_header_count := 1%Q;
             mean_content_length := 0%Q; std_content_length := 1%Q |}
          1%Q 100 "10.0.0.9" "/login" "POST" "" "" None None "h" 30%Q 5000%Q 100 100).
  intros s Hs. vm_compute in Hs. discriminate Hs.
Defined.

(** X26: graduated mitigation forwards every request below
    [anomaly_threshold], and every request at the default level [MONITOR]
    outside under-attack mode, leaving the store unchanged. At level
    [BLOCK] or [BLACKHOLE], or in under-attack mode, a request whose threat
    score reaches the threshold gets a 403 and a permanent block: unless
    allowlisted, the IP is blocked at every later time, with no expiry. *)
Theorem graduated_mitigation_outcomes secret level under_attack threshold threat_score
    client_ip reason cookie now nonce (st : store) :
  ((threat_score < threshold)%Q \/ (level = Handler.MONITOR /\ under_attack = false) ->
   Handler.graduated_mitigation secret level under_attack threshold threat_score client_ip reason
     cookie now nonce (Some st) = (Handler.Continue, Some st)) /\
  ((under_attack = true \/ level = Handler.BLOCK \/ level = Handler.BLACKHOLE) ->
   (threshold <= threat_score)%Q ->
   (forall e, st BLOCKLIST_KEY = Some e -> expires e = None) ->
   fst (Handler.graduated_mitigation secret level under_attack threshold threat_score client_ip
          reason cookie now nonce (Some st)) = Handler.Respond Handler.forbidden /\
   forall t, sismember st t ALLOWLIST_KEY client_ip = false ->
     is_blocked client_ip t (snd (Handler.graduated_mitigation secret level under_attack threshold
                                   threat_score client_ip reason cookie now nonce (Some st))) = true).
Proof.
  unfold Handler.graduated_mitigation. split.
  - intros [Hlt|[-> ->]].
    + destruct (Qle_bool threshold threat_score) eqn:E; [|reflexivity].
      apply Qle_bool_iff in E. lra.
    + destruct (Qle_bool threshold threat_score); reflexivity.
  - intros Hlev Hge Hk. apply Qle_bool_iff in Hge. rewrite Hge.
    assert (Hb : forall lv, lv = Handler.BLOCK \/ lv = Handler.BLACKHOLE ->
              match lv with
              | Handler.MONITOR => (Handler.Continue, Some st)
              | Handler.JS_CHALLENGE =>
                  match Challenge.maybe_challenge secret cookie client_ip now nonce with
                  | Some resp => (Handler.Respond resp, Some st)
                  | None => (Handler.Continue, Some st)
                  end
              | Handler.RATE_LIMIT => (Handler.Respond Handler.too_many, Some st)
              | Handler.BLOCK | Handler.BLACKHOLE =>
                  (Handler.Respond Handler.forbidden, block client_ip reason None now (Some st))
              end = (Handler.Respond Handler.forbidden, Some (sadd st now BLOCKLIST_KEY client_ip))).
    { intros lv [-> | ->]; reflexivity. }
    rewrite Hb by (destruct under_attack; [now left | destruct Hlev as [Hf|Hl]; [discriminate|exact Hl]]).
    split; [reflexivity|]. intros t Ha. cbn [snd is_blocked].
    rewrite (sismember_same_key _ st _ ALLOWLIST_KEY)
      by (apply sadd_other_key, allow_neq_blocklist).
    rewrite Ha, (sadd_member st now t BLOCKLIST_KEY client_ip Hk).
    destruct (exists_key _ _ _); reflexivity.
Qed.

Lemma graduated_mitigation_outcomes_witness :
  Handler.graduated_mitigation [] Handler.MONITOR false 0.75 1 "10.0.0.3" "threat score 1.00"
    None 0 "n" (Some empty) = (Handler.Continue, Some empty) /\
  is_blocked "10.0.0.3" 1000000
    (snd (Handler.graduated_mitigation [] Handler.MONITOR true 0.75 0.9 "10.0.0.3"
            "threat score 0.90" None 0 "n" (Some empty))) = true.
Proof.
  split.
  - apply (proj1 (graduated_mitigation_outcomes [] Handler.MONITOR false 0.75 1 "10.0.0.3"
                    "threat score 1.00" None 0 "n" empty)).
    right. split; reflexivity.
  - apply (proj2 (proj2 (graduated_mitigation_outcomes [] Handler.MONITOR true 0.75 0.9 "10.0.0.3"
                    "threat score 0.90" None 0 "n" empty) (or_introl eq_refl)
                    ltac:(apply Qle_bool_iff; reflexivity) (fun e H => ltac:(discriminate H)))).
    reflexivity.
Defined.

End Extras.
